(** * LinkedIn people-search scraper

    The query encoder, the record extractors, the session login and the
    search pipeline of [src/index.ts], followed by the full-profile
    extraction that the profile-scraping variant of the file adds to the
    same class, and by the properties proved of them.

    Strings are byte strings: a JavaScript string is represented by its UTF-8
    encoding, which is also what [URLSearchParams] serialises.  Every pattern
    the program searches for ("?", "http", "/in/", digits) is ASCII, so the
    byte-level operations agree with the UTF-16 ones on well-formed text.

    The browser is an interface: the program is a function of what the page
    answers, and the statements hold for every page. *)

From Stdlib Require Import Ascii String DecimalString NArith Lia.
From stdpp Require Import base option list strings gmap.

(** ** JavaScript string primitives *)

Module JS.

(** The double-quote character, written by code. *)
Definition dq : string := String "034"%char EmptyString.

(** [s.startsWith(p)] *)
Fixpoint startsWith (p s : string) : bool :=
  match p, s with
  | EmptyString, _ => true
  | String a p', String b s' => if Ascii.eqb a b then startsWith p' s' else false
  | String _ _, EmptyString => false
  end.

(** [s.includes(p)] *)
Fixpoint includes (p s : string) : bool :=
  startsWith p s ||
  match s with
  | EmptyString => false
  | String _ s' => includes p s'
  end.

(** [s.split(c)[0]] for a one-character separator: the text before the
    first occurrence of [c], the whole string when there is none. *)
Fixpoint split_head (c : ascii) (s : string) : string :=
  match s with
  | EmptyString => EmptyString
  | String a s' => if Ascii.eqb a c then EmptyString else String a (split_head c s')
  end.

(** Membership of a character in a string. *)
Fixpoint has_char (c : ascii) (s : string) : bool :=
  match s with
  | EmptyString => false
  | String a s' => Ascii.eqb a c || has_char c s'
  end.

Definition is_empty (s : string) : bool :=
  match s with EmptyString => true | _ => false end.

(** Truthiness of an optional string: [undefined] and the empty string are
    falsy.  [truthy o] is the value a guard [if (o)] lets through. *)
Definition truthy (o : option string) : option string :=
  match o with
  | Some s => if is_empty s then None else Some s
  | None => None
  end.

(** [o || d] on an optional string. *)
Definition or_else (o : option string) (d : string) : string :=
  match truthy o with
  | Some s => s
  | None => d
  end.

(** [\d] *)
Definition is_digit (c : ascii) : bool :=
  let n := nat_of_ascii c in (48 <=? n)%nat && (n <=? 57)%nat.

Fixpoint all_digits (s : string) : bool :=
  match s with
  | EmptyString => true
  | String a s' => is_digit a && all_digits s'
  end.

(** [/^\d+$/.test(s)]: one or more ASCII digits and nothing else (no
    multiline flag, so [$] is the end of the input). *)
Definition digits_only (s : string) : bool :=
  negb (is_empty s) && all_digits s.

(** [s.toUpperCase()].  ASCII letters are mapped exactly.  U+017F (long s,
    bytes C5 BF) is the one non-ASCII character whose upper case is "F", "S"
    or "O" (it is "S"), so it is mapped too; other non-ASCII text is left as
    it is, which cannot change a comparison with "F", "S" or "O". *)
Definition upper_ascii (c : ascii) : ascii :=
  let n := nat_of_ascii c in
  if (97 <=? n)%nat && (n <=? 122)%nat then ascii_of_nat (n - 32) else c.

Fixpoint toUpperCase (s : string) : string :=
  match s with
  | EmptyString => EmptyString
  | String "197"%char (String "191"%char s') => String "S"%char (toUpperCase s')
  | String a s' => String (upper_ascii a) (toUpperCase s')
  end.

(** White space of [String.prototype.trim], as UTF-8 byte sequences:
    TAB LF VT FF CR SP, U+00A0, U+1680, U+2000..U+200A, U+2028, U+2029,
    U+202F, U+205F, U+3000 and U+FEFF. *)
Definition ws1 (a : ascii) : bool :=
  let n := nat_of_ascii a in ((9 <=? n)%nat && (n <=? 13)%nat) || (n =? 32)%nat.

Definition ws2 (a b : ascii) : bool :=
  (nat_of_ascii a =? 194)%nat && (nat_of_ascii b =? 160)%nat.

Definition ws3 (a b c : ascii) : bool :=
  let x := nat_of_ascii a in
  let y := nat_of_ascii b in
  let z := nat_of_ascii c in
  ((x =? 225)%nat && (y =? 154)%nat && (z =? 128)%nat) ||
  ((x =? 226)%nat && (y =? 128)%nat &&
     (((128 <=? z)%nat && (z <=? 138)%nat) || (z =? 168)%nat || (z =? 169)%nat
      || (z =? 175)%nat)) ||
  ((x =? 226)%nat && (y =? 129)%nat && (z =? 159)%nat) ||
  ((x =? 227)%nat && (y =? 128)%nat && (z =? 128)%nat) ||
  ((x =? 239)%nat && (y =? 187)%nat && (z =? 191)%nat).

(** Drop leading white space; [rev] tells that the bytes of each character
    come in reverse order (used on the reversed string for the tail). *)
Fixpoint trim_left (rev : bool) (s : string) : string :=
  match s with
  | String a r1 =>
      if ws1 a then trim_left rev r1
      else match r1 with
           | String b r2 =>
               if (if rev then ws2 b a else ws2 a b) then trim_left rev r2
               else match r2 with
                    | String c r3 =>
                        if (if rev then ws3 c b a else ws3 a b c)
                        then trim_left rev r3
                        else s
                    | EmptyString => s
                    end
           | EmptyString => s
           end
  | EmptyString => s
  end.

Definition trimStart (s : string) : string := trim_left false s.

Definition trim (s : string) : string :=
  String.rev (trim_left true (String.rev (trimStart s))).

(** Decimal rendering of a number in a template literal. *)
Definition show_nat (n : nat) : string := NilEmpty.string_of_uint (Nat.to_uint n).

End JS.

(** ** [URLSearchParams]

    An ordered list of name/value pairs: order and duplicates are kept, which
    matters for [append] against [set]. *)

Module URLSearchParams.

Definition t : Type := list (string * string).

(** [new URLSearchParams()] *)
Definition empty : t := [].

(** [params.append(name, value)] *)
Definition append (name value : string) (ps : t) : t := ps ++ [(name, value)].

(** [params.get(name)]: the value of the first pair named [name]. *)
Fixpoint get (name : string) (ps : t) : option string :=
  match ps with
  | [] => None
  | (k, v) :: ps' => if String.eqb k name then Some v else get name ps'
  end.

Definition remove_all (name : string) (ps : t) : t :=
  List.filter (fun kv => negb (String.eqb (fst kv) name)) ps.

(** [params.getAll(name)]: the values of the pairs named [name], in order. *)
Fixpoint getAll (name : string) (ps : t) : list string :=
  match ps with
  | [] => []
  | (k, v) :: ps' => if String.eqb k name then v :: getAll name ps' else getAll name ps'
  end.

(** [params.set(name, value)]: the first pair named [name] takes the value
    and the other pairs of that name are removed; without such a pair the
    new pair is appended. *)
Fixpoint set (name value : string) (ps : t) : t :=
  match ps with
  | [] => [(name, value)]
  | (k, v) :: ps' =>
      if String.eqb k name then (k, value) :: remove_all name ps'
      else (k, v) :: set name value ps'
  end.

(** The application/x-www-form-urlencoded byte serialiser: a space becomes
    "+", ASCII letters and digits and "*", "-", ".", "_" stay, every other
    byte becomes "%XX" with upper-case hexadecimal digits. *)
Definition keeps (c : ascii) : bool :=
  let n := nat_of_ascii c in
  ((48 <=? n)%nat && (n <=? 57)%nat) || ((65 <=? n)%nat && (n <=? 90)%nat) ||
  ((97 <=? n)%nat && (n <=? 122)%nat) ||
  (n =? 42)%nat || (n =? 45)%nat || (n =? 46)%nat || (n =? 95)%nat.

Definition hex_digit (n : nat) : ascii :=
  if (n <? 10)%nat then ascii_of_nat (48 + n) else ascii_of_nat (55 + n).

Definition percent (c : ascii) : string :=
  let n := nat_of_ascii c in
  String "%"%char (String (hex_digit (n / 16)) (String (hex_digit (n mod 16)) EmptyString)).

Definition encode_byte (c : ascii) : string :=
  if Ascii.eqb c " "%char then "+"
  else if keeps c then String c EmptyString
  else percent c.

Fixpoint encode (s : string) : string :=
  match s with
  | EmptyString => EmptyString
  | String c s' => encode_byte c +:+ encode s'
  end.

Definition encode_pair (kv : string * string) : string :=
  encode (fst kv) +:+ "=" +:+ encode (snd kv).

(** [params.toString()] *)
Definition toString (ps : t) : string :=
  String.concat "&" (List.map encode_pair ps).

(** The application/x-www-form-urlencoded parser, by which a reader of the
    URL (the [searchParams] of [new URL(u)]) recovers the pairs: split on
    "&", drop empty pieces, split each piece at its first "=", turn "+"
    into a space and decode "%XX". *)
Definition hex_value (c : ascii) : option nat :=
  let n := nat_of_ascii c in
  if (48 <=? n)%nat && (n <=? 57)%nat then Some (n - 48)
  else if (65 <=? n)%nat && (n <=? 70)%nat then Some (n - 55)
  else if (97 <=? n)%nat && (n <=? 102)%nat then Some (n - 87)
  else None.

Fixpoint decode (s : string) : string :=
  match s with
  | EmptyString => EmptyString
  | String c s' =>
      if Ascii.eqb c "+"%char then String " "%char (decode s')
      else if Ascii.eqb c "%"%char then
        match s' with
        | String h1 (String h2 r) =>
            match hex_value h1, hex_value h2 with
            | Some a, Some b => String (ascii_of_nat (16 * a + b)) (decode r)
            | _, _ => String c (decode s')
            end
        | _ => String c (decode s')
        end
      else String c (decode s')
  end.

Fixpoint split_on (c : ascii) (s : string) : list string :=
  match s with
  | EmptyString => [EmptyString]
  | String a s' =>
      if Ascii.eqb a c then EmptyString :: split_on c s'
      else match split_on c s' with
           | x :: xs => String a x :: xs
           | [] => [String a EmptyString]
           end
  end.

(** The text after the first [c], empty when there is none. *)
Fixpoint after_first (c : ascii) (s : string) : string :=
  match s with
  | EmptyString => EmptyString
  | String a s' => if Ascii.eqb a c then s' else after_first c s'
  end.

Definition parse_pair (piece : string) : string * string :=
  (decode (JS.split_head "="%char piece), decode (after_first "="%char piece)).

Definition parse (query : string) : t :=
  List.map parse_pair
    (List.filter (fun piece => negb (JS.is_empty piece)) (split_on "&"%char query)).

(** The pairs a reader finds in the query of a URL: the text between the
    first "?" and the first "#" after it. *)
Definition of_url (u : string) : t :=
  parse (JS.split_head "#"%char (after_first "?"%char u)).

End URLSearchParams.

(** ** Data model *)

Record SearchFilters : Type := mkSearchFilters {
  keywords : option string;
  location : option string;
  network : option string
}.

Record LinkedInProfileLink : Type := mkProfileLink {
  name : string;
  profileUrl : string;
  headline : option string
}.

(** ** Query encoder ([buildSearchUrl] and its three helpers) *)

Module Encoder.

Import URLSearchParams.

Definition baseUrl : string := "https://www.linkedin.com/search/results/people/".

Definition default_geoUrn : string := "104195383".

(** The template literal [`["${x}"]`]. *)
Definition bracketed (x : string) : string := "[" +:+ JS.dq +:+ x +:+ JS.dq +:+ "]".

Definition addKeywordsToParams (params : URLSearchParams.t) (filters : SearchFilters)
  : URLSearchParams.t :=
  match JS.truthy (keywords filters) with
  | Some k => append "keywords" k params
  | None => params
  end.

(** [const location = filters.location || '104195383'] *)
Definition effective_location (filters : SearchFilters) : string :=
  JS.or_else (location filters) default_geoUrn.

Definition addLocationToParams (params : URLSearchParams.t) (filters : SearchFilters)
  : URLSearchParams.t :=
  let location := effective_location filters in
  if JS.digits_only location then
    append "geoUrn" (bracketed location) (append "origin" "FACETED_SEARCH" params)
  else
    let existingKeywords := get "keywords" params in
    let locationKeywords :=
      match JS.truthy existingKeywords with
      | Some k => k +:+ " " +:+ location
      | None => location
      end in
    set "keywords" locationKeywords params.

(** The [switch] on the upper-cased code; [None] is the [default] branch. *)
Definition networkValue (network : string) : option string :=
  if String.eqb network "F" then Some "F"
  else if String.eqb network "S" then Some "S"
  else if String.eqb network "O" then Some "O"
  else None.

Definition invalid_network_message (given : string) : string :=
  "⚠️  Invalid network filter: " +:+ given +:+
  ". Valid options: F (1st degree), S (2nd degree), O (3rd+ degree)".

(** [addNetworkToParams] returns the parameters and the lines it writes to
    the diagnostic console. *)
Definition addNetworkToParams (params : URLSearchParams.t) (filters : SearchFilters)
  : URLSearchParams.t * list string :=
  match JS.truthy (network filters) with
  | Some given =>
      match networkValue (JS.toUpperCase given) with
      | Some v =>
          (append "network" (bracketed v) (append "origin" "FACETED_SEARCH" params), [])
      | None => (params, [invalid_network_message given])
      end
  | None => (params, [])
  end.

(** The parameter list at the end of [buildSearchUrl], with the console
    lines written on the way. *)
Definition buildSearchParams (filters : SearchFilters) : URLSearchParams.t * list string :=
  let params := URLSearchParams.empty in
  let params := addKeywordsToParams params filters in
  let params := addLocationToParams params filters in
  addNetworkToParams params filters.

Definition searchParams (filters : SearchFilters) : URLSearchParams.t :=
  fst (buildSearchParams filters).

Definition diagnostics (filters : SearchFilters) : list string :=
  snd (buildSearchParams filters).

Definition buildSearchUrl (filters : SearchFilters) : string :=
  baseUrl +:+ "?" +:+ toString (searchParams filters).

(** The handler's construction of the filters from the tool arguments, a
    JSON object with string values. *)
Definition filters_of_args (args : gmap string string) : SearchFilters :=
  {| keywords := args !! "keywords";
     location := args !! "location";
     network := args !! "network" |}.

End Encoder.

(** ** Exceptions *)

Inductive ErrorCode : Type := InternalError | MethodNotFound | InvalidParams.

Inductive exn : Type :=
| JsError (message : string)
| McpError (code : ErrorCode) (message : string).

Definition exn_message (e : exn) : string :=
  match e with
  | JsError m => m
  | McpError _ m => m
  end.

Inductive result (A : Type) : Type :=
| Ok (a : A)
| Throw (e : exn).

Arguments Ok {A} a.
Arguments Throw {A} e.

Definition result_bind {A B : Type} (r : result A) (k : A -> result B) : result B :=
  match r with
  | Ok a => k a
  | Throw e => Throw e
  end.

Definition is_ok {A : Type} (r : result A) : bool :=
  match r with Ok _ => true | Throw _ => false end.

Declare Scope result_scope.
Delimit Scope result_scope with result.
Notation "'let?' x := r 'in' k" := (result_bind r (fun x => k))
  (at level 10, x name, r at level 100, k at level 200) : result_scope.

(** ** The rendered page, as the page-control interface shows it

    A handle answers [getAttribute] and [textContent]; a result row answers
    [$] (the first descendant matching a selector).  Each call may fail with
    an exception, as a call on a detached node does. *)

Record Handle : Type := mkHandle {
  getAttribute : string -> result (option string);
  textContent : result (option string)
}.

Record Element : Type := mkElement {
  query : string -> result (option Handle);
  elementText : result (option string)
}.

(** [handle?.getAttribute(name)] and [handle?.textContent()] *)
Definition opt_getAttribute (h : option Handle) (attr : string) : result (option string) :=
  match h with
  | Some h => getAttribute h attr
  | None => Ok None
  end.

Definition opt_textContent (h : option Handle) : result (option string) :=
  match h with
  | Some h => textContent h
  | None => Ok None
  end.

(** ** Record extractor for one search-result row *)

Module Extract.

Local Open Scope result_scope.

Definition attr (a v : string) : string := "[" +:+ a +:+ "=" +:+ JS.dq +:+ v +:+ JS.dq +:+ "]".
Definition attr_has (a v : string) : string := "[" +:+ a +:+ "*=" +:+ JS.dq +:+ v +:+ JS.dq +:+ "]".

Definition linkSelectors : list string :=
  [ "a" +:+ attr_has "href" "/in/";
    ".app-aware-link" +:+ attr_has "href" "/in/";
    ".search-result__result-link";
    attr "data-control-name" "search_srp_result" ].

Definition nameSelectors : list string :=
  [ ".entity-result__title-text a span" +:+ attr "aria-hidden" "true";
    ".search-result__result-link span" +:+ attr "aria-hidden" "true";
    ".actor-name";
    ".search-result__result-link" ].

Definition headlineSelectors : list string :=
  [ ".entity-result__primary-subtitle";
    ".search-result__snippets";
    ".subline-level-1" ].

Definition cleanProfileUrl (url : string) : string :=
  let cleanUrl := JS.split_head "?" url in
  if JS.startsWith "http" cleanUrl then cleanUrl
  else "https://www.linkedin.com" +:+ cleanUrl.

(** The loop of [extractProfileUrl] over a list of candidate selectors. *)
Fixpoint extractProfileUrl_from (selectors : list string) (profileElement : Element)
  : result (option string) :=
  match selectors with
  | [] => Ok None
  | linkSelector :: rest =>
      let? profileLink := query profileElement linkSelector in
      let? href := opt_getAttribute profileLink "href" in
      match href with
      | Some h =>
          if JS.includes "/in/" h then Ok (Some (cleanProfileUrl h))
          else extractProfileUrl_from rest profileElement
      | None => extractProfileUrl_from rest profileElement
      end
  end.

Definition extractProfileUrl : Element -> result (option string) :=
  extractProfileUrl_from linkSelectors.

(** The fallback name [`Profile ${index + 1}`]. *)
Definition placeholder_name (index : nat) : string :=
  "Profile " +:+ JS.show_nat (index + 1).

(** [await handle.textContent() || ''] *)
Definition text_or_empty (h : Handle) : result string :=
  let? t := textContent h in Ok (JS.or_else t EmptyString).

Fixpoint extractProfileName_from (selectors : list string) (profileElement : Element)
  (index : nat) : result string :=
  match selectors with
  | [] => Ok (placeholder_name index)
  | nameSelector :: rest =>
      let? nameElement := query profileElement nameSelector in
      match nameElement with
      | Some h =>
          let? name := text_or_empty h in
          if JS.is_empty (JS.trim name)
          then extractProfileName_from rest profileElement index
          else Ok (JS.trim name)
      | None => extractProfileName_from rest profileElement index
      end
  end.

Definition extractProfileName : Element -> nat -> result string :=
  extractProfileName_from nameSelectors.

Fixpoint extractProfileHeadline_from (selectors : list string) (profileElement : Element)
  : result (option string) :=
  match selectors with
  | [] => Ok None
  | headlineSelector :: rest =>
      let? headlineElement := query profileElement headlineSelector in
      match headlineElement with
      | Some h =>
          let? headline := text_or_empty h in
          if JS.is_empty (JS.trim headline)
          then extractProfileHeadline_from rest profileElement
          else Ok (Some (JS.trim headline))
      | None => extractProfileHeadline_from rest profileElement
      end
  end.

Definition extractProfileHeadline : Element -> result (option string) :=
  extractProfileHeadline_from headlineSelectors.

Definition no_url_message (index : nat) : string :=
  "⚠️  No profile URL found for result " +:+ JS.show_nat (index + 1).

Definition error_message (index : nat) : string :=
  "⚠️  Error extracting data from profile " +:+ JS.show_nat (index + 1) +:+ ":".

(** The body of the [try] block of [extractSingleProfile]: the record, or
    [None] for the early [return null], with the console lines written. *)
Definition extractSingleProfile_body (profileElement : Element) (index : nat)
  : result (option LinkedInProfileLink * list string) :=
  let? profileUrl := extractProfileUrl profileElement in
  match JS.truthy profileUrl with
  | None => Ok (None, [no_url_message index])
  | Some profileUrl =>
      let? name := extractProfileName profileElement index in
      let? headline := extractProfileHeadline profileElement in
      Ok (Some {| name := name; profileUrl := profileUrl; headline := JS.truthy headline |}, [])
  end.

(** [extractSingleProfile]: the [catch] turns any exception into a skip. *)
Definition extractSingleProfile (profileElement : Element) (index : nat)
  : option LinkedInProfileLink * list string :=
  match extractSingleProfile_body profileElement index with
  | Ok r => r
  | Throw _ => (None, [error_message index])
  end.

End Extract.

(** ** The page-control interface and the scraper's effects

    [W] is the state of the browser page with everything behind it (the
    remote site, the configuration and the cookie file).  An action may
    change it and may throw; a query ([url], [title], [isVisible], [$],
    [$$]) reads it and may throw.  [fill] takes the selector only: the
    credentials typed in are those of the configuration. *)

Class Browser (W : Type) : Type := {
  loadConfig : W -> result unit;
  launch : W -> result unit * W;
  setExtraHTTPHeaders : W -> result unit * W;
  restoreCookies : W -> result bool * W;
  persistCookies : W -> result unit * W;
  goto : string -> W -> result unit * W;
  waitForTimeout : N -> W -> result unit * W;
  url : W -> string;
  title : W -> result string;
  isVisible : string -> W -> result bool;
  waitFor : string -> W -> result unit * W;
  fill : string -> W -> result unit * W;
  click : string -> W -> result unit * W;
  waitForSelector : string -> W -> result unit * W;
  queryAll : string -> W -> result (list Element);
  queryOne : string -> W -> result (option Handle)
}.

(** What the scraper does, in order: console lines and interface calls.
    A console line is recorded by its text; an object or an error printed
    after a fixed text is left out. *)
Inductive Event : Type :=
| Console (line : string)
| Launch
| Headers
| RestoreCookies
| PersistCookies
| Goto (target : string)
| WaitForTimeout (ms : N)
| Title
| IsVisible (selector : string)
| WaitFor (selector : string)
| Fill (selector : string)
| Click (selector : string)
| WaitForSelector (selector : string) (timeout : N)
| QueryAll (selector : string)
| QueryOne (selector : string).

(** The process state: whether the global [scraper] exists, whether its
    [page] is set, and the browser. *)
Record State (W : Type) : Type := mkState {
  created : bool;
  ready : bool;
  world : W
}.

Arguments mkState {W} _ _ _.
Arguments created {W} _.
Arguments ready {W} _.
Arguments world {W} _.

(** A computation returns or throws, leaves a state and emits events. *)
Definition M (W A : Type) : Type := State W -> result A * State W * list Event.

Definition ret {W A : Type} (a : A) : M W A := fun s => (Ok a, s, []).

Definition throw {W A : Type} (e : exn) : M W A := fun s => (Throw e, s, []).

Definition bind {W A B : Type} (m : M W A) (k : A -> M W B) : M W B :=
  fun s =>
    match m s with
    | (Ok a, s1, t1) =>
        match k a s1 with
        | (r, s2, t2) => (r, s2, t1 ++ t2)
        end
    | (Throw e, s1, t1) => (Throw e, s1, t1)
    end.

(** [try { m } catch (e) { h e }] *)
Definition try_catch {W A : Type} (m : M W A) (h : exn -> M W A) : M W A :=
  fun s =>
    match m s with
    | (Ok a, s1, t1) => (Ok a, s1, t1)
    | (Throw e, s1, t1) =>
        match h e s1 with
        | (r, s2, t2) => (r, s2, t1 ++ t2)
        end
    end.

Declare Scope scraper_scope.
Delimit Scope scraper_scope with scraper.
Notation "x <- m ;; k" := (bind m (fun x => k))
  (at level 100, m at next level, right associativity) : scraper_scope.
Notation "m ;; k" := (bind m (fun _ => k))
  (at level 100, right associativity) : scraper_scope.

Definition outcome {W A : Type} (r : result A * State W * list Event) : result A := r.1.1.
Definition final {W A : Type} (r : result A * State W * list Event) : State W := r.1.2.
Definition events {W A : Type} (r : result A * State W * list Event) : list Event := r.2.

Section Primitives.

Context {W : Type} `{Browser W}.

Definition console (line : string) : M W unit := fun s => (Ok tt, s, [Console line]).

Definition console_lines (lines : list string) : M W unit :=
  fun s => (Ok tt, s, List.map Console lines).

(** An action of the interface on the page. *)
Definition call {A : Type} (ev : Event) (op : W -> result A * W) : M W A :=
  fun s =>
    match op (world s) with
    | (r, w) => (r, mkState (created s) (ready s) w, [ev])
    end.

(** A query of the page. *)
Definition read {A : Type} (ev : Event) (op : W -> result A) : M W A :=
  fun s => (op (world s), s, [ev]).

Definition page_is_null : M W bool := fun s => (Ok (negb (ready s)), s, []).

Definition page_url : M W string := fun s => (Ok (url (world s)), s, []).

Definition lift_result {A : Type} (r : result A) : M W A := fun s => (r, s, []).

End Primitives.

(** ** The scraper: session, search pipeline and tool handler *)

Record SearchResponse : Type := mkSearchResponse {
  success : bool;
  count : nat;
  profiles : list LinkedInProfileLink;
  filters : SearchFilters
}.

Module Scraper.

Import Encoder Extract.
Local Open Scope scraper_scope.

Definition loginUrl : string := "https://www.linkedin.com/login".
Definition session_key : string := "input" +:+ attr "name" "session_key".
Definition session_password : string := "input" +:+ attr "name" "session_password".
Definition submit_button : string := "button" +:+ attr "type" "submit".

Definition searchSelectors : list string :=
  [ ".search-results-container";
    ".search-results__list";
    ".reusable-search__result-container";
    "[data-chameleon-result-urn]" ].

Definition profileSelectors : list string :=
  [ ".reusable-search__result-container";
    ".search-result";
    ".entity-result";
    "[data-chameleon-result-urn]" ].

Definition login_failed : exn := JsError "Failed to log in to LinkedIn".
Definition not_initialized : exn := JsError "Browser not initialized. Call init() first.".
Definition challenge_detected : exn :=
  JsError "LinkedIn security challenge detected. Please complete the challenge manually and try again.".

Section WithBrowser.

Context {W : Type} `{Browser W}.

Definition set_ready : M W unit :=
  fun s => (Ok tt, mkState (created s) true (world s), []).

Definition set_created : M W unit :=
  fun s => (Ok tt, mkState true (ready s) (world s), []).

Definition is_created : M W bool := fun s => (Ok (created s), s, []).

Definition saveCookies : M W unit :=
  null <- page_is_null ;;
  if null then ret tt
  else try_catch
         (call PersistCookies persistCookies ;;
          console "💾 Session cookies saved")
         (fun _ => console "❌ Error saving cookies:").

Definition loadCookies : M W unit :=
  null <- page_is_null ;;
  if null then ret tt
  else try_catch
         (loaded <- call RestoreCookies restoreCookies ;;
          if loaded then console "🍪 Session cookies loaded" else ret tt)
         (fun _ => console "❌ Error loading cookies:").

(** [new LinkedInPeopleSearchScraper()] *)
Definition construct : M W unit := fun s => (loadConfig (world s), s, []).

Definition init : M W unit :=
  call Launch launch ;;
  set_ready ;;
  call Headers setExtraHTTPHeaders ;;
  loadCookies.

Definition initializeScraper : M W unit :=
  exists_ <- is_created ;;
  if exists_ then ret tt
  else construct ;; set_created ;; init.

Definition signed_in (u : string) : bool :=
  JS.includes "/feed/" u || JS.includes "/in/" u.

Definition loginToLinkedIn : M W bool :=
  null <- page_is_null ;;
  if null then ret false
  else try_catch
    (console "🔐 Attempting to log in to LinkedIn..." ;;
     call (Goto loginUrl) (goto loginUrl) ;;
     call (WaitForTimeout 3000%N) (waitForTimeout 3000%N) ;;
     currentUrl <- page_url ;;
     if signed_in currentUrl then
       console "✅ Already logged in" ;;
       ret true
     else
       console "⏳ Waiting for login form elements..." ;;
       call (WaitFor session_key) (waitFor session_key) ;;
       call (WaitFor session_password) (waitFor session_password) ;;
       console "📝 Filling in credentials..." ;;
       call (Fill session_key) (fill session_key) ;;
       call (Fill session_password) (fill session_password) ;;
       console "🚀 Submitting login form..." ;;
       call (Click submit_button) (click submit_button) ;;
       call (WaitForTimeout 5000%N) (waitForTimeout 5000%N) ;;
       afterLoginUrl <- page_url ;;
       if JS.includes "/challenge/" afterLoginUrl then throw challenge_detected
       else if signed_in afterLoginUrl then
         console "✅ Login successful" ;;
         saveCookies ;;
         ret true
       else
         console "❌ Login failed. Please check your credentials." ;;
         ret false)
    (fun _ => console "❌ Error during login:" ;; ret false).

(** The loop of [getProfileElements] over a list of row selectors. *)
Fixpoint getProfileElements_from (selectors : list string) : M W (list Element) :=
  match selectors with
  | [] => ret []
  | selector :: rest =>
      elements <- read (QueryAll selector) (queryAll selector) ;;
      if (0 <? length elements)%nat then
        console ("📋 Found " +:+ JS.show_nat (length elements) +:+
                 " profiles using selector: " +:+ selector) ;;
        ret elements
      else getProfileElements_from rest
  end.

Definition getProfileElements : M W (list Element) :=
  null <- page_is_null ;;
  if null then ret [] else getProfileElements_from profileSelectors.

(** The loop that waits for a results container. *)
Fixpoint waitForResults (selectors : list string) : M W bool :=
  match selectors with
  | [] => ret false
  | selector :: rest =>
      found <- try_catch
                 (call (WaitForSelector selector 15000%N) (waitForSelector selector) ;;
                  console ("✅ Found search results using selector: " +:+ selector) ;;
                  ret true)
                 (fun e =>
                    console ("⏳ Selector " +:+ JS.dq +:+ selector +:+ JS.dq +:+
                             " not found, trying next...") ;;
                    console (exn_message e) ;;
                    ret false) ;;
      if found then ret true else waitForResults rest
  end.

(** The loop over the rows, [i] the index of the first of [rows]. *)
Fixpoint processProfiles (rows : list Element) (i total : nat)
  (acc : list LinkedInProfileLink) : M W (list LinkedInProfileLink) :=
  match rows with
  | [] => ret acc
  | row :: rest =>
      console ("   Processing profile " +:+ JS.show_nat (i + 1) +:+ "/" +:+
               JS.show_nat total +:+ "...") ;;
      let '(profile, lines) := extractSingleProfile row i in
      console_lines lines ;;
      match profile with
      | Some p =>
          console ("   ✅ Successfully extracted: " +:+ name p) ;;
          processProfiles rest (S i) total (acc ++ [p])
      | None =>
          console ("   ❌ Failed to extract profile " +:+ JS.show_nat (i + 1)) ;;
          processProfiles rest (S i) total acc
      end
  end.

Definition extractProfileLinks : M W (list LinkedInProfileLink) :=
  null <- page_is_null ;;
  if null then ret []
  else try_catch
    (console "🔍 Looking for search results on the page..." ;;
     foundResults <- waitForResults searchSelectors ;;
     (if foundResults then ret tt
      else
        console "⚠️  No search results container found. Let me check what's on the page..." ;;
        pageTitle <- read Title title ;;
        currentUrl <- page_url ;;
        console ("📄 Current page title: " +:+ pageTitle) ;;
        console ("🌐 Current URL: " +:+ currentUrl)) ;;
     profileElements <- getProfileElements ;;
     if (length profileElements =? 0)%nat then
       console "⚠️  No profile elements found. The page structure might have changed." ;;
       ret []
     else
       console ("🎯 Processing " +:+ JS.show_nat (length profileElements) +:+
                " profile results...") ;;
       processProfiles profileElements 0 (length profileElements) [])
    (fun _ => console "❌ Error extracting profile links:" ;; ret []).

(** The [try] block of [searchPeople] up to the extraction: build the
    URL, navigate, and log in and navigate again behind a login wall. *)
Definition navigate (filters : SearchFilters) : M W unit :=
  console "🔍 Searching for people with filters:" ;;
  console_lines (diagnostics filters) ;;
  let searchUrl := buildSearchUrl filters in
  console ("🌐 Navigating to: " +:+ searchUrl) ;;
  call (Goto searchUrl) (goto searchUrl) ;;
  call (WaitForTimeout 5000%N) (waitForTimeout 5000%N) ;;
  loginRequired <- read (IsVisible session_key) (isVisible session_key) ;;
  if loginRequired then
    console "🔑 Login required, attempting automatic login..." ;;
    loginSuccess <- loginToLinkedIn ;;
    if negb loginSuccess then throw login_failed
    else
      console "🔄 Redirecting to search after login..." ;;
      call (Goto searchUrl) (goto searchUrl) ;;
      call (WaitForTimeout 5000%N) (waitForTimeout 5000%N)
  else ret tt.

Definition searchPeople (filters : SearchFilters) : M W (list LinkedInProfileLink) :=
  null <- page_is_null ;;
  if null then throw not_initialized
  else try_catch
    (navigate filters ;;
     profiles <- extractProfileLinks ;;
     ret profiles)
    (fun error => console "❌ Error during people search:" ;; throw error).

(** The "search-linkedin-people" branch of the tool handler. *)
Definition search_tool (args : gmap string string) : M W SearchResponse :=
  let filters := filters_of_args args in
  console "🚀 Starting LinkedIn People Search..." ;;
  console "📝 Search Filters:" ;;
  try_catch
    (initializeScraper ;;
     profiles <- searchPeople filters ;;
     ret {| success := true; count := length profiles;
            profiles := profiles; filters := filters |})
    (fun error =>
       console "❌ LinkedIn search error:" ;;
       throw (McpError InternalError ("LinkedIn search failed: " +:+ exn_message error))).

(** The handler of [CallToolRequestSchema]. *)
Definition callTool (tool : string) (args : gmap string string) : M W SearchResponse :=
  try_catch
    (if String.eqb tool "search-linkedin-people" then search_tool args
     else throw (McpError MethodNotFound ("Unknown tool: " +:+ tool)))
    (fun error =>
       match error with
       | McpError _ _ => throw error
       | JsError m => throw (McpError InternalError ("Tool execution failed: Error: " +:+ m))
       end).

End WithBrowser.

End Scraper.

(** ** Full-profile extraction (the profile-scraping variant of the file) *)

Module Profile.

Record Experience : Type := mkExperience {
  title : string;
  company : string;
  duration : string;
  description : option string
}.

Record Education : Type := mkEducation {
  school : string;
  degree : option string;
  years : option string
}.

Record LinkedInProfile : Type := mkProfile {
  fullName : string;
  fullHeadline : option string;
  fullLocation : option string;
  about : option string;
  experience : option (list Experience);
  education : option (list Education);
  skills : option (list string);
  fullProfileUrl : string
}.

Import Extract Scraper.
Local Open Scope scraper_scope.

(** [t && t.trim()], as the value returned when the test passes. *)
Definition nonblank (t : option string) : option string :=
  match JS.truthy t with
  | Some s => if JS.is_empty (JS.trim s) then None else Some (JS.trim s)
  | None => None
  end.

(** The loop shared by the per-row field extractors
    ([extractExperienceTitle] and its siblings): no [try] inside. *)
Fixpoint rowText (selectors : list string) (row : Element) : result (option string) :=
  match selectors with
  | [] => Ok None
  | selector :: rest =>
      (let? el := query row selector in
       let? t := opt_textContent el in
       match nonblank t with
       | Some v => Ok (Some v)
       | None => rowText rest row
       end)%result
  end.

Definition extractExperienceTitle : Element -> result (option string) :=
  rowText [ ".pv-entity__summary-info h3";
            ".pv-entity__summary-info .t-16.t-black.t-bold" ].

Definition extractExperienceCompany : Element -> result (option string) :=
  rowText [ ".pv-entity__secondary-title";
            ".pv-entity__summary-info .t-14.t-black.t-normal" ].

Definition extractExperienceDuration : Element -> result (option string) :=
  rowText [ ".pv-entity__date-range";
            ".pv-entity__summary-info .t-14.t-black--light" ].

Definition extractExperienceDescription : Element -> result (option string) :=
  rowText [ ".pv-entity__description"; ".pv-entity__extra-details" ].

Definition extractEducationSchool : Element -> result (option string) :=
  rowText [ ".pv-entity__school-name" ].

Definition extractEducationDegree : Element -> result (option string) :=
  rowText [ ".pv-entity__degree-name" ].

Definition extractEducationYears : Element -> result (option string) :=
  rowText [ ".pv-entity__dates" ].

(** One experience row: [None] when neither title nor company is found. *)
Definition experienceItem (row : Element) : result (option Experience) :=
  (let? title := extractExperienceTitle row in
   let? company := extractExperienceCompany row in
   let? duration := extractExperienceDuration row in
   let? description := extractExperienceDescription row in
   match title, company with
   | None, None => Ok None
   | _, _ =>
       Ok (Some {| title := default "Unknown Title" title;
                   company := default "Unknown Company" company;
                   duration := default "Unknown Duration" duration;
                   description := description |})
   end)%result.

Definition educationItem (row : Element) : result (option Education) :=
  (let? school := extractEducationSchool row in
   let? degree := extractEducationDegree row in
   let? years := extractEducationYears row in
   match school with
   | Some s => Ok (Some {| school := s; degree := degree; years := years |})
   | None => Ok None
   end)%result.

Definition nameSelectorsOnPage : list string :=
  [ ".pv-text-details__left-panel h1";
    ".pv-top-card--list-bullet .pv-text-details__left-panel h1";
    ".pv-top-card--list .pv-text-details__left-panel h1";
    ".pv-top-card .pv-text-details__left-panel h1" ].

Definition headlineSelectorsOnPage : list string :=
  [ ".pv-text-details__left-panel .text-body-medium.break-words";
    ".pv-top-card--list-bullet .text-body-medium.break-words";
    ".pv-top-card .pv-text-details__left-panel .text-body-medium";
    ".pv-top-card--list .pv-text-details__left-panel .text-body-medium" ].

Definition locationSelectorsOnPage : list string :=
  [ ".pv-text-details__left-panel .text-body-small.inline.t-black--light.break-words";
    ".pv-top-card--list-bullet .text-body-small.inline.t-black--light.break-words";
    ".pv-top-card .pv-text-details__left-panel .text-body-small.inline" ].

Definition aboutSelectors : list string :=
  [ ".pv-about-section .pv-shared-text-with-see-more";
    ".pv-about__summary-text";
    "#about .pv-shared-text-with-see-more" ].

Definition experienceSelectors : list string :=
  [ ".pv-experience-section .pv-profile-section__list-item";
    "#experience .pv-profile-section__list-item" ].

Definition educationSelectors : list string :=
  [ ".pv-education-section .pv-profile-section__list-item";
    "#education .pv-profile-section__list-item" ].

Definition skillsSelectors : list string :=
  [ ".pv-skills-section .pv-skill-category-entity";
    "#skills .pv-skill-category-entity" ].

Section WithBrowser.

Context {W : Type} `{Browser W}.

(** The loop shared by [extractProfileNameFromPage],
    [extractProfileHeadlineFromPage] and [extractProfileLocation]: each
    candidate is tried inside its own [try]. *)
Fixpoint pageText (what : string) (selectors : list string) : M W (option string) :=
  match selectors with
  | [] => ret None
  | selector :: rest =>
      found <- try_catch
                 (el <- read (QueryOne selector) (queryOne selector) ;;
                  t <- lift_result (opt_textContent el) ;;
                  ret (nonblank t))
                 (fun _ =>
                    console ("❌ Error extracting " +:+ what +:+ " with selector " +:+
                             selector +:+ ":") ;;
                    ret None) ;;
      match found with
      | Some v => ret (Some v)
      | None => pageText what rest
      end
  end.

Definition extractProfileNameFromPage : M W string :=
  null <- page_is_null ;;
  if null then ret "Unknown"
  else
    found <- pageText "name" nameSelectorsOnPage ;;
    ret (default "Unknown" found).

Definition extractProfileHeadlineFromPage : M W (option string) :=
  null <- page_is_null ;;
  if null then ret None else pageText "headline" headlineSelectorsOnPage.

Definition extractProfileLocation : M W (option string) :=
  null <- page_is_null ;;
  if null then ret None else pageText "location" locationSelectorsOnPage.

(** Click the button found by [selector], if any, and wait a second. *)
Definition expand (selector : string) : M W unit :=
  button <- read (QueryOne selector) (queryOne selector) ;;
  match button with
  | Some _ =>
      call (Click selector) (click selector) ;;
      call (WaitForTimeout 1000%N) (waitForTimeout 1000%N)
  | None => ret tt
  end.

Fixpoint aboutText (selectors : list string) : M W (option string) :=
  match selectors with
  | [] => ret None
  | selector :: rest =>
      el <- read (QueryOne selector) (queryOne selector) ;;
      t <- lift_result (opt_textContent el) ;;
      match nonblank t with
      | Some v => ret (Some v)
      | None => aboutText rest
      end
  end.

Definition extractProfileAbout : M W (option string) :=
  null <- page_is_null ;;
  if null then ret None
  else try_catch
         (expand ("button" +:+ attr "aria-label" "Show more about section") ;;
          aboutText aboutSelectors)
         (fun _ => console "❌ Error extracting about section:" ;; ret None).

(** The loop over the rows of a list section: a row whose extraction
    throws is logged and left out. *)
Fixpoint collectRows {A : Type} (what : string) (item : Element -> result (option A))
  (rows : list Element) (acc : list A) : M W (list A) :=
  match rows with
  | [] => ret acc
  | row :: rest =>
      match item row with
      | Ok (Some a) => collectRows what item rest (acc ++ [a])
      | Ok None => collectRows what item rest acc
      | Throw _ =>
          console ("❌ Error extracting individual " +:+ what +:+ ":") ;;
          collectRows what item rest acc
      end
  end.

(** The loop over the candidate list selectors of a section. *)
Fixpoint sectionRows {A : Type} (what : string) (item : Element -> result (option A))
  (selectors : list string) : M W (list A) :=
  match selectors with
  | [] => ret []
  | selector :: rest =>
      rows <- read (QueryAll selector) (queryAll selector) ;;
      if (0 <? length rows)%nat then collectRows what item rows []
      else sectionRows what item rest
  end.

Definition extractProfileExperience : M W (list Experience) :=
  null <- page_is_null ;;
  if null then ret []
  else try_catch
         (expand ("button" +:+ attr_has "aria-label" "experience") ;;
          sectionRows "experience" experienceItem experienceSelectors)
         (fun _ => console "❌ Error extracting experience section:" ;; ret []).

Definition extractProfileEducation : M W (list Education) :=
  null <- page_is_null ;;
  if null then ret []
  else try_catch
         (sectionRows "education" educationItem educationSelectors)
         (fun _ => console "❌ Error extracting education section:" ;; ret []).

Definition expandSkillsSection : M W unit :=
  null <- page_is_null ;;
  if null then ret tt else expand ("button" +:+ attr_has "aria-label" "skills").

Fixpoint getSkillElements_from (selectors : list string) : M W (list Element) :=
  match selectors with
  | [] => ret []
  | selector :: rest =>
      skillElements <- read (QueryAll selector) (queryAll selector) ;;
      if (0 <? length skillElements)%nat then ret skillElements
      else getSkillElements_from rest
  end.

Definition getSkillElements : M W (list Element) :=
  null <- page_is_null ;;
  if null then ret [] else getSkillElements_from skillsSelectors.

Definition skillName (row : Element) : result (option string) :=
  (let? t := elementText row in Ok (nonblank t))%result.

Definition extractSkillNamesFromElements (skillElements : list Element) : M W (list string) :=
  collectRows "skill" skillName skillElements [].

Definition extractProfileSkills : M W (list string) :=
  null <- page_is_null ;;
  if null then ret []
  else try_catch
         (expandSkillsSection ;;
          skillElements <- getSkillElements ;;
          if (0 <? length skillElements)%nat
          then extractSkillNamesFromElements skillElements
          else ret [])
         (fun _ => console "❌ Error extracting skills section:" ;; ret []).

Definition extractProfileData (profileUrl : string) : M W LinkedInProfile :=
  null <- page_is_null ;;
  if null then throw (JsError "Page not initialized")
  else try_catch
         (name <- extractProfileNameFromPage ;;
          headline <- extractProfileHeadlineFromPage ;;
          location <- extractProfileLocation ;;
          about <- extractProfileAbout ;;
          experience <- extractProfileExperience ;;
          education <- extractProfileEducation ;;
          skills <- extractProfileSkills ;;
          ret {| fullName := name; fullHeadline := headline; fullLocation := location;
                 about := about; experience := Some experience;
                 education := Some education; skills := Some skills;
                 fullProfileUrl := profileUrl |})
         (fun _ =>
            console "❌ Error extracting profile data:" ;;
            ret {| fullName := "Unknown"; fullHeadline := None; fullLocation := None;
                   about := None; experience := None; education := None;
                   skills := None; fullProfileUrl := profileUrl |}).

Definition scrapeProfile (profileUrl : string) : M W LinkedInProfile :=
  null <- page_is_null ;;
  if null then throw not_initialized
  else try_catch
    (console ("🔍 Scraping profile: " +:+ profileUrl) ;;
     call (Goto profileUrl) (goto profileUrl) ;;
     call (WaitForTimeout 5000%N) (waitForTimeout 5000%N) ;;
     loginRequired <- read (IsVisible session_key) (isVisible session_key) ;;
     (if loginRequired then
        console "🔑 Login required, attempting automatic login..." ;;
        loginSuccess <- loginToLinkedIn ;;
        if negb loginSuccess then throw login_failed
        else
          console "🔄 Redirecting to profile after login..." ;;
          call (Goto profileUrl) (goto profileUrl) ;;
          call (WaitForTimeout 5000%N) (waitForTimeout 5000%N)
      else ret tt) ;;
     extractProfileData profileUrl)
    (fun error => console "❌ Error during profile scraping:" ;; throw error).

End WithBrowser.

End Profile.

(** * Vocabulary of the statements *)

Module Params.

Import Encoder.

(** The pair [k=v] is among the parameters. *)
Definition has (k v : string) (ps : URLSearchParams.t) : Prop := In (k, v) ps.

(** No parameter is named [k]. *)
Definition lacks (k : string) (ps : URLSearchParams.t) : Prop :=
  URLSearchParams.getAll k ps = [].

(** Exactly one parameter is named [k], and its value is [v]. *)
Definition only (k v : string) (ps : URLSearchParams.t) : Prop :=
  URLSearchParams.getAll k ps = [v].

(** The parameters read back from the search URL of [f]. *)
Definition of_filters (f : SearchFilters) : URLSearchParams.t :=
  URLSearchParams.of_url (buildSearchUrl f).

(** The keywords value after a free-text location has been merged in. *)
Definition merged_keywords (f : SearchFilters) : string :=
  match JS.truthy (keywords f) with
  | Some k => k +:+ " " +:+ effective_location f
  | None => effective_location f
  end.

(** The codes the [switch] of [addNetworkToParams] accepts. *)
Definition valid_network (given : string) : bool :=
  match networkValue (JS.toUpperCase given) with
  | Some _ => true
  | None => false
  end.

Definition without_network (f : SearchFilters) : SearchFilters :=
  {| keywords := keywords f; location := location f; network := None |}.

Definition keywords_part (f : SearchFilters) : URLSearchParams.t :=
  match JS.truthy (keywords f) with
  | Some k => [("keywords", k)]
  | None => []
  end.

Definition location_part (f : SearchFilters) : URLSearchParams.t :=
  if JS.digits_only (effective_location f)
  then keywords_part f ++ [("origin", "FACETED_SEARCH"); ("geoUrn", bracketed (effective_location f))]
  else [("keywords", merged_keywords f)].

Definition network_part (f : SearchFilters) : URLSearchParams.t :=
  match JS.truthy (network f) with
  | Some given =>
      match networkValue (JS.toUpperCase given) with
      | Some v => [("origin", "FACETED_SEARCH"); ("network", bracketed v)]
      | None => []
      end
  | None => []
  end.

(** The filters of the scenario "network degree: first", as a filter
    object and as tool arguments. *)
Definition first_degree_filters : SearchFilters :=
  {| keywords := None; location := None; network := Some "first" |}.

Definition first_degree_args : gmap string string := {[ "networkDegree" := "first" ]}.

Definition text_location_filters : SearchFilters :=
  {| keywords := Some "engineer"; location := Some "San Francisco"; network := None |}.

Definition faceted_filters : SearchFilters :=
  {| keywords := Some "engineer"; location := Some "105646813"; network := Some "s" |}.

Definition bogus_network_filters : SearchFilters :=
  {| keywords := Some "engineer"; location := None; network := Some "X" |}.

Definition empty_location_filters : SearchFilters :=
  {| keywords := Some "engineer"; location := Some EmptyString; network := None |}.

Definition empty_network_filters : SearchFilters :=
  {| keywords := Some "engineer"; location := None; network := Some EmptyString |}.

End Params.

Module Trace.

(** The addresses navigated to, in order. *)
Definition goto_target (ev : Event) : option string :=
  match ev with Goto u => Some u | _ => None end.

Definition gotos (tr : list Event) : list string := omap goto_target tr.

(** The selectors passed to [$$], in order. *)
Definition queryAll_selector (ev : Event) : option string :=
  match ev with QueryAll sel => Some sel | _ => None end.

Definition row_queries (tr : list Event) : list string := omap queryAll_selector tr.

(** The calls made by the extraction step. *)
Definition is_extraction (ev : Event) : bool :=
  match ev with
  | WaitForSelector _ _ | QueryAll _ | Title => true
  | _ => false
  end.

Definition is_goto (ev : Event) : bool :=
  match ev with Goto _ => true | _ => false end.

(** Every event of a computation, from any state, passes the test. *)
Definition emits_only {W A : Type} (allowed : Event -> bool) (m : M W A) : Prop :=
  forall s, forallb allowed (events (m s)) = true.

(** A computation that leaves [created] and [ready] as they are. *)
Definition keeps_flags {W A : Type} (m : M W A) : Prop :=
  forall s, created (final (m s)) = created s /\ ready (final (m s)) = ready s.

(** Every value the computation returns satisfies [P]. *)
Definition returns {W A : Type} (m : M W A) (P : A -> Prop) : Prop :=
  forall s a, outcome (m s) = Ok a -> P a.

(** A computation that never throws. *)
Definition total {W A : Type} (m : M W A) : Prop :=
  forall s, exists a, outcome (m s) = Ok a.



End Trace.

Module Rows.

Import Extract.

(** What one candidate of [extractProfileUrl] reads: the [href] of the
    first descendant the selector finds. *)
Definition link_href (row : Element) (selector : string) : result (option string) :=
  (let? link := query row selector in opt_getAttribute link "href")%result.

(** What one candidate of [extractProfileName] (or of
    [extractProfileHeadline]) yields: the trimmed text when the selector
    finds a node whose text is not blank. *)
Definition text_match (row : Element) (selector : string) : result (option string) :=
  (let? el := query row selector in
   match el with
   | Some h =>
       let? t := text_or_empty h in
       if JS.is_empty (JS.trim t) then Ok None else Ok (Some (JS.trim t))
   | None => Ok None
   end)%result.

(** A profile URL as [cleanProfileUrl] leaves it. *)
Definition normalized (u : string) : Prop :=
  exists href,
    JS.includes "/in/" href = true /\
    u = cleanProfileUrl href /\
    u = (if JS.startsWith "http" (JS.split_head "?" href)
         then JS.split_head "?" href
         else "https://www.linkedin.com" +:+ JS.split_head "?" href) /\
    JS.has_char "?" u = false /\
    JS.startsWith "http" u = true.

(** The records the row loop keeps, [i] being the index of the first
    row. *)
Fixpoint kept_records (rows : list Element) (i : nat) : list LinkedInProfileLink :=
  match rows with
  | [] => []
  | row :: rest =>
      match (extractSingleProfile row i).1 with
      | Some p => p :: kept_records rest (S i)
      | None => kept_records rest (S i)
      end
  end.

End Rows.

Module Pages.


End Pages.

Module Items.









End Items.

Module Urls.

(** An absolute web address: it starts with the scheme and "://". *)
Definition absolute (u : string) : bool :=
  JS.startsWith "http://" u || JS.startsWith "https://" u.

End Urls.

Module Links.

Import Extract Rows.



End Links.

(** ** A small simulated site, for concrete runs *)

Module Demo.

Import Extract Scraper.

Definition feedUrl : string := "https://www.linkedin.com/feed/".

Definition anchor (href text : string) : Handle :=
  {| getAttribute := fun a => if String.eqb a "href" then Ok (Some href) else Ok None;
     textContent := Ok (Some text) |}.

Definition text_node (text : string) : Handle :=
  {| getAttribute := fun _ => Ok None; textContent := Ok (Some text) |}.

(** A row with a relative tracked link, a name under the third name
    selector and no headline. *)
Definition jane : Element :=
  {| query := fun sel =>
       if String.eqb sel ("a" +:+ attr_has "href" "/in/")
       then Ok (Some (anchor "/in/jane-doe?miniProfileUrn=urn%3Ali" "View profile"))
       else if String.eqb sel ".actor-name" then Ok (Some (text_node "  Jane Doe "))
       else Ok None;
     elementText := Ok (Some "Jane Doe") |}.


(** A row whose only link leaves the site's profile path. *)
Definition advert : Element :=
  {| query := fun sel =>
       if String.eqb sel ".search-result__result-link"
       then Ok (Some (anchor "/company/acme" "Acme"))
       else Ok None;
     elementText := Ok (Some "Acme") |}.

Record Site : Type := mkSite {
  authenticated : bool;
  address : string;
  accepts : bool;
  shown : list Element
}.

Definition visit (u : string) (w : Site) : Site :=
  {| authenticated := authenticated w;
     address := if authenticated w && String.eqb u loginUrl then feedUrl else u;
     accepts := accepts w;
     shown := shown w |}.

Definition submit (w : Site) : Site :=
  if accepts w
  then {| authenticated := true; address := feedUrl; accepts := true; shown := shown w |}
  else w.

Definition timeout : exn := JsError "Timeout 15000ms exceeded.".

#[export] Instance site_browser : Browser Site := {|
  loadConfig := fun _ => Ok tt;
  launch := fun w => (Ok tt, w);
  setExtraHTTPHeaders := fun w => (Ok tt, w);
  restoreCookies := fun w => (Ok false, w);
  persistCookies := fun w => (Ok tt, w);
  goto := fun u w => (Ok tt, visit u w);
  waitForTimeout := fun _ w => (Ok tt, w);
  url := address;
  title := fun _ => Ok "Search | LinkedIn";
  isVisible := fun sel w => Ok (negb (authenticated w) && String.eqb sel session_key);
  waitFor := fun _ w => (Ok tt, w);
  fill := fun _ w => (Ok tt, w);
  click := fun sel w => (Ok tt, if String.eqb sel submit_button then submit w else w);
  waitForSelector := fun sel w =>
    (if authenticated w && String.eqb sel ".search-results-container"
     then Ok tt else Throw timeout, w);
  queryAll := fun sel w =>
    Ok (if authenticated w && String.eqb sel ".entity-result" then shown w else []);
  queryOne := fun _ _ => Ok None
|}.

(** An initialised scraper in front of an expired session. *)
Definition walled (accepts : bool) (rows : list Element) : State Site :=
  mkState true true
    {| authenticated := false; address := "about:blank"; accepts := accepts; shown := rows |}.

(** An initialised scraper with a live session. *)
Definition live (rows : list Element) : State Site :=
  mkState true true
    {| authenticated := true; address := "about:blank"; accepts := true; shown := rows |}.



End Demo.

(** * Further parts of the program *)

(** ** Command-line variant: the argument parser *)

Module Cli.

(** [Boolean(nextArg && !nextArg.startsWith('-'))] *)
Definition isValidNextArg (nextArg : option string) : bool :=
  match JS.truthy nextArg with
  | Some a => negb (JS.startsWith "-" a)
  | None => false
  end.

Inductive Field : Type := Keywords | Location | Network.

(** [(filters as any)[field] = value] *)
Definition assign (field : Field) (value : string) (filters : SearchFilters) : SearchFilters :=
  match field with
  | Keywords => {| keywords := Some value; location := location filters;
                   network := network filters |}
  | Location => {| keywords := keywords filters; location := Some value;
                   network := network filters |}
  | Network => {| keywords := keywords filters; location := location filters;
                  network := Some value |}
  end.

(** What [process] does: it returns whether it consumed the next argument,
    having possibly written a field, or it ends the process
    ([process.exit(0)] after the help text). *)
Inductive Step : Type :=
| Next (filters : SearchFilters) (consumedNextArg : bool)
| Exit.

Record ArgumentHandler : Type := mkHandler {
  handles : list string;
  process : SearchFilters -> option string -> Step
}.

Definition createStringArgumentHandler (field : Field) (aliases : list string)
  : ArgumentHandler :=
  {| handles := aliases;
     process := fun filters nextArg =>
       match nextArg with
       | Some value =>
           if isValidNextArg nextArg then Next (assign field value filters) true
           else Next filters false
       | None => Next filters false
       end |}.

Definition createHelpArgumentHandler : ArgumentHandler :=
  {| handles := ["--help"; "-h"];
     process := fun _ _ => Exit |}.

Definition createArgumentHandlers : list ArgumentHandler :=
  [ createStringArgumentHandler Keywords ["--keywords"; "-k"];
    createStringArgumentHandler Location ["--location"; "-l"];
    createStringArgumentHandler Network ["--network"; "-n"];
    createHelpArgumentHandler ].

(** [handlers.find(handler => handler.handles.includes(arg))] *)
Definition findArgumentHandler (arg : string) (handlers : list ArgumentHandler)
  : option ArgumentHandler :=
  List.find (fun handler => existsb (String.eqb arg) (handles handler)) handlers.

Definition handleBackwardCompatibility (filters : SearchFilters) (arg : string) (index : nat)
  : SearchFilters :=
  if (index =? 0)%nat && negb (JS.startsWith "-" arg)
  then assign Keywords arg filters
  else filters.

(** The outcome of the parse: the filters, or the exit of the help option. *)
Inductive Parse : Type :=
| Parsed (filters : SearchFilters)
| HelpExit.

(** The [while] loop of [parseArguments]: [args] is what is left from index
    [i] on. *)
Fixpoint parse_from (i : nat) (args : list string) (filters : SearchFilters) : Parse :=
  match args with
  | [] => Parsed filters
  | arg :: rest =>
      let nextArg := head rest in
      match findArgumentHandler arg createArgumentHandlers with
      | Some handler =>
          match process handler filters nextArg with
          | Next filters' true =>
              match rest with
              | _ :: rest' => parse_from (i + 2) rest' filters'
              | [] => Parsed filters'
              end
          | Next filters' false => parse_from (i + 1) rest filters'
          | Exit => HelpExit
          end
      | None => parse_from (i + 1) rest (handleBackwardCompatibility filters arg i)
      end
  end.

Definition no_filters : SearchFilters :=
  {| keywords := None; location := None; network := None |}.

(** [parseArguments], as a function of [process.argv.slice(2)]. *)
Definition parseArguments (args : list string) : Parse := parse_from 0 args no_filters.

(** [Object.keys(filters).length === 0] *)
Definition is_empty_object (filters : SearchFilters) : bool :=
  match keywords filters, location filters, network filters with
  | None, None, None => true
  | _, _, _ => false
  end.

(** A value the string options accept. *)
Definition accepted (v : string) : Prop :=
  v <> EmptyString /\ JS.startsWith "-" v = false.

(** The field an option writes, for the six spellings of the string
    options. *)
Definition option_field (flag : string) : option Field :=
  if String.eqb flag "--keywords" || String.eqb flag "-k" then Some Keywords
  else if String.eqb flag "--location" || String.eqb flag "-l" then Some Location
  else if String.eqb flag "--network" || String.eqb flag "-n" then Some Network
  else None.

Definition is_help (arg : string) : bool :=
  String.eqb arg "--help" || String.eqb arg "-h".

(** The command line that spells the filters out with the long options. *)
Definition render (f : SearchFilters) : list string :=
  match keywords f with Some k => ["--keywords"; k] | None => [] end ++
  match location f with Some l => ["--location"; l] | None => [] end ++
  match network f with Some n => ["--network"; n] | None => [] end.

Definition field_ok (o : option string) : Prop :=
  match o with Some v => accepted v | None => True end.

(** The invariant of the loop: what a field holds was accepted as a value,
    except that the bare first argument may be empty. *)
Definition parsed_ok (f : SearchFilters) : Prop :=
  (forall k, keywords f = Some k -> JS.startsWith "-" k = false) /\
  (forall l, location f = Some l -> accepted l) /\
  (forall n, network f = Some n -> accepted n).

End Cli.

(** ** Vocabulary of the further properties *)

Module Session.

Import Scraper.

Section WithBrowser.

Context {W : Type} `{Browser W}.

(** The login form has been reached, filled in and submitted without an
    exception: [w0] is the browser when the login starts, [w] the browser
    after the wait that follows the click. *)
Definition submitted (w0 w : W) : Prop :=
  exists w1 w2 w3 w4 w5 w6 w7,
    goto loginUrl w0 = (Ok tt, w1) /\
    waitForTimeout 3000%N w1 = (Ok tt, w2) /\
    signed_in (url w2) = false /\
    waitFor session_key w2 = (Ok tt, w3) /\
    waitFor session_password w3 = (Ok tt, w4) /\
    fill session_key w4 = (Ok tt, w5) /\
    fill session_password w5 = (Ok tt, w6) /\
    click submit_button w6 = (Ok tt, w7) /\
    waitForTimeout 5000%N w7 = (Ok tt, w).

(** Every candidate of the list is waited for in vain, one after the
    other: [waitForSelector] throws for each; [w] is the browser before the
    first wait and [w'] the browser after the last. *)
Inductive time_out : list string -> W -> W -> Prop :=
| time_out_nil (w : W) : time_out [] w w
| time_out_cons (sel : string) (rest : list string) (e : exn) (w w1 w2 : W) :
    waitForSelector sel w = (Throw e, w1) ->
    time_out rest w1 w2 ->
    time_out (sel :: rest) w w2.

End WithBrowser.

(** The selectors waited for, in order. *)
Definition wait_selector (ev : Event) : option string :=
  match ev with WaitForSelector sel _ => Some sel | _ => None end.

Definition waits (tr : list Event) : list string := omap wait_selector tr.

(** The console lines of a tool call that fails before it reaches the
    browser. *)
Definition refused_search : list Event :=
  [ Console "🚀 Starting LinkedIn People Search...";
    Console "📝 Search Filters:";
    Console "❌ LinkedIn search error:" ].

End Session.

Module Records.

(** A record with no blank field: a name and a URL that are not empty, and
    a headline that is absent or not empty. *)
Definition well_formed (p : LinkedInProfileLink) : Prop :=
  name p <> EmptyString /\ profileUrl p <> EmptyString /\ headline p <> Some EmptyString.

End Records.

(** ** What the profile-scraping variant reads of its host

    [loadConfig] of that variant looks at the process environment before
    the configuration file.  [getenv] is [process.env]; [readConfigEmail]
    is what the [try] block reads of the file ([fs.readFileSync],
    [JSON.parse] and [config.linkedin.email] together): the e-mail address
    of the parsed file, or the text [`${error}`] of what one of the three
    throws. *)

Class Host (W : Type) : Type := {
  getenv : string -> W -> option string;
  readConfigEmail : W -> string + string
}.

(** ** A browser that can be made to fail *)

Module Outage.

Import Scraper.

Record Page : Type := mkPage {
  credentials : bool;
  configured : bool;
  starts : bool;
  online : bool;
  after_submit : string;
  address : string
}.

Definition moved (u : string) (w : Page) : Page :=
  {| credentials := credentials w; configured := configured w; starts := starts w;
     online := online w; after_submit := after_submit w; address := u |}.

Definition no_config : exn :=
  JsError "Error loading configuration: Error: ENOENT. Please make sure config.json exists and is properly formatted".
Definition no_browser : exn := JsError "browserType.launch: Executable not found".
Definition no_network : exn := JsError "page.goto: net::ERR_INTERNET_DISCONNECTED".
Definition no_results : exn := JsError "Timeout 15000ms exceeded.".

#[export] Instance outage_browser : Browser Page := {|
  loadConfig := fun w => if configured w then Ok tt else Throw no_config;
  launch := fun w => (if starts w then Ok tt else Throw no_browser, w);
  setExtraHTTPHeaders := fun w => (Ok tt, w);
  restoreCookies := fun w => (Ok false, w);
  persistCookies := fun w => (Ok tt, w);
  goto := fun u w => if online w then (Ok tt, moved u w) else (Throw no_network, w);
  waitForTimeout := fun _ w => (Ok tt, w);
  url := address;
  title := fun _ => Ok "LinkedIn";
  isVisible := fun sel _ => Ok (String.eqb sel session_key);
  waitFor := fun _ w => (Ok tt, w);
  fill := fun _ w => (Ok tt, w);
  click := fun sel w =>
    (Ok tt, if String.eqb sel submit_button then moved (after_submit w) w else w);
  waitForSelector := fun _ w => (Throw no_results, w);
  queryAll := fun _ _ => Ok [];
  queryOne := fun _ _ => Ok None
|}.

#[export] Instance outage_host : Host Page := {|
  getenv := fun name w =>
    if credentials w then
      if String.eqb name "LINKEDIN_EMAIL" then Some "ann@example.org"
      else if String.eqb name "LINKEDIN_PASSWORD" then Some "secret"
      else None
    else None;
  readConfigEmail := fun w =>
    if configured w then inl "ann@example.org"
    else inr "Error: ENOENT: no such file or directory, open config.json"
|}.

(** A machine on which the browser does not start. *)
Definition broken : State Page :=
  mkState false false
    {| credentials := false; configured := true; starts := false; online := true;
       after_submit := "https://www.linkedin.com/feed/"; address := "about:blank" |}.

(** A machine without a configuration file. *)
Definition unconfigured : State Page :=
  mkState false false
    {| credentials := false; configured := false; starts := true; online := true;
       after_submit := "https://www.linkedin.com/feed/"; address := "about:blank" |}.

(** An initialised scraper without network. *)
Definition offline : State Page :=
  mkState true true
    {| credentials := false; configured := true; starts := true; online := false;
       after_submit := "https://www.linkedin.com/feed/"; address := "about:blank" |}.

(** An initialised scraper whose login ends on the given address. *)
Definition landing (u : string) : State Page :=
  mkState true true
    {| credentials := false; configured := true; starts := true; online := true;
       after_submit := u; address := "about:blank" |}.

(** A container: no configuration file, the two credential variables
    set. *)
Definition container : State Page :=
  mkState false false
    {| credentials := true; configured := false; starts := true; online := true;
       after_submit := "https://www.linkedin.com/feed/"; address := "about:blank" |}.

Definition challengeUrl : string :=
  "https://www.linkedin.com/checkpoint/challenge/in/AgE1".

Definition detached : exn := JsError "elementHandle.$: Element is not attached to the DOM".

(** A row whose first link candidate throws and whose second finds a
    profile link. *)
Definition flaky : Element :=
  {| query := fun sel =>
       if String.eqb sel ("a" +:+ Extract.attr_has "href" "/in/") then Throw detached
       else if String.eqb sel (".app-aware-link" +:+ Extract.attr_has "href" "/in/")
       then Ok (Some (Demo.anchor "/in/ann-lee?trk=people" "Ann Lee"))
       else Ok None;
     elementText := Ok None |}.

(** A row with a profile link whose other queries throw. *)
Definition torn : Element :=
  {| query := fun sel =>
       if String.eqb sel ("a" +:+ Extract.attr_has "href" "/in/")
       then Ok (Some (Demo.anchor "/in/bob" "Bob"))
       else Throw detached;
     elementText := Ok None |}.



(** A row whose first name candidate throws and whose third finds the
    name. *)
Definition stale_name : Element :=
  {| query := fun sel =>
       if String.eqb sel (".entity-result__title-text a span" +:+
                          Extract.attr "aria-hidden" "true")
       then Throw detached
       else if String.eqb sel ".actor-name" then Ok (Some (Demo.text_node "Jane Doe"))
       else Ok None;
     elementText := Ok None |}.

(** A row whose link has a relative [href] that begins with the letters
    "http". *)
Definition hyphen : Element :=
  {| query := fun sel =>
       if String.eqb sel ("a" +:+ Extract.attr_has "href" "/in/")
       then Ok (Some (Demo.anchor "http-people/in/jane?trk=1" "Jane"))
       else if String.eqb sel ".actor-name" then Ok (Some (Demo.text_node "Jane"))
       else Ok None;
     elementText := Ok None |}.

Definition hyphen_record : LinkedInProfileLink :=
  {| name := "Jane"; profileUrl := "http-people/in/jane"; headline := None |}.



End Outage.

(** ** The rows of a profile section *)

Module Sections.

(** The items the loop over the rows of a section keeps: those of the rows
    whose extraction returns an item, in order. *)
Definition kept_items {A : Type} (item : Element -> result (option A))
  (rows : list Element) : list A :=
  omap (fun row => match item row with Ok (Some a) => Some a | _ => None end) rows.

(** The rows whose extraction throws. *)
Definition failed_rows {A : Type} (item : Element -> result (option A))
  (rows : list Element) : list Element :=
  List.filter (fun row => negb (is_ok (item row))) rows.

Definition row_error (what : string) : Event :=
  Console ("❌ Error extracting individual " +:+ what +:+ ":").

End Sections.

(** ** The tool handler of the profile-scraping variant

    The class of this variant is that of [src/index.ts] with [loadConfig]
    changed and the profile functions added: [init], [searchPeople] and
    what they call are the same text, and are the definitions above.  The
    constructor, [initializeScraper] and the two branches of the handler
    are defined here over this variant's [loadConfig].  The values of the
    configuration are part of [W], as for [src/index.ts]; the two handlers
    are compared below where they take them from the same place. *)

Inductive ToolResponse : Type :=
| SearchResult (response : SearchResponse)
| ProfileResult (success : bool) (profile : Profile.LinkedInProfile).

Module Server.

Import Encoder Extract Scraper Profile.
Local Open Scope scraper_scope.

Definition profileUrl_required : exn :=
  McpError InvalidParams "profileUrl is required for scrape-linkedin-profile tool".

Definition template_email : string := "your-email@example.com".

Definition update_config : string :=
  "Error: Please update config.json with your LinkedIn credentials".

(** The message of the error [loadConfig] throws, around the text of what
    its [try] block threw. *)
Definition configuration_error (text : string) : exn :=
  JsError ("Error loading configuration: " +:+ text +:+
           ". Please make sure config.json exists and is properly formatted, " +:+
           "or set LINKEDIN_EMAIL and LINKEDIN_PASSWORD environment variables").

Section WithBrowser.

Context {W : Type} `{Browser W} `{Host W}.

(** [loadConfig] of this variant: the two environment variables first,
    the configuration file otherwise. *)
Definition loadConfig (w : W) : result unit :=
  match JS.truthy (getenv "LINKEDIN_EMAIL" w), JS.truthy (getenv "LINKEDIN_PASSWORD" w) with
  | Some _, Some _ => Ok tt
  | _, _ =>
      match readConfigEmail w with
      | inl email =>
          if String.eqb email template_email
          then Throw (configuration_error update_config)
          else Ok tt
      | inr text => Throw (configuration_error text)
      end
  end.

(** [new LinkedInPeopleSearchScraper()] *)
Definition construct : M W unit := fun s => (loadConfig (world s), s, []).

Definition initializeScraper : M W unit :=
  exists_ <- is_created ;;
  if exists_ then ret tt
  else construct ;; set_created ;; init.

(** The "search-linkedin-people" branch. *)
Definition search_tool (args : gmap string string) : M W SearchResponse :=
  let filters := filters_of_args args in
  console "🚀 Starting LinkedIn People Search..." ;;
  console "📝 Search Filters:" ;;
  try_catch
    (initializeScraper ;;
     profiles <- searchPeople filters ;;
     ret {| success := true; count := length profiles;
            profiles := profiles; filters := filters |})
    (fun error =>
       console "❌ LinkedIn search error:" ;;
       throw (McpError InternalError ("LinkedIn search failed: " +:+ exn_message error))).

(** The "scrape-linkedin-profile" branch. *)
Definition profile_tool (args : gmap string string) : M W ToolResponse :=
  match JS.truthy (args !! "profileUrl") with
  | None => throw profileUrl_required
  | Some profileUrl =>
      console "🚀 Starting LinkedIn Profile Scrape..." ;;
      console "📝 Profile URL:" ;;
      try_catch
        (initializeScraper ;;
         profile <- scrapeProfile profileUrl ;;
         ret (ProfileResult true profile))
        (fun error =>
           console "❌ LinkedIn profile scrape error:" ;;
           throw (McpError InternalError
                    ("LinkedIn profile scraping failed: " +:+ exn_message error)))
  end.

(** The handler of [CallToolRequestSchema] with its two tools. *)
Definition callTool (tool : string) (args : gmap string string) : M W ToolResponse :=
  try_catch
    (if String.eqb tool "search-linkedin-people" then
       response <- search_tool args ;;
       ret (SearchResult response)
     else if String.eqb tool "scrape-linkedin-profile" then profile_tool args
     else throw (McpError MethodNotFound ("Unknown tool: " +:+ tool)))
    (fun error =>
       match error with
       | McpError _ _ => throw error
       | JsError m => throw (McpError InternalError ("Tool execution failed: Error: " +:+ m))
       end).

End WithBrowser.

End Server.

(** ** The row extractor of the variant with guarded candidates

    In this variant of the file each candidate of [extractProfileUrl] and
    of [extractProfileName] runs inside its own [try]: a candidate that
    throws is logged and the loop goes on.  The functions return their
    value with the console lines written. *)

Module Hardened.

Import Extract.
Local Open Scope result_scope.

Definition linkSelectors : list string :=
  [ "a" +:+ attr_has "href" "/in/";
    ".app-aware-link" +:+ attr_has "href" "/in/";
    ".search-result__result-link";
    attr "data-control-name" "search_srp_result";
    ".entity-result__title-text a";
    "a" +:+ attr "data-control-name" "search_srp_result";
    ".entity-result__title-text .app-aware-link";
    "span" +:+ attr "dir" "ltr" +:+ " a" +:+ attr_has "href" "/in/" ].

Definition nameSelectors : list string :=
  [ ".entity-result__title-text a span" +:+ attr "aria-hidden" "true";
    ".search-result__result-link span" +:+ attr "aria-hidden" "true";
    ".actor-name";
    ".search-result__result-link";
    ".entity-result__title-text .app-aware-link span" +:+ attr "aria-hidden" "true";
    ".entity-result__title-text span" +:+ attr "dir" "ltr" +:+ " span" +:+
      attr "aria-hidden" "true";
    "span" +:+ attr "dir" "ltr" +:+ " > span" +:+ attr "aria-hidden" "true";
    ".entity-result__title-text a";
    ".entity-result__title-text" ].

Definition selector_error (selector : string) : string :=
  "❌ Error with selector " +:+ selector +:+ ":".

Definition name_selector_error (selector : string) : string :=
  "❌ Error with name selector " +:+ selector +:+ ":".

(** The body of the [try] of one link candidate: the cleaned [href] when
    the candidate finds a profile link. *)
Definition link_candidate (profileElement : Element) (linkSelector : string)
  : result (option string) :=
  let? profileLink := query profileElement linkSelector in
  let? href := opt_getAttribute profileLink "href" in
  match href with
  | Some h => if JS.includes "/in/" h then Ok (Some (cleanProfileUrl h)) else Ok None
  | None => Ok None
  end.

Fixpoint extractProfileUrl_from (selectors : list string) (profileElement : Element)
  : option string * list string :=
  match selectors with
  | [] => (None, [])
  | linkSelector :: rest =>
      match link_candidate profileElement linkSelector with
      | Ok (Some u) => (Some u, [])
      | Ok None => extractProfileUrl_from rest profileElement
      | Throw _ =>
          let '(r, lines) := extractProfileUrl_from rest profileElement in
          (r, selector_error linkSelector :: lines)
      end
  end.

Definition extractProfileUrl : Element -> option string * list string :=
  extractProfileUrl_from linkSelectors.

(** A candidate whose [try] ends in its [catch]. *)
Definition link_failed (profileElement : Element) (linkSelector : string) : bool :=
  negb (is_ok (link_candidate profileElement linkSelector)).

(** The body of the [try] of one name candidate. *)
Definition name_candidate (profileElement : Element) (nameSelector : string)
  : result (option string) :=
  let? nameElement := query profileElement nameSelector in
  match nameElement with
  | Some h =>
      let? name := text_or_empty h in
      if JS.is_empty (JS.trim name) then Ok None else Ok (Some (JS.trim name))
  | None => Ok None
  end.

Fixpoint extractProfileName_from (selectors : list string) (profileElement : Element)
  (index : nat) : string * list string :=
  match selectors with
  | [] => (placeholder_name index, [])
  | nameSelector :: rest =>
      match name_candidate profileElement nameSelector with
      | Ok (Some n) => (n, [])
      | Ok None => extractProfileName_from rest profileElement index
      | Throw _ =>
          let '(r, lines) := extractProfileName_from rest profileElement index in
          (r, name_selector_error nameSelector :: lines)
      end
  end.

Definition extractProfileName : Element -> nat -> string * list string :=
  extractProfileName_from nameSelectors.

(** [extractSingleProfile] of the variant: only the headline can still
    reach its [catch]. *)
Definition extractSingleProfile (profileElement : Element) (index : nat)
  : option LinkedInProfileLink * list string :=
  let '(profileUrl, urlLines) := extractProfileUrl profileElement in
  match JS.truthy profileUrl with
  | None => (None, urlLines ++ [no_url_message index])
  | Some profileUrl =>
      let '(name, nameLines) := extractProfileName profileElement index in
      match extractProfileHeadline profileElement with
      | Ok headline =>
          (Some {| name := name; profileUrl := profileUrl; headline := JS.truthy headline |},
           urlLines ++ nameLines)
      | Throw _ => (None, urlLines ++ nameLines ++ [error_message index])
      end
  end.

End Hardened.

(** * Facts *)

#[local] Arguments String.append !_ _ / : simpl nomatch.

(** ** Strings *)

Section StringFacts.

Lemma has_char_append (c : ascii) (a b : string) :
  JS.has_char c (a +:+ b) = JS.has_char c a || JS.has_char c b.
Proof.
  induction a as [|x a IH]; simpl; [reflexivity |].
  rewrite IH. now rewrite orb_assoc.
Qed.

Lemma split_head_absent (c : ascii) (s : string) :
  JS.has_char c s = false -> JS.split_head c s = s.
Proof.
  induction s as [|a s IH]; simpl; [reflexivity |].
  intros Hc. apply orb_false_iff in Hc as [Ha Hs].
  rewrite Ha. now rewrite IH.
Qed.

Lemma split_head_append (c : ascii) (a b : string) :
  JS.has_char c a = false -> JS.split_head c (a +:+ String c b) = a.
Proof.
  induction a as [|x a IH]; simpl.
  - intros _. now rewrite Ascii.eqb_refl.
  - intros Hc. apply orb_false_iff in Hc as [Hx Ha].
    rewrite Hx. now rewrite IH.
Qed.

Lemma split_head_has_no (c : ascii) (s : string) :
  JS.has_char c (JS.split_head c s) = false.
Proof.
  induction s as [|a s IH]; simpl; [reflexivity |].
  destruct (Ascii.eqb a c) eqn:E; simpl; [reflexivity |].
  now rewrite E, IH.
Qed.

Lemma startsWith_append (p s : string) : JS.startsWith p (p +:+ s) = true.
Proof.
  induction p as [|a p IH]; simpl; [reflexivity |].
  now rewrite Ascii.eqb_refl.
Qed.

Lemma startsWith_prefix (p s : string) :
  JS.startsWith p s = true <-> exists r, s = p +:+ r.
Proof.
  split.
  - revert s. induction p as [|a p IH]; intros s Hs; simpl in *.
    + now exists s.
    + destruct s as [|b s]; [discriminate |].
      destruct (Ascii.eqb a b) eqn:E; [| discriminate].
      apply Ascii.eqb_eq in E as ->.
      destruct (IH _ Hs) as [r ->]. now exists r.
  - intros [r ->]. apply startsWith_append.
Qed.

Lemma truthy_Some (o : option string) (s : string) :
  JS.truthy o = Some s <-> o = Some s /\ s <> EmptyString.
Proof.
  unfold JS.truthy. destruct o as [x|]; [| split; [discriminate | intros [? _]; discriminate]].
  destruct x; simpl; split.
  - discriminate.
  - intros [[= <-] Hne]. now contradiction Hne.
  - intros [= <-]. split; [reflexivity | discriminate].
  - now intros [[= <-] _].
Qed.

End StringFacts.

(** ** The serialiser and the parser of [URLSearchParams] are inverse *)

Section UrlFacts.

Import URLSearchParams.

Ltac each_byte c := destruct c as [[] [] [] [] [] [] [] []].

Lemma decode_encode_byte (c : ascii) (r : string) :
  decode (encode_byte c +:+ r) = String c (decode r).
Proof. each_byte c; reflexivity. Qed.

Lemma decode_encode (s : string) : decode (encode s) = s.
Proof.
  induction s as [|c s IH]; simpl; [reflexivity |].
  now rewrite decode_encode_byte, IH.
Qed.

Lemma encode_byte_no_amp (c : ascii) : JS.has_char "&" (encode_byte c) = false.
Proof. each_byte c; reflexivity. Qed.

Lemma encode_byte_no_eq (c : ascii) : JS.has_char "=" (encode_byte c) = false.
Proof. each_byte c; reflexivity. Qed.

Lemma encode_byte_no_hash (c : ascii) : JS.has_char "#" (encode_byte c) = false.
Proof. each_byte c; reflexivity. Qed.

Lemma encode_no_amp (s : string) : JS.has_char "&" (encode s) = false.
Proof.
  induction s as [|c s IH]; simpl; [reflexivity |].
  now rewrite has_char_append, encode_byte_no_amp, IH.
Qed.

Lemma encode_no_eq (s : string) : JS.has_char "=" (encode s) = false.
Proof.
  induction s as [|c s IH]; simpl; [reflexivity |].
  now rewrite has_char_append, encode_byte_no_eq, IH.
Qed.

Lemma encode_no_hash (s : string) : JS.has_char "#" (encode s) = false.
Proof.
  induction s as [|c s IH]; simpl; [reflexivity |].
  now rewrite has_char_append, encode_byte_no_hash, IH.
Qed.

Lemma encode_pair_no_amp (kv : string * string) : JS.has_char "&" (encode_pair kv) = false.
Proof.
  unfold encode_pair. rewrite !has_char_append, !encode_no_amp. reflexivity.
Qed.

Lemma encode_pair_no_hash (kv : string * string) : JS.has_char "#" (encode_pair kv) = false.
Proof.
  unfold encode_pair. rewrite !has_char_append, !encode_no_hash. reflexivity.
Qed.

Lemma encode_pair_nonempty (kv : string * string) : JS.is_empty (encode_pair kv) = false.
Proof.
  unfold encode_pair. destruct (encode kv.1); reflexivity.
Qed.

Lemma after_first_append (c : ascii) (a b : string) :
  JS.has_char c a = false -> after_first c (a +:+ String c b) = b.
Proof.
  induction a as [|x a IH]; simpl.
  - intros _. now rewrite Ascii.eqb_refl.
  - intros Hc. apply orb_false_iff in Hc as [Hx Ha].
    rewrite Hx. now apply IH.
Qed.

Lemma parse_encode_pair (kv : string * string) : parse_pair (encode_pair kv) = kv.
Proof.
  destruct kv as [k v]. unfold parse_pair, encode_pair; simpl.
  rewrite split_head_append by apply encode_no_eq.
  rewrite after_first_append by apply encode_no_eq.
  now rewrite !decode_encode.
Qed.

Lemma split_on_absent (c : ascii) (s : string) :
  JS.has_char c s = false -> split_on c s = [s].
Proof.
  induction s as [|a s IH]; simpl; [reflexivity |].
  intros Hc. apply orb_false_iff in Hc as [Ha Hs].
  rewrite Ha, IH by assumption. reflexivity.
Qed.

Lemma split_on_append (c : ascii) (a b : string) :
  JS.has_char c a = false -> split_on c (a +:+ String c b) = a :: split_on c b.
Proof.
  induction a as [|x a IH]; simpl.
  - intros _. now rewrite Ascii.eqb_refl.
  - intros Hc. apply orb_false_iff in Hc as [Hx Ha].
    rewrite Hx, IH by assumption. reflexivity.
Qed.

Lemma parse_toString (ps : URLSearchParams.t) : parse (toString ps) = ps.
Proof.
  unfold parse, toString.
  induction ps as [|kv ps IH]; [reflexivity |].
  destruct ps as [|kv' ps].
  - simpl. rewrite split_on_absent by apply encode_pair_no_amp.
    simpl. rewrite encode_pair_nonempty. simpl. now rewrite parse_encode_pair.
  - change (String.concat "&" (List.map encode_pair (kv :: kv' :: ps)))
      with (encode_pair kv +:+ String "&"%char (String.concat "&" (List.map encode_pair (kv' :: ps)))).
    rewrite split_on_append by apply encode_pair_no_amp.
    simpl List.filter. rewrite encode_pair_nonempty. simpl negb. cbv iota.
    simpl List.map at 1. rewrite parse_encode_pair. f_equal. exact IH.
Qed.

Lemma toString_no_hash (ps : URLSearchParams.t) : JS.has_char "#" (toString ps) = false.
Proof.
  unfold toString.
  induction ps as [|kv ps IH]; [reflexivity |].
  destruct ps as [|kv' ps].
  - simpl. apply encode_pair_no_hash.
  - change (String.concat "&" (List.map encode_pair (kv :: kv' :: ps)))
      with (encode_pair kv +:+ String "&"%char (String.concat "&" (List.map encode_pair (kv' :: ps)))).
    rewrite has_char_append, encode_pair_no_hash. simpl. exact IH.
Qed.

(** A reader of the search URL finds exactly the encoder's pairs. *)
Lemma of_url_buildSearchUrl (f : SearchFilters) :
  of_url (Encoder.buildSearchUrl f) = Encoder.searchParams f.
Proof.
  unfold of_url, Encoder.buildSearchUrl.
  change (after_first "?" (Encoder.baseUrl +:+ "?" +:+ toString (Encoder.searchParams f)))
    with (toString (Encoder.searchParams f)).
  rewrite split_head_absent by apply toString_no_hash.
  apply parse_toString.
Qed.

End UrlFacts.

(** ** Query encoder *)

Section EncoderFacts.

Import URLSearchParams Encoder Params.

Lemma getAll_app (k : string) (a b : URLSearchParams.t) :
  getAll k (a ++ b) = getAll k a ++ getAll k b.
Proof.
  induction a as [|[k' v] a IH]; simpl; [reflexivity |].
  destruct (String.eqb k' k); simpl; now rewrite IH.
Qed.

Lemma In_getAll (k v : string) (ps : URLSearchParams.t) :
  In (k, v) ps <-> In v (getAll k ps).
Proof.
  induction ps as [|[k' v'] ps IH]; simpl; [tauto |].
  destruct (String.eqb k' k) eqn:E.
  - apply String.eqb_eq in E as ->. simpl. rewrite <- IH. split.
    + intros [[= <-] | Hin]; auto.
    + intros [<- | Hin]; auto.
  - apply String.eqb_neq in E. rewrite <- IH. split; [| auto].
    intros [[= <- <-] | Hin]; [congruence | exact Hin].
Qed.

Lemma searchParams_shape (f : SearchFilters) :
  searchParams f = location_part f ++ network_part f.
Proof.
  unfold searchParams, buildSearchParams, addNetworkToParams, network_part.
  assert (Hloc : addLocationToParams (addKeywordsToParams URLSearchParams.empty f) f
                 = location_part f).
  { unfold addLocationToParams, addKeywordsToParams, location_part, keywords_part,
      merged_keywords.
    destruct (JS.digits_only (effective_location f)).
    - destruct (JS.truthy (keywords f)); reflexivity.
    - destruct (JS.truthy (keywords f)) as [k|] eqn:Hk; [| reflexivity].
      apply truthy_Some in Hk as [_ Hne].
      unfold append. simpl.
      destruct k; [congruence | reflexivity]. }
  rewrite Hloc.
  destruct (JS.truthy (network f)) as [given|]; simpl.
  - destruct (networkValue (JS.toUpperCase given)); simpl.
    + unfold append. now rewrite <- app_assoc.
    + now rewrite app_nil_r.
  - now rewrite app_nil_r.
Qed.

Lemma of_filters_shape (f : SearchFilters) :
  of_filters f = location_part f ++ network_part f.
Proof. unfold of_filters. rewrite of_url_buildSearchUrl. apply searchParams_shape. Qed.

Lemma diagnostics_shape (f : SearchFilters) :
  diagnostics f =
    match JS.truthy (network f) with
    | Some given => if valid_network given then [] else [invalid_network_message given]
    | None => []
    end.
Proof.
  unfold diagnostics, buildSearchParams, addNetworkToParams, valid_network.
  destruct (JS.truthy (network f)) as [given|]; [| reflexivity].
  destruct (networkValue (JS.toUpperCase given)); reflexivity.
Qed.

Lemma networkValue_Some (s v : string) :
  networkValue s = Some v <-> s = v /\ (v = "F" \/ v = "S" \/ v = "O").
Proof.
  unfold networkValue.
  destruct (String.eqb s "F") eqn:EF; [apply String.eqb_eq in EF as -> |].
  { split; [intros [= <-]; auto | now intros [-> _]]. }
  destruct (String.eqb s "S") eqn:ES; [apply String.eqb_eq in ES as -> |].
  { split; [intros [= <-]; auto | now intros [-> _]]. }
  destruct (String.eqb s "O") eqn:EO; [apply String.eqb_eq in EO as -> |].
  { split; [intros [= <-]; auto | now intros [-> _]]. }
  apply String.eqb_neq in EF, ES, EO.
  split; [discriminate |]. intros [-> [->| [->| ->]]]; congruence.
Qed.

(** The parameters each step contributes, name by name. *)

Lemma location_part_geoUrn (f : SearchFilters) :
  getAll "geoUrn" (location_part f) =
    if JS.digits_only (effective_location f) then [bracketed (effective_location f)] else [].
Proof.
  unfold location_part, keywords_part.
  destruct (JS.digits_only (effective_location f)); [| reflexivity].
  now destruct (JS.truthy (keywords f)).
Qed.

Lemma location_part_origin (f : SearchFilters) :
  getAll "origin" (location_part f) =
    if JS.digits_only (effective_location f) then ["FACETED_SEARCH"] else [].
Proof.
  unfold location_part, keywords_part.
  destruct (JS.digits_only (effective_location f)); [| reflexivity].
  now destruct (JS.truthy (keywords f)).
Qed.

Lemma location_part_keywords (f : SearchFilters) :
  getAll "keywords" (location_part f) =
    if JS.digits_only (effective_location f)
    then match JS.truthy (keywords f) with Some k => [k] | None => [] end
    else [merged_keywords f].
Proof.
  unfold location_part, keywords_part.
  destruct (JS.digits_only (effective_location f)); [| reflexivity].
  now destruct (JS.truthy (keywords f)).
Qed.

Lemma location_part_network (f : SearchFilters) : getAll "network" (location_part f) = [].
Proof.
  unfold location_part, keywords_part.
  destruct (JS.digits_only (effective_location f)); [| reflexivity].
  now destruct (JS.truthy (keywords f)).
Qed.

Lemma network_part_geoUrn (f : SearchFilters) : getAll "geoUrn" (network_part f) = [].
Proof.
  unfold network_part. destruct (JS.truthy (network f)) as [given|]; [| reflexivity].
  now destruct (networkValue (JS.toUpperCase given)).
Qed.

Lemma network_part_keywords (f : SearchFilters) : getAll "keywords" (network_part f) = [].
Proof.
  unfold network_part. destruct (JS.truthy (network f)) as [given|]; [| reflexivity].
  now destruct (networkValue (JS.toUpperCase given)).
Qed.

Lemma network_part_given (f : SearchFilters) (given : string) :
  JS.truthy (network f) = Some given ->
  network_part f =
    match networkValue (JS.toUpperCase given) with
    | Some v => [("origin", "FACETED_SEARCH"); ("network", bracketed v)]
    | None => []
    end.
Proof. intros Hgiven. unfold network_part. now rewrite Hgiven. Qed.

End EncoderFacts.

Section EncoderProperties.

Import URLSearchParams Encoder Params.

Lemma effective_location_cases (f : SearchFilters) :
  (JS.truthy (location f) = None -> effective_location f = "104195383") /\
  (forall l, JS.truthy (location f) = Some l -> effective_location f = l).
Proof.
  unfold effective_location, JS.or_else.
  split; [intros -> | intros l ->]; reflexivity.
Qed.

Lemma location_encoding_shape (f : SearchFilters) :
  ((has "origin" "FACETED_SEARCH" (of_filters f) /\
    has "geoUrn" (bracketed (effective_location f)) (of_filters f))
   <-> JS.digits_only (effective_location f) = true) /\
  (JS.digits_only (effective_location f) = true ->
   only "geoUrn" (bracketed (effective_location f)) (of_filters f)) /\
  (JS.digits_only (effective_location f) = false ->
   lacks "geoUrn" (of_filters f) /\
   only "keywords" (merged_keywords f) (of_filters f)).
Proof.
  unfold has, only, lacks. rewrite !In_getAll, of_filters_shape, !getAll_app.
  rewrite location_part_geoUrn, location_part_origin, location_part_keywords,
    network_part_geoUrn, network_part_keywords.
  destruct (JS.digits_only (effective_location f)); simpl.
  - repeat split; auto; discriminate.
  - repeat split; auto; try discriminate. now intros [_ []].
Qed.

(** C1, as the program has it.  Whatever the filters, the URL carries
    origin=FACETED_SEARCH together with a geoUrn parameter holding the
    one-element list of the effective location exactly when the effective
    location is made of digits only; it is then the only geoUrn parameter.
    The effective location is the location given, or the default code
    104195383 when the location is absent or the empty string.  When the
    effective location is not made of digits, no geoUrn parameter appears
    and the single keywords parameter is the keywords, a space and the
    location, or the location alone when the keywords are absent or the
    empty string. *)
Theorem location_encoding (f : SearchFilters) :
  ((has "origin" "FACETED_SEARCH" (of_filters f) /\
    has "geoUrn" (bracketed (effective_location f)) (of_filters f))
   <-> JS.digits_only (effective_location f) = true) /\
  (JS.digits_only (effective_location f) = true ->
   only "geoUrn" (bracketed (effective_location f)) (of_filters f)) /\
  (JS.digits_only (effective_location f) = false ->
   lacks "geoUrn" (of_filters f) /\
   only "keywords" (merged_keywords f) (of_filters f)) /\
  (JS.truthy (location f) = None -> effective_location f = "104195383") /\
  (forall l, JS.truthy (location f) = Some l -> effective_location f = l).
Proof.
  pose proof (effective_location_cases f) as [Hdef Hgiven].
  pose proof (location_encoding_shape f) as (Hiff & Hdigits & Htext).
  repeat split; auto; apply Hiff || apply Htext; assumption.
Qed.

Lemma location_encoding_witness :
  lacks "geoUrn" (of_filters text_location_filters) /\
  only "keywords" "engineer San Francisco" (of_filters text_location_filters).
Proof.
  exact (proj1 (proj2 (proj2 (location_encoding text_location_filters))) eq_refl).
Defined.

(** C1, as stated, fails on an empty location: it is a location that is
    given and is not a digit string, yet the URL has the geoUrn parameter of
    the default code (and none holding the empty string), and the keywords
    are left as they are. *)
Lemma empty_location_gets_default_code :
  location empty_location_filters = Some EmptyString /\
  JS.digits_only EmptyString = false /\
  has "geoUrn" (bracketed "104195383") (of_filters empty_location_filters) /\
  ~ has "geoUrn" (bracketed EmptyString) (of_filters empty_location_filters) /\
  getAll "keywords" (of_filters empty_location_filters) = ["engineer"].
Proof.
  split; [reflexivity |]. split; [reflexivity |].
  split; [vm_compute; tauto |].
  split; [| vm_compute; reflexivity].
  vm_compute. intros [E|[E|[E|[]]]]; discriminate E.
Qed.

(** C3, as the program has it.  The filter field is [network] and its
    values are the codes themselves, compared without regard to case:
    a value whose upper case is "F" puts origin=FACETED_SEARCH and the
    single network parameter ["F"] in the URL, and likewise for "S" and
    "O".  The words "first", "second" and "thirdPlus" are not codes: each
    is reported as invalid and adds no network parameter. *)
Theorem network_code_encoding (f : SearchFilters) (given code : string) :
  JS.truthy (network f) = Some given ->
  (In code ["F"; "S"; "O"] -> JS.toUpperCase given = code ->
   has "origin" "FACETED_SEARCH" (of_filters f) /\
   only "network" (bracketed code) (of_filters f)) /\
  (In given ["first"; "second"; "thirdPlus"] ->
   lacks "network" (of_filters f) /\
   diagnostics f = [invalid_network_message given]).
Proof.
  intros Hgiven.
  unfold has, only, lacks.
  rewrite In_getAll, of_filters_shape, !getAll_app, location_part_network, diagnostics_shape.
  rewrite (network_part_given f given Hgiven), Hgiven. unfold valid_network.
  split.
  - intros Hcode Hup. rewrite Hup.
    assert (Hv : networkValue code = Some code).
    { apply networkValue_Some. split; [reflexivity |].
      simpl in Hcode. intuition congruence. }
    rewrite Hv. simpl. split; [| reflexivity].
    apply in_or_app. right. now left.
  - intros Hw.
    assert (Hv : networkValue (JS.toUpperCase given) = None).
    { simpl in Hw. destruct Hw as [<-|[<-|[<-|[]]]]; reflexivity. }
    rewrite Hv. split; reflexivity.
Qed.

Lemma network_code_encoding_witness :
  has "origin" "FACETED_SEARCH" (of_filters faceted_filters) /\
  only "network" (bracketed "S") (of_filters faceted_filters).
Proof.
  refine (proj1 (network_code_encoding faceted_filters "s" "S" eq_refl) _ eq_refl).
  simpl. tauto.
Defined.

(** C3, as stated, fails: with the value "first" the switch takes its
    default branch, and the URL has no network parameter ["F"], whether
    "first" arrives in the [network] field or under the name
    networkDegree in the tool arguments. *)
Lemma network_first_not_encoded :
  networkValue (JS.toUpperCase "first") = None /\
  ~ has "network" (bracketed "F") (of_filters first_degree_filters) /\
  ~ has "network" (bracketed "F") (of_filters (filters_of_args first_degree_args)).
Proof.
  split; [reflexivity |].
  split; vm_compute; intros [E|[E|[]]]; discriminate E.
Qed.

(** C4, as the program has it.  When the network value is not one of the
    codes the encoder accepts, the URL has no network parameter and is the
    very URL of the same filters without a network value; one diagnostic
    line naming the value is written when the value is not empty, and none
    when it is the empty string, which the guard takes for an absent
    value. *)
Theorem invalid_network_is_dropped (f : SearchFilters) (given : string) :
  network f = Some given ->
  valid_network given = false ->
  lacks "network" (of_filters f) /\
  buildSearchUrl f = buildSearchUrl (without_network f) /\
  diagnostics f = if JS.is_empty given then [] else [invalid_network_message given].
Proof.
  intros Hgiven Hbad.
  assert (Hnet : network_part f = []).
  { unfold network_part, valid_network in *. rewrite Hgiven. simpl.
    destruct (JS.is_empty given); [reflexivity |].
    now destruct (networkValue (JS.toUpperCase given)). }
  split; [| split].
  - unfold lacks. rewrite of_filters_shape, Hnet, app_nil_r. apply location_part_network.
  - unfold buildSearchUrl. rewrite !searchParams_shape, Hnet. reflexivity.
  - rewrite diagnostics_shape, Hgiven. simpl.
    destruct (JS.is_empty given); [reflexivity |]. now rewrite Hbad.
Qed.

Lemma invalid_network_is_dropped_witness :
  lacks "network" (of_filters bogus_network_filters) /\
  buildSearchUrl bogus_network_filters = buildSearchUrl (without_network bogus_network_filters) /\
  diagnostics bogus_network_filters = [invalid_network_message "X"].
Proof.
  exact (invalid_network_is_dropped bogus_network_filters "X" eq_refl eq_refl).
Defined.

(** C4, as stated, fails on an empty network value: it is outside the
    accepted codes, and no diagnostic is written for it. *)
Lemma empty_network_leaves_no_diagnostic :
  network empty_network_filters = Some EmptyString /\
  valid_network EmptyString = false /\
  diagnostics empty_network_filters = [].
Proof. repeat split. Qed.

(** C9.  When the effective location is made of digits only (the default
    code included) and the network value is one of the accepted codes,
    the parameters named origin in the URL are two, both FACETED_SEARCH:
    one from the location step and one from the network step. *)
Theorem origin_twice (f : SearchFilters) (given : string) :
  JS.digits_only (effective_location f) = true ->
  JS.truthy (network f) = Some given ->
  valid_network given = true ->
  getAll "origin" (of_filters f) = ["FACETED_SEARCH"; "FACETED_SEARCH"] /\
  getAll "origin" (location_part f) = ["FACETED_SEARCH"] /\
  getAll "origin" (network_part f) = ["FACETED_SEARCH"].
Proof.
  intros Hd Hgiven Hvalid.
  assert (Hl : getAll "origin" (location_part f) = ["FACETED_SEARCH"]).
  { now rewrite location_part_origin, Hd. }
  assert (Hn : getAll "origin" (network_part f) = ["FACETED_SEARCH"]).
  { rewrite (network_part_given f given Hgiven). unfold valid_network in Hvalid.
    destruct (networkValue (JS.toUpperCase given)); [reflexivity | discriminate]. }
  rewrite of_filters_shape, getAll_app, Hl, Hn. auto.
Qed.

Lemma origin_twice_witness :
  getAll "origin" (of_filters faceted_filters) = ["FACETED_SEARCH"; "FACETED_SEARCH"] /\
  getAll "origin" (location_part faceted_filters) = ["FACETED_SEARCH"] /\
  getAll "origin" (network_part faceted_filters) = ["FACETED_SEARCH"].
Proof.
  exact (origin_twice faceted_filters "s" eq_refl eq_refl eq_refl).
Defined.

End EncoderProperties.

(** ** Effects: events, flags and results of composed computations *)

Section MonadFacts.

Import Trace.
Context {W : Type} `{Browser W}.

Variable allowed : Event -> bool.

Lemma emits_only_ret {A : Type} (a : A) : emits_only allowed (ret a : M W A).
Proof. now intros s. Qed.

Lemma emits_only_throw {A : Type} (e : exn) : emits_only allowed (throw e : M W A).
Proof. now intros s. Qed.

Lemma emits_only_bind {A B : Type} (m : M W A) (k : A -> M W B) :
  emits_only allowed m -> (forall a, emits_only allowed (k a)) ->
  emits_only allowed (bind m k).
Proof.
  intros Hm Hk s. specialize (Hm s). unfold bind, events in *.
  destruct (m s) as [[[a|e] s1] t1]; simpl in *; [| exact Hm].
  specialize (Hk a s1). destruct (k a s1) as [[r s2] t2]; simpl in *.
  rewrite forallb_app, Hm. exact Hk.
Qed.

Lemma emits_only_try_catch {A : Type} (m : M W A) (h : exn -> M W A) :
  emits_only allowed m -> (forall e, emits_only allowed (h e)) ->
  emits_only allowed (try_catch m h).
Proof.
  intros Hm Hh s. specialize (Hm s). unfold try_catch, events in *.
  destruct (m s) as [[[a|e] s1] t1]; simpl in *; [exact Hm |].
  specialize (Hh e s1). destruct (h e s1) as [[r s2] t2]; simpl in *.
  rewrite forallb_app, Hm. exact Hh.
Qed.

Lemma emits_only_call {A : Type} (ev : Event) (op : W -> result A * W) :
  allowed ev = true -> emits_only allowed (call ev op).
Proof.
  intros Hev s. unfold call, events. destruct (op (world s)); simpl. now rewrite Hev.
Qed.

Lemma emits_only_read {A : Type} (ev : Event) (op : W -> result A) :
  allowed ev = true -> emits_only allowed (read ev op).
Proof. intros Hev s. unfold read, events; simpl. now rewrite Hev. Qed.

Lemma emits_only_console (line : string) :
  allowed (Console line) = true -> emits_only allowed (console line : M W unit).
Proof. intros Hev s. unfold console, events; simpl. now rewrite Hev. Qed.

Lemma emits_only_console_lines (lines : list string) :
  (forall line, allowed (Console line) = true) ->
  emits_only allowed (console_lines lines : M W unit).
Proof.
  intros Hev s. unfold console_lines, events; simpl.
  induction lines as [|l lines IH]; simpl; [reflexivity |]. now rewrite Hev.
Qed.

Lemma emits_only_state {A : Type} (f : State W -> result A * State W) :
  emits_only allowed (fun s => (f s, []) : result A * State W * list Event).
Proof. now intros s. Qed.

End MonadFacts.

Section FlagFacts.

Import Trace.
Context {W : Type} `{Browser W}.

Lemma keeps_flags_ret {A : Type} (a : A) : keeps_flags (ret a : M W A).
Proof. now intros s. Qed.

Lemma keeps_flags_throw {A : Type} (e : exn) : keeps_flags (throw e : M W A).
Proof. now intros s. Qed.

Lemma keeps_flags_bind {A B : Type} (m : M W A) (k : A -> M W B) :
  keeps_flags m -> (forall a, keeps_flags (k a)) -> keeps_flags (bind m k).
Proof.
  intros Hm Hk s. specialize (Hm s). unfold bind, final in *.
  destruct (m s) as [[[a|e] s1] t1]; simpl in *; [| exact Hm].
  specialize (Hk a s1). destruct (k a s1) as [[r s2] t2]; simpl in *.
  destruct Hm as [<- <-]. exact Hk.
Qed.

Lemma keeps_flags_try_catch {A : Type} (m : M W A) (h : exn -> M W A) :
  keeps_flags m -> (forall e, keeps_flags (h e)) -> keeps_flags (try_catch m h).
Proof.
  intros Hm Hh s. specialize (Hm s). unfold try_catch, final in *.
  destruct (m s) as [[[a|e] s1] t1]; simpl in *; [exact Hm |].
  specialize (Hh e s1). destruct (h e s1) as [[r s2] t2]; simpl in *.
  destruct Hm as [<- <-]. exact Hh.
Qed.

Lemma keeps_flags_call {A : Type} (ev : Event) (op : W -> result A * W) :
  keeps_flags (call ev op).
Proof. intros s. unfold call, final. now destruct (op (world s)). Qed.

Lemma keeps_flags_read {A : Type} (ev : Event) (op : W -> result A) :
  keeps_flags (read ev op).
Proof. now intros s. Qed.

Lemma keeps_flags_console (line : string) : keeps_flags (console line : M W unit).
Proof. now intros s. Qed.

Lemma keeps_flags_console_lines (lines : list string) :
  keeps_flags (console_lines lines : M W unit).
Proof. now intros s. Qed.

Lemma keeps_flags_page_is_null : keeps_flags (page_is_null : M W bool).
Proof. now intros s. Qed.

Lemma keeps_flags_page_url : keeps_flags (page_url : M W string).
Proof. now intros s. Qed.

Lemma keeps_flags_lift_result {A : Type} (r : result A) : keeps_flags (lift_result r : M W A).
Proof. now intros s. Qed.

End FlagFacts.

Section ResultFacts.

Import Trace.
Context {W : Type} `{Browser W}.

Lemma returns_ret {A : Type} (a : A) (P : A -> Prop) : P a -> returns (ret a : M W A) P.
Proof. intros HP s b [= <-]. exact HP. Qed.

Lemma returns_throw {A : Type} (e : exn) (P : A -> Prop) : returns (throw e : M W A) P.
Proof. intros s b. discriminate. Qed.

Lemma returns_bind {A B : Type} (m : M W A) (k : A -> M W B) (Q : B -> Prop) :
  (forall a, returns (k a) Q) -> returns (bind m k) Q.
Proof.
  intros Hk s b. unfold bind, outcome.
  destruct (m s) as [[[a|e] s1] t1]; simpl; [| discriminate].
  specialize (Hk a s1 b). unfold outcome in Hk.
  destruct (k a s1) as [[r s2] t2]; simpl in *. exact Hk.
Qed.

Lemma returns_try_catch {A : Type} (m : M W A) (h : exn -> M W A) (P : A -> Prop) :
  returns m P -> (forall e, returns (h e) P) -> returns (try_catch m h) P.
Proof.
  intros Hm Hh s b. specialize (Hm s b). unfold try_catch, outcome in *.
  destruct (m s) as [[[a|e] s1] t1]; simpl in *; [exact Hm |].
  specialize (Hh e s1 b). unfold outcome in Hh.
  destruct (h e s1) as [[r s2] t2]; simpl in *. exact Hh.
Qed.

Lemma total_ret {A : Type} (a : A) : total (ret a : M W A).
Proof. intros s. now exists a. Qed.

Lemma total_bind {A B : Type} (m : M W A) (k : A -> M W B) :
  total m -> (forall a, total (k a)) -> total (bind m k).
Proof.
  intros Hm Hk s. destruct (Hm s) as [a Ha]. unfold bind, outcome in *.
  destruct (m s) as [[r s1] t1]; simpl in Ha; subst r.
  destruct (Hk a s1) as [b Hb]. unfold outcome in Hb.
  destruct (k a s1) as [[r s2] t2]; simpl in *. now exists b.
Qed.

Lemma total_try_catch {A : Type} (m : M W A) (h : exn -> M W A) :
  (forall e, total (h e)) -> total (try_catch m h).
Proof.
  intros Hh s. unfold try_catch, outcome.
  destruct (m s) as [[[a|e] s1] t1]; simpl; [now exists a |].
  destruct (Hh e s1) as [b Hb]. unfold outcome in Hb.
  destruct (h e s1) as [[r s2] t2]; simpl in *. now exists b.
Qed.

Lemma total_console (line : string) : total (console line : M W unit).
Proof. intros s. now exists tt. Qed.

Lemma total_page_is_null : total (page_is_null : M W bool).
Proof. intros s. now eexists. Qed.

End ResultFacts.

(** ** Record extractor: one search-result row *)

Section RowFacts.

Import Extract Rows.

Lemma cleanProfileUrl_no_query (u : string) : JS.has_char "?" (cleanProfileUrl u) = false.
Proof.
  unfold cleanProfileUrl.
  destruct (JS.startsWith "http" (JS.split_head "?" u)).
  - apply split_head_has_no.
  - rewrite has_char_append, split_head_has_no. reflexivity.
Qed.

Lemma cleanProfileUrl_http (u : string) : JS.startsWith "http" (cleanProfileUrl u) = true.
Proof.
  unfold cleanProfileUrl.
  destruct (JS.startsWith "http" (JS.split_head "?" u)) eqn:E; [exact E | reflexivity].
Qed.

Lemma cleanProfileUrl_nonempty (u : string) : cleanProfileUrl u <> EmptyString.
Proof.
  intros E. pose proof (cleanProfileUrl_http u) as Hh. rewrite E in Hh. discriminate Hh.
Qed.

Lemma cleanProfileUrl_normalized (href : string) :
  JS.includes "/in/" href = true -> normalized (cleanProfileUrl href).
Proof.
  intros Hin. exists href. repeat split; auto using cleanProfileUrl_no_query, cleanProfileUrl_http.
Qed.

Lemma extractProfileUrl_from_step (sel : string) (rest : list string) (row : Element) :
  extractProfileUrl_from (sel :: rest) row =
    match link_href row sel with
    | Ok (Some h) =>
        if JS.includes "/in/" h then Ok (Some (cleanProfileUrl h))
        else extractProfileUrl_from rest row
    | Ok None => extractProfileUrl_from rest row
    | Throw e => Throw e
    end.
Proof.
  unfold link_href. simpl. unfold result_bind.
  destruct (query row sel) as [link|e]; [| reflexivity].
  destruct (opt_getAttribute link "href") as [[h|]|e]; reflexivity.
Qed.

Lemma extractProfileUrl_from_found (sels : list string) (row : Element) (u : string) :
  extractProfileUrl_from sels row = Ok (Some u) ->
  exists sel h, In sel sels /\ link_href row sel = Ok (Some h) /\
                JS.includes "/in/" h = true /\ u = cleanProfileUrl h.
Proof.
  induction sels as [|sel rest IH]; [discriminate |].
  rewrite extractProfileUrl_from_step.
  destruct (link_href row sel) as [[h|]|e] eqn:Hl; [| | discriminate].
  - destruct (JS.includes "/in/" h) eqn:Hin.
    + intros [= <-]. exists sel, h. simpl. auto.
    + intros Hr. destruct (IH Hr) as (sel' & h' & Hs & Hrest).
      exists sel', h'. simpl. auto.
  - intros Hr. destruct (IH Hr) as (sel' & h' & Hs & Hrest).
    exists sel', h'. simpl. auto.
Qed.


Lemma extractProfileName_from_step (sel : string) (rest : list string) (row : Element)
  (index : nat) :
  extractProfileName_from (sel :: rest) row index =
    match text_match row sel with
    | Ok (Some v) => Ok v
    | Ok None => extractProfileName_from rest row index
    | Throw e => Throw e
    end.
Proof.
  unfold text_match. simpl. unfold result_bind.
  destruct (query row sel) as [[h|]|e]; try reflexivity.
  destruct (text_or_empty h) as [t|e]; [| reflexivity].
  destruct (JS.is_empty (JS.trim t)); reflexivity.
Qed.

Lemma extractProfileHeadline_from_step (sel : string) (rest : list string) (row : Element) :
  extractProfileHeadline_from (sel :: rest) row =
    match text_match row sel with
    | Ok (Some v) => Ok (Some v)
    | Ok None => extractProfileHeadline_from rest row
    | Throw e => Throw e
    end.
Proof.
  unfold text_match. simpl. unfold result_bind.
  destruct (query row sel) as [[h|]|e]; try reflexivity.
  destruct (text_or_empty h) as [t|e]; [| reflexivity].
  destruct (JS.is_empty (JS.trim t)); reflexivity.
Qed.

Lemma text_match_nonempty (row : Element) (sel v : string) :
  text_match row sel = Ok (Some v) -> v <> EmptyString.
Proof.
  unfold text_match, result_bind.
  destruct (query row sel) as [[h|]|e]; try discriminate.
  destruct (text_or_empty h) as [t|e]; [| discriminate].
  destruct (JS.is_empty (JS.trim t)) eqn:E; [discriminate |].
  intros [= <-] Hv. rewrite Hv in E. discriminate E.
Qed.



(** The first candidate with a match decides, whatever comes after it. *)
Lemma extractProfileName_from_first (before after : list string) (sel v : string)
  (row : Element) (index : nat) :
  (forall s, In s before -> text_match row s = Ok None) ->
  text_match row sel = Ok (Some v) ->
  extractProfileName_from (before ++ sel :: after) row index = Ok v.
Proof.
  intros Hbefore Hsel.
  induction before as [|b before IH]; simpl app.
  - now rewrite extractProfileName_from_step, Hsel.
  - rewrite extractProfileName_from_step, (Hbefore b) by now left.
    apply IH. intros s Hs. apply Hbefore. now right.
Qed.

Lemma extractProfileHeadline_found (sels : list string) (row : Element) (v : string) :
  extractProfileHeadline_from sels row = Ok (Some v) -> v <> EmptyString.
Proof.
  induction sels as [|sel rest IH]; [discriminate |].
  rewrite extractProfileHeadline_from_step.
  destruct (text_match row sel) as [[t|]|e] eqn:Ht; [| exact IH | discriminate].
  intros [= <-]. eapply text_match_nonempty, Ht.
Qed.

(** What a kept record is made of. *)
Lemma extractSingleProfile_kept (row : Element) (index : nat) (p : LinkedInProfileLink) :
  (extractSingleProfile row index).1 = Some p ->
  extractProfileUrl row = Ok (Some (profileUrl p)) /\
  extractProfileName row index = Ok (name p) /\
  extractProfileHeadline row = Ok (headline p) /\
  (extractSingleProfile row index).2 = [].
Proof.
  unfold extractSingleProfile, extractSingleProfile_body, result_bind.
  destruct (extractProfileUrl row) as [[u|]|e] eqn:Hu; cbv beta iota;
    [| simpl; discriminate | simpl; discriminate].
  pose proof Hu as Hu'. apply extractProfileUrl_from_found in Hu' as (sel & h & _ & _ & _ & ->).
  assert (Ht : JS.truthy (Some (cleanProfileUrl h)) = Some (cleanProfileUrl h)).
  { apply truthy_Some. split; [reflexivity | apply cleanProfileUrl_nonempty]. }
  rewrite Ht.
  destruct (extractProfileName row index) as [n|e]; cbv beta iota; [| simpl; discriminate].
  destruct (extractProfileHeadline row) as [hl|e] eqn:Hh; cbv beta iota;
    [| simpl; discriminate].
  simpl. intros [= <-]; simpl. repeat split.
  destruct hl as [v|]; [| reflexivity].
  apply extractProfileHeadline_found in Hh. simpl. now destruct v.
Qed.



Lemma extractSingleProfile_normalized (row : Element) (index : nat)
  (p : LinkedInProfileLink) :
  (extractSingleProfile row index).1 = Some p -> normalized (profileUrl p).
Proof.
  intros Hp. apply extractSingleProfile_kept in Hp as (Hu & _).
  apply extractProfileUrl_from_found in Hu as (sel & h & _ & _ & Hin & ->).
  now apply cleanProfileUrl_normalized.
Qed.

End RowFacts.

(** Tactics that walk a computation and discharge the side conditions on
    its events and flags with the combinator lemmas. *)

Ltac flags :=
  repeat first
    [ apply keeps_flags_bind; [| intros ?]
    | apply keeps_flags_try_catch; [| intros ?]
    | apply keeps_flags_ret
    | apply keeps_flags_throw
    | apply keeps_flags_call
    | apply keeps_flags_read
    | apply keeps_flags_console
    | apply keeps_flags_console_lines
    | apply keeps_flags_page_is_null
    | apply keeps_flags_page_url
    | apply keeps_flags_lift_result
    | assumption
    | match goal with
      | |- Trace.keeps_flags (if ?b then _ else _) => destruct b
      | |- Trace.keeps_flags (match ?x with _ => _ end) => destruct x
      end ].

Ltac emits :=
  repeat first
    [ apply emits_only_bind; [| intros ?]
    | apply emits_only_try_catch; [| intros ?]
    | apply emits_only_ret
    | apply emits_only_throw
    | apply emits_only_call; reflexivity
    | apply emits_only_read; reflexivity
    | apply emits_only_console; reflexivity
    | apply emits_only_console_lines; reflexivity
    | apply emits_only_state
    | assumption
    | match goal with
      | |- Trace.emits_only _ (if ?b then _ else _) => destruct b
      | |- Trace.emits_only _ (match ?x with _ => _ end) => destruct x
      end ].

(** ** Search pipeline *)

Section PipelineFacts.

Import Encoder Extract Scraper Trace Rows.
Context {W : Type} `{Browser W}.

(** *** The row loop *)

Lemma processProfiles_run (rows : list Element) (i total : nat)
  (acc : list LinkedInProfileLink) (s : State W) :
  outcome (processProfiles rows i total acc s) = Ok (acc ++ kept_records rows i) /\
  final (processProfiles rows i total acc s) = s.
Proof.
  revert i acc. induction rows as [|row rest IH]; intros i acc; simpl.
  - unfold ret, outcome, final; simpl. now rewrite app_nil_r.
  - destruct (extractSingleProfile row i) as [[p|] lines]; simpl;
      unfold bind, console, console_lines, outcome, final in *; simpl.
    + specialize (IH (S i) (acc ++ [p])).
      destruct (processProfiles rest (S i) total (acc ++ [p]) s) as [[r s2] t2]; simpl in *.
      destruct IH as [-> ->]. now rewrite <- app_assoc.
    + specialize (IH (S i) acc).
      destruct (processProfiles rest (S i) total acc s) as [[r s2] t2]; simpl in *.
      exact IH.
Qed.

Lemma processProfiles_quiet (rows : list Element) (i total : nat)
  (acc : list LinkedInProfileLink) :
  emits_only (fun ev => negb (is_goto ev)) (processProfiles rows i total acc : M W _).
Proof.
  revert i acc. induction rows as [|row rest IH]; intros i acc; simpl.
  - apply emits_only_ret.
  - destruct (extractSingleProfile row i) as [[p|] lines]; emits; apply IH.
Qed.

Lemma processProfiles_flags (rows : list Element) (i total : nat)
  (acc : list LinkedInProfileLink) :
  keeps_flags (processProfiles rows i total acc : M W _).
Proof.
  intros s. destruct (processProfiles_run rows i total acc s) as [_ ->]. now split.
Qed.

Lemma kept_records_normalized (rows : list Element) (i : nat) :
  Forall (fun p => normalized (profileUrl p)) (kept_records rows i).
Proof.
  revert i. induction rows as [|row rest IH]; intros i; simpl; [constructor |].
  destruct ((extractSingleProfile row i).1) as [p|] eqn:Hp; [| apply IH].
  constructor; [| apply IH]. now apply extractSingleProfile_normalized in Hp.
Qed.

(** *** The row selectors *)

Lemma getProfileElements_from_skip (b : string) (rest : list string) (s : State W) :
  queryAll b (world s) = Ok [] ->
  getProfileElements_from (b :: rest) s =
    ((getProfileElements_from rest s).1.1, (getProfileElements_from rest s).1.2,
     QueryAll b :: (getProfileElements_from rest s).2).
Proof.
  intros Hb. simpl. unfold bind, read. rewrite Hb. simpl.
  now destruct (getProfileElements_from rest s) as [[r s2] t2].
Qed.

Lemma getProfileElements_from_first (before after : list string) (sel : string)
  (rows : list Element) (s : State W) :
  (forall b, In b before -> queryAll b (world s) = Ok []) ->
  queryAll sel (world s) = Ok rows ->
  rows <> [] ->
  outcome (getProfileElements_from (before ++ sel :: after) s) = Ok rows /\
  final (getProfileElements_from (before ++ sel :: after) s) = s /\
  row_queries (events (getProfileElements_from (before ++ sel :: after) s))
    = before ++ [sel].
Proof.
  intros Hbefore Hsel Hrows.
  induction before as [|b before IH]; simpl app.
  - simpl. unfold bind, read, console, ret, outcome, final, events; simpl. rewrite Hsel.
    destruct rows as [|r rows]; [congruence |]. simpl. auto.
  - rewrite getProfileElements_from_skip by (apply Hbefore; now left).
    destruct IH as (Ho & Hf & Hq); [intros x Hx; apply Hbefore; now right |].
    unfold outcome, final, events in *. simpl.
    repeat split; [exact Ho | exact Hf |].
    unfold row_queries in *. simpl. now f_equal.
Qed.

Lemma getProfileElements_from_none (sels : list string) (s : State W) :
  (forall sel, In sel sels -> queryAll sel (world s) = Ok []) ->
  getProfileElements_from sels s = (Ok [], s, List.map QueryAll sels).
Proof.
  intros Hnone. induction sels as [|sel rest IH]; [reflexivity |].
  rewrite getProfileElements_from_skip by (apply Hnone; now left).
  rewrite IH; [reflexivity |]. intros x Hx. apply Hnone. now right.
Qed.

Lemma getProfileElements_from_quiet (sels : list string) :
  emits_only (fun ev => negb (is_goto ev)) (getProfileElements_from sels : M W _).
Proof. induction sels as [|sel rest IH]; simpl; emits. Qed.

Lemma getProfileElements_from_flags (sels : list string) :
  keeps_flags (getProfileElements_from sels : M W _).
Proof. induction sels as [|sel rest IH]; simpl; flags. Qed.

(** *** Waiting for a results container *)

Lemma waitForResults_total (sels : list string) : total (waitForResults sels : M W bool).
Proof.
  induction sels as [|sel rest IH]; simpl; [apply total_ret |].
  apply total_bind.
  - apply total_try_catch. intros e. apply total_bind; [apply total_console |].
    intros _. apply total_bind; [apply total_console |]. intros _. apply total_ret.
  - intros [|]; [apply total_ret | exact IH].
Qed.

Lemma waitForResults_quiet (sels : list string) :
  emits_only (fun ev => negb (is_goto ev)) (waitForResults sels : M W bool).
Proof. induction sels as [|sel rest IH]; simpl; emits. Qed.

Lemma waitForResults_flags (sels : list string) : keeps_flags (waitForResults sels : M W bool).
Proof. induction sels as [|sel rest IH]; simpl; flags. Qed.

(** *** The extraction step *)

Lemma extractProfileLinks_total : total (extractProfileLinks : M W _).
Proof.
  unfold extractProfileLinks. apply total_bind; [apply total_page_is_null |].
  intros [|]; [apply total_ret |].
  apply total_try_catch. intros e.
  apply total_bind; [apply total_console |]. intros _. apply total_ret.
Qed.

Lemma extractProfileLinks_quiet :
  emits_only (fun ev => negb (is_goto ev)) (extractProfileLinks : M W _).
Proof.
  unfold extractProfileLinks, getProfileElements. emits;
    first [apply waitForResults_quiet | apply getProfileElements_from_quiet
          | apply processProfiles_quiet].
Qed.

End PipelineFacts.

(** ** Session: the login step and the login wall *)

Section SessionFacts.

Import Encoder Extract Scraper Trace Rows.
Context {W : Type} `{Browser W}.

Lemma gotos_app (a b : list Event) : gotos (a ++ b) = gotos a ++ gotos b.
Proof. unfold gotos. apply omap_app. Qed.

Lemma gotos_quiet (tr : list Event) :
  forallb (fun ev => negb (is_goto ev)) tr = true -> gotos tr = [].
Proof.
  induction tr as [|ev tr IH]; simpl; [reflexivity |].
  intros Hq. apply andb_true_iff in Hq as [Hev Htr].
  destruct ev; try discriminate Hev; exact (IH Htr).
Qed.

Lemma gotos_consoles (lines : list string) : gotos (List.map Console lines) = [].
Proof. induction lines as [|l lines IH]; [reflexivity | exact IH]. Qed.

Lemma no_extraction_consoles (lines : list string) :
  forallb (fun ev => negb (is_extraction ev)) (List.map Console lines) = true.
Proof. induction lines as [|l lines IH]; [reflexivity | exact IH]. Qed.



Lemma loginToLinkedIn_flags : keeps_flags (loginToLinkedIn : M W bool).
Proof. unfold loginToLinkedIn, saveCookies. flags. Qed.


(** The body of the login after its navigation to the login page. *)
Lemma loginToLinkedIn_gotos (s : State W) :
  ready s = true -> gotos (events (loginToLinkedIn s)) = [loginUrl].
Proof.
  intros Hready.
  unfold loginToLinkedIn. unfold bind at 1. unfold page_is_null. rewrite Hready. simpl negb.
  cbv iota beta.
  match goal with
  | |- context [try_catch (bind ?c (fun _ => bind (call ?evt ?op) ?tail)) ?h] =>
      assert (Htail : forall a, emits_only (fun ev => negb (is_goto ev)) (tail a))
        by (intros a; unfold saveCookies; emits);
      assert (Hh : forall e, emits_only (fun ev => negb (is_goto ev)) (h e))
        by (intros e; emits);
      generalize dependent tail; generalize dependent h
  end.
  intros h Hh tail Htail.
  unfold try_catch, bind at 1 2, console, call, events. simpl.
  destruct (goto loginUrl (world s)) as [[[]|e] w1]; simpl.
  - specialize (Htail tt (mkState (created s) (ready s) w1)). unfold events in Htail.
    destruct (tail tt (mkState (created s) (ready s) w1)) as [[[b|e] s2] t2]; simpl in *.
    + now rewrite (gotos_quiet _ Htail).
    + specialize (Hh e s2). unfold events in Hh.
      destruct (h e s2) as [[r s3] t3]; simpl in *.
      rewrite gotos_app, (gotos_quiet _ Htail), (gotos_quiet _ Hh). reflexivity.
  - specialize (Hh e (mkState (created s) (ready s) w1)). unfold events in Hh.
    destruct (h e (mkState (created s) (ready s) w1)) as [[r s3] t3]; simpl in *.
    now rewrite (gotos_quiet _ Hh).
Qed.

End SessionFacts.

Section SearchFacts.

Import Encoder Extract Scraper Trace Rows.
Context {W : Type} `{Browser W}.

Lemma navigate_flags (f : SearchFilters) : keeps_flags (navigate f : M W unit).
Proof. unfold navigate. flags. Qed.

(** [searchPeople] on an initialised scraper: navigation, then
    extraction, and the [catch] that logs and rethrows. *)
Lemma searchPeople_run (f : SearchFilters) (s : State W) :
  ready s = true ->
  searchPeople f s =
    match navigate f s with
    | (Ok _, s1, t1) =>
        match extractProfileLinks s1 with
        | (Ok ps, s2, t2) => (Ok ps, s2, t1 ++ t2)
        | (Throw e, s2, t2) =>
            (Throw e, s2, (t1 ++ t2) ++ [Console "❌ Error during people search:"])
        end
    | (Throw e, s1, t1) => (Throw e, s1, t1 ++ [Console "❌ Error during people search:"])
    end.
Proof.
  intros Hready. unfold searchPeople, page_is_null, try_catch, bind, console, throw, ret.
  rewrite Hready. cbn -[navigate extractProfileLinks].
  destruct (navigate f s) as [[[[]|e] s1] t1]; [| reflexivity].
  destruct (extractProfileLinks s1) as [[[ps|e] s2] t2]; cbn.
  - now rewrite ?app_nil_r.
  - reflexivity.
Qed.





End SearchFacts.

(** ** Empty result pages *)

Section EmptyResults.

Import Encoder Extract Scraper Trace Rows.
Context {W : Type} `{Browser W}.

(** Without rows the extraction returns the empty list. *)
Lemma extractProfileLinks_no_rows (s : State W) (found : bool) :
  ready s = true ->
  outcome (waitForResults searchSelectors s) = Ok found ->
  (forall sel, In sel profileSelectors ->
     queryAll sel (world (final (waitForResults searchSelectors s))) = Ok []) ->
  outcome (extractProfileLinks s) = Ok [].
Proof.
  intros Hready Hfound Hrows.
  pose proof (waitForResults_flags searchSelectors s) as [_ Hflag].
  unfold outcome, final in *.
  destruct (waitForResults searchSelectors s) as [[r s1] t1] eqn:E.
  cbn [fst snd] in Hfound, Hrows, Hflag. subst r. rewrite Hready in Hflag.
  assert (Hget : getProfileElements s1 = (Ok [], s1, List.map QueryAll profileSelectors)).
  { unfold getProfileElements, bind, page_is_null. rewrite Hflag. cbn [negb].
    cbv beta iota. now rewrite (getProfileElements_from_none _ _ Hrows). }
  unfold extractProfileLinks, try_catch, bind, page_is_null, console, ret, read, page_url.
  rewrite Hready. cbn [negb]. cbv beta iota. rewrite E. cbv beta iota.
  destruct found; cbv beta iota.
  - rewrite Hget. reflexivity.
  - destruct (title (world s1)) as [t|e]; cbv beta iota; [| reflexivity].
    rewrite Hget. reflexivity.
Qed.

(** C6.  A search that reaches the results page (the scraper is
    initialised and the navigation step completes), finds a results
    container and gets no element from any row selector returns, through
    the tool handler, the structured result with count 0 and an empty
    profile list: no error is raised. *)
Theorem no_rows_is_an_empty_result (args : gmap string string) (s s0 s1 : State W)
  (t0 t1 : list Event) :
  initializeScraper s = (Ok tt, s0, t0) ->
  ready s0 = true ->
  navigate (filters_of_args args) s0 = (Ok tt, s1, t1) ->
  outcome (waitForResults searchSelectors s1) = Ok true ->
  (forall sel, In sel profileSelectors ->
     queryAll sel (world (final (waitForResults searchSelectors s1))) = Ok []) ->
  outcome (callTool "search-linkedin-people" args s) =
    Ok {| success := true; count := 0; profiles := []; filters := filters_of_args args |} /\
  outcome (searchPeople (filters_of_args args) s0) = Ok [] /\
  outcome (extractProfileLinks s1) = Ok [].
Proof.
  intros Hinit Hready Hnav Hfound Hrows.
  assert (Hready1 : ready s1 = true).
  { pose proof (navigate_flags (filters_of_args args) s0) as [_ Hf].
    rewrite Hnav in Hf. cbn in Hf. now rewrite Hf. }
  pose proof (extractProfileLinks_no_rows s1 true Hready1 Hfound Hrows) as Hextract.
  assert (Hsearch : outcome (searchPeople (filters_of_args args) s0) = Ok []).
  { rewrite (searchPeople_run _ _ Hready), Hnav. unfold outcome in *.
    destruct (extractProfileLinks s1) as [[r s2] t2]. cbn in Hextract. now subst r. }
  split; [| split; assumption].
  unfold callTool, search_tool. cbn [String.eqb Ascii.eqb Bool.eqb].
  unfold outcome, try_catch, bind, console, ret, throw in *. cbv beta iota.
  rewrite Hinit. cbv beta iota.
  destruct (searchPeople (filters_of_args args) s0) as [[r s2] t2].
  cbn in Hsearch. subst r. reflexivity.
Qed.

End EmptyResults.

(** ** Selector chains, kept records and profile URLs *)

Section ChainProperties.

Import Encoder Extract Scraper Trace Rows.
Context {W : Type} `{Browser W}.

Lemma extractProfileName_from_throws (before after : list string) (bad : string)
  (row : Element) (index : nat) (e : exn) :
  (forall c, In c before -> text_match row c = Ok None) ->
  text_match row bad = Throw e ->
  extractProfileName_from (before ++ bad :: after) row index = Throw e.
Proof.
  intros Hbefore Hbad. induction before as [|b before IH]; simpl app.
  - now rewrite extractProfileName_from_step, Hbad.
  - rewrite extractProfileName_from_step, (Hbefore b) by now left.
    apply IH. intros c Hc. apply Hbefore. now right.
Qed.

Lemma getProfileElements_from_throws (before after : list string) (bad : string)
  (s : State W) (e : exn) :
  (forall c, In c before -> queryAll c (world s) = Ok []) ->
  queryAll bad (world s) = Throw e ->
  outcome (getProfileElements_from (before ++ bad :: after) s) = Throw e /\
  row_queries (events (getProfileElements_from (before ++ bad :: after) s))
    = before ++ [bad].
Proof.
  intros Hbefore Hbad. induction before as [|b before IH]; simpl app.
  - simpl. unfold bind, read, outcome, events; simpl. now rewrite Hbad.
  - rewrite getProfileElements_from_skip by (apply Hbefore; now left).
    destruct IH as (Ho & Hq); [intros c Hc; apply Hbefore; now right |].
    unfold outcome, events in *. simpl. split; [exact Ho |].
    unfold row_queries in *. simpl. now f_equal.
Qed.

(** C7, as the program has it.  In a chain of candidate selectors where
    the candidates before [sel] answer without a match and [sel] yields a
    match, the chain returns what the chain made of [sel] alone returns,
    whatever candidates follow.  This holds for the name chain over one
    row and for the row chain over the page; the row chain queries the
    candidates in order and stops at [sel], so none of the later
    candidates is evaluated.  The candidates of these chains run without
    a guard of their own: when a candidate throws, the candidates before
    it having answered without a match, the chain ends with that
    exception, whatever the candidates after it would yield. *)
Theorem selector_chain_first_match (before after : list string) (sel : string) :
  (forall (row : Element) (index : nat) (v : string),
     (forall c, In c before -> text_match row c = Ok None) ->
     text_match row sel = Ok (Some v) ->
     extractProfileName_from (before ++ sel :: after) row index = Ok v /\
     extractProfileName_from [sel] row index = Ok v) /\
  (forall (s : State W) (rows : list Element),
     (forall c, In c before -> queryAll c (world s) = Ok []) ->
     queryAll sel (world s) = Ok rows ->
     rows <> [] ->
     outcome (getProfileElements_from (before ++ sel :: after) s) = Ok rows /\
     outcome (getProfileElements_from [sel] s) = Ok rows /\
     row_queries (events (getProfileElements_from (before ++ sel :: after) s))
       = before ++ [sel]) /\
  (forall (row : Element) (index : nat) (e : exn),
     (forall c, In c before -> text_match row c = Ok None) ->
     text_match row sel = Throw e ->
     extractProfileName_from (before ++ sel :: after) row index = Throw e) /\
  (forall (s : State W) (e : exn),
     (forall c, In c before -> queryAll c (world s) = Ok []) ->
     queryAll sel (world s) = Throw e ->
     outcome (getProfileElements_from (before ++ sel :: after) s) = Throw e /\
     row_queries (events (getProfileElements_from (before ++ sel :: after) s))
       = before ++ [sel]).
Proof.
  split; [| split; [| split]].
  - intros row index v Hbefore Hsel. split.
    + now apply extractProfileName_from_first.
    + apply (extractProfileName_from_first [] []); [intros c [] | exact Hsel].
  - intros s rows Hbefore Hsel Hrows.
    destruct (getProfileElements_from_first before after sel rows s Hbefore Hsel Hrows)
      as (Ho & _ & Hq).
    destruct (getProfileElements_from_first [] [] sel rows s) as (Ho1 & _ & _);
      [intros c [] | exact Hsel | exact Hrows |].
    auto.
  - intros row index e. apply extractProfileName_from_throws.
  - intros s e. apply getProfileElements_from_throws.
Qed.

Lemma returns_bind_post {A B : Type} (m : M W A) (k : A -> M W B) (P : A -> Prop)
  (Q : B -> Prop) :
  returns m P -> (forall a, P a -> returns (k a) Q) -> returns (bind m k) Q.
Proof.
  intros Hm Hk s b. specialize (Hm s). unfold bind, outcome in *.
  destruct (m s) as [[[a|e] s1] t1]; simpl in *; [| discriminate].
  specialize (Hk a (Hm a eq_refl) s1 b). unfold outcome in Hk.
  destruct (k a s1) as [[r s2] t2]; simpl in *. exact Hk.
Qed.

Lemma extractProfileLinks_normalized :
  returns (extractProfileLinks : M W _) (Forall (fun p => normalized (profileUrl p))).
Proof.
  unfold extractProfileLinks.
  apply returns_bind. intros [|]; [now apply returns_ret |].
  apply returns_try_catch.
  - apply returns_bind. intros _. apply returns_bind. intros found.
    apply returns_bind. intros _. apply returns_bind. intros rows.
    destruct (length rows =? 0)%nat.
    + apply returns_bind. intros _. now apply returns_ret.
    + apply returns_bind. intros _. intros s ps Hps.
      destruct (processProfiles_run rows 0 (length rows) [] s) as [Hrun _].
      rewrite Hrun in Hps. injection Hps as <-. apply kept_records_normalized.
  - intros e. apply returns_bind. intros _. now apply returns_ret.
Qed.

(** What does hold of every profile URL in the list a search returns: it
    is the [href] of a link of the row, containing "/in/", cut before its
    first "?" and prefixed with "https://www.linkedin.com" unless what is
    left starts with the letters "http"; it has no "?" and starts with
    "http". *)
Lemma searchPeople_normalized (f : SearchFilters) (s : State W)
  (ps : list LinkedInProfileLink) :
  outcome (searchPeople f s) = Ok ps ->
  Forall (fun p => normalized (profileUrl p)) ps.
Proof.
  revert s ps. change (returns (searchPeople f : M W _)
                         (Forall (fun p => normalized (profileUrl p)))).
  unfold searchPeople. apply returns_bind. intros [|]; [apply returns_throw |].
  apply returns_try_catch.
  - apply returns_bind. intros _.
    apply (returns_bind_post _ _ _ _ extractProfileLinks_normalized).
    intros ps Hps. now apply returns_ret.
  - intros e. apply returns_bind. intros _. apply returns_throw.
Qed.






End ChainProperties.

(** ** Fallback values of failed extractions *)

Section FallbackProperties.

Import Extract Scraper Trace Rows Pages Profile.
Context {W : Type} `{Browser W}.








Lemma extractProfileData_url (u : string) :
  returns (extractProfileData u : M W _)
    (fun p => fullProfileUrl p = u /\
              (experience p = None ->
               fullName p = "Unknown" /\ fullHeadline p = None /\
               fullLocation p = None /\ about p = None)).
Proof.
  unfold extractProfileData.
  apply returns_bind. intros [|]; [apply returns_throw |].
  apply returns_try_catch.
  - do 7 (apply returns_bind; intros ?). apply returns_ret. simpl. split; [reflexivity |].
    discriminate.
  - intros e. apply returns_bind. intros _. apply returns_ret. simpl. auto.
Qed.

(** *** The per-row fields, from what the row answers *)








(** *** The about text *)




End FallbackProperties.

(** ** Concrete runs on the simulated site *)

Section Runs.

Import Encoder Extract Scraper Trace Rows Pages Profile Params Demo.




(** C7, as stated, fails: of the name candidates of this row only
    ".actor-name" yields a match, the chain over all of them ends with
    the exception of the first candidate, and the chain made of
    ".actor-name" alone returns the name. *)
Lemma throwing_candidate_breaks_the_chain :
  (forall sel v, In sel nameSelectors -> sel <> ".actor-name" ->
                 text_match Outage.stale_name sel <> Ok (Some v)) /\
  text_match Outage.stale_name ".actor-name" = Ok (Some "Jane Doe") /\
  extractProfileName_from nameSelectors Outage.stale_name 0 = Throw Outage.detached /\
  extractProfileName_from [".actor-name"] Outage.stale_name 0 = Ok "Jane Doe".
Proof.
  split; [| split; [| split]]; try (vm_compute; reflexivity).
  intros sel v [<-|[<-|[<-|[<-|[]]]]] Hne; try (vm_compute; discriminate).
  now contradiction Hne.
Qed.

Lemma no_rows_is_an_empty_result_witness :
  outcome (callTool "search-linkedin-people" ∅ (live [])) =
    Ok {| success := true; count := 0; profiles := []; filters := filters_of_args ∅ |}.
Proof.
  refine (proj1 (no_rows_is_an_empty_result ∅ (live []) (live [])
                   (final (navigate (filters_of_args ∅) (live []))) []
                   (events (navigate (filters_of_args ∅) (live [])))
                   eq_refl eq_refl _ _ _)).
  - vm_compute. reflexivity.
  - vm_compute. reflexivity.
  - intros sel [<-|[<-|[<-|[<-|[]]]]]; vm_compute; reflexivity.
Defined.

Lemma selector_chain_first_match_witness :
  extractProfileName_from nameSelectors jane 0 = Ok "Jane Doe" /\
  extractProfileName_from [".actor-name"] jane 0 = Ok "Jane Doe".
Proof.
  apply (proj1 (selector_chain_first_match (W := Site)
                  [ ".entity-result__title-text a span" +:+ attr "aria-hidden" "true";
                    ".search-result__result-link span" +:+ attr "aria-hidden" "true" ]
                  [ ".search-result__result-link" ] ".actor-name") jane 0 "Jane Doe").
  - intros c [<-|[<-|[]]]; vm_compute; reflexivity.
  - vm_compute. reflexivity.
Defined.

(** C10.  A link whose [href] is the relative address
    "http-people/in/jane?trk=1" is a profile link for the extractor, and
    the search returns its record with the URL "http-people/in/jane": the
    query string is cut, no prefix is added because the text begins with
    the letters "http", and the URL returned is not absolute, although the
    comment of [cleanProfileUrl] says it ensures a full URL. *)
Theorem relative_href_is_returned_relative :
  link_href Outage.hyphen ("a" +:+ attr_has "href" "/in/")
    = Ok (Some "http-people/in/jane?trk=1") /\
  JS.includes "/in/" "http-people/in/jane?trk=1" = true /\
  cleanProfileUrl "http-people/in/jane?trk=1" = "http-people/in/jane" /\
  outcome (searchPeople text_location_filters (live [Outage.hyphen]))
    = Ok [Outage.hyphen_record] /\
  Urls.absolute (profileUrl Outage.hyphen_record) = false.
Proof.
  split; [| split; [| split; [| split]]]; vm_compute; reflexivity.
Qed.



End Runs.

(** * Further properties *)

(** ** Command-line arguments *)

Section CliFacts.

Import Cli.

Lemma isValidNextArg_accepted (v : string) : isValidNextArg (Some v) = true <-> accepted v.
Proof.
  unfold isValidNextArg, accepted. destruct v as [|a v].
  - cbn. split; [discriminate | intros [Hne _]; congruence].
  - cbn [JS.truthy JS.is_empty]. rewrite negb_true_iff.
    split; [intros E; split; [discriminate | exact E] | intros [_ E]; exact E].
Qed.

(** Which handler an argument finds. *)
Lemma findArgumentHandler_cases (arg : string) :
  findArgumentHandler arg createArgumentHandlers =
    match option_field arg with
    | Some Keywords => Some (createStringArgumentHandler Keywords ["--keywords"; "-k"])
    | Some Location => Some (createStringArgumentHandler Location ["--location"; "-l"])
    | Some Network => Some (createStringArgumentHandler Network ["--network"; "-n"])
    | None => if is_help arg then Some createHelpArgumentHandler else None
    end.
Proof.
  unfold findArgumentHandler, createArgumentHandlers, option_field, is_help. simpl.
  destruct (String.eqb arg "--keywords"), (String.eqb arg "-k"),
    (String.eqb arg "--location"), (String.eqb arg "-l"),
    (String.eqb arg "--network"), (String.eqb arg "-n"),
    (String.eqb arg "--help"), (String.eqb arg "-h"); reflexivity.
Qed.

Lemma option_field_dash (flag : string) (field : Field) :
  option_field flag = Some field -> JS.startsWith "-" flag = true /\ is_help flag = false.
Proof.
  unfold option_field, is_help.
  destruct (String.eqb flag "--keywords") eqn:E1; [apply String.eqb_eq in E1 as ->; auto |].
  destruct (String.eqb flag "-k") eqn:E2; [apply String.eqb_eq in E2 as ->; auto |].
  destruct (String.eqb flag "--location") eqn:E3; [apply String.eqb_eq in E3 as ->; auto |].
  destruct (String.eqb flag "-l") eqn:E4; [apply String.eqb_eq in E4 as ->; auto |].
  destruct (String.eqb flag "--network") eqn:E5; [apply String.eqb_eq in E5 as ->; auto |].
  destruct (String.eqb flag "-n") eqn:E6; [apply String.eqb_eq in E6 as ->; auto |].
  discriminate.
Qed.

Lemma is_help_dash (arg : string) : is_help arg = true -> JS.startsWith "-" arg = true.
Proof.
  unfold is_help. intros Hh. apply orb_true_iff in Hh as [E|E];
    apply String.eqb_eq in E as ->; reflexivity.
Qed.

Lemma is_help_In (arg : string) : is_help arg = true <-> arg = "--help" \/ arg = "-h".
Proof.
  unfold is_help. rewrite orb_true_iff, !String.eqb_eq. tauto.
Qed.

(** One turn of the loop, by the kind of the argument. *)
Lemma parse_from_option (i : nat) (flag value : string) (rest : list string)
  (field : Field) (f : SearchFilters) :
  option_field flag = Some field ->
  accepted value ->
  parse_from i (flag :: value :: rest) f = parse_from (i + 2) rest (assign field value f).
Proof.
  intros Hflag Hvalue. apply isValidNextArg_accepted in Hvalue.
  cbn [parse_from]. rewrite findArgumentHandler_cases, Hflag.
  destruct field; cbn [head process createStringArgumentHandler]; now rewrite Hvalue.
Qed.

Lemma parse_from_option_alone (i : nat) (flag : string) (rest : list string)
  (field : Field) (f : SearchFilters) :
  option_field flag = Some field ->
  isValidNextArg (head rest) = false ->
  parse_from i (flag :: rest) f = parse_from (i + 1) rest f.
Proof.
  intros Hflag Hnext.
  cbn [parse_from]. rewrite findArgumentHandler_cases, Hflag.
  destruct field; cbn [process createStringArgumentHandler];
    destruct (head rest) as [v|]; try rewrite Hnext; reflexivity.
Qed.

Lemma parse_from_help (i : nat) (arg : string) (rest : list string) (f : SearchFilters) :
  is_help arg = true -> parse_from i (arg :: rest) f = HelpExit.
Proof.
  intros Hh. cbn [parse_from]. rewrite findArgumentHandler_cases.
  destruct (option_field arg) as [field|] eqn:Ho.
  - apply option_field_dash in Ho as [_ Hn]. congruence.
  - now rewrite Hh.
Qed.

Lemma parse_from_other (i : nat) (arg : string) (rest : list string) (f : SearchFilters) :
  option_field arg = None -> is_help arg = false ->
  parse_from i (arg :: rest) f
  = parse_from (i + 1) rest (handleBackwardCompatibility f arg i).
Proof.
  intros Ho Hh. cbn [parse_from]. now rewrite findArgumentHandler_cases, Ho, Hh.
Qed.

(** The three cases a non-empty argument list falls in. *)
Lemma parse_from_cases (i : nat) (arg : string) (rest : list string) (f : SearchFilters) :
  (exists field value rest',
     option_field arg = Some field /\ rest = value :: rest' /\ accepted value /\
     parse_from i (arg :: rest) f = parse_from (i + 2) rest' (assign field value f)) \/
  (exists field,
     option_field arg = Some field /\ isValidNextArg (head rest) = false /\
     parse_from i (arg :: rest) f = parse_from (i + 1) rest f) \/
  (is_help arg = true /\ parse_from i (arg :: rest) f = HelpExit) \/
  (option_field arg = None /\ is_help arg = false /\
   parse_from i (arg :: rest) f
   = parse_from (i + 1) rest (handleBackwardCompatibility f arg i)).
Proof.
  destruct (option_field arg) as [field|] eqn:Ho.
  - destruct (isValidNextArg (head rest)) eqn:Hv.
    + left. destruct rest as [|value rest']; [discriminate Hv |].
      apply isValidNextArg_accepted in Hv.
      exists field, value, rest'.
      split; [reflexivity | split; [reflexivity | split; [exact Hv |]]].
      now apply (parse_from_option _ _ _ _ field).
    + right; left. exists field.
      split; [reflexivity | split; [reflexivity |]]. now apply (parse_from_option_alone _ _ _ field).
  - destruct (is_help arg) eqn:Hh.
    + right; right; left. split; [reflexivity | now apply parse_from_help].
    + right; right; right.
      split; [reflexivity | split; [reflexivity | now apply parse_from_other]].
Qed.

Lemma accepted_not_help (v : string) : accepted v -> is_help v = false.
Proof.
  intros [_ Hd]. destruct (is_help v) eqn:Hh; [| reflexivity].
  apply is_help_dash in Hh. congruence.
Qed.

Lemma parse_from_HelpExit (n : nat) :
  forall (args : list string) (i : nat) (f : SearchFilters),
    length args <= n ->
    (parse_from i args f = HelpExit <-> exists arg, In arg args /\ is_help arg = true).
Proof.
  induction n as [|n IH]; intros args i f Hlen.
  - destruct args; [| simpl in Hlen; lia]. simpl.
    split; [discriminate | intros (arg & [] & _)].
  - destruct args as [|arg rest].
    + simpl. split; [discriminate | intros (arg & [] & _)].
    + simpl in Hlen.
      destruct (parse_from_cases i arg rest f)
        as [(field & value & rest' & Ho & -> & Hv & ->)
           |[(field & Ho & Hn & ->)
           |[(Hh & ->)
           |(Ho & Hh & ->)]]].
      * simpl in Hlen. rewrite IH by lia.
        apply option_field_dash in Ho as [_ Hh]. apply accepted_not_help in Hv.
        split.
        -- intros (a & Hin & Ha). exists a. split; [right; right; exact Hin | exact Ha].
        -- intros (a & [<-|[<-|Hin]] & Ha); try congruence. exists a. auto.
      * rewrite IH by lia. apply option_field_dash in Ho as [_ Hh].
        split.
        -- intros (a & Hin & Ha). exists a. split; [right; exact Hin | exact Ha].
        -- intros (a & [<-|Hin] & Ha); try congruence. exists a. auto.
      * split; [| reflexivity]. intros _. exists arg. split; [left; reflexivity | exact Hh].
      * rewrite IH by lia.
        split.
        -- intros (a & Hin & Ha). exists a. split; [right; exact Hin | exact Ha].
        -- intros (a & [<-|Hin] & Ha); try congruence. exists a. auto.
Qed.

Lemma parsed_ok_assign (field : Field) (value : string) (f : SearchFilters) :
  accepted value -> parsed_ok f -> parsed_ok (assign field value f).
Proof.
  intros Hv (Hk & Hl & Hn).
  destruct field; unfold parsed_ok; simpl;
    (split; [| split]); try assumption; intros ? [= <-]; try exact Hv.
  apply Hv.
Qed.

Lemma parsed_ok_handleBackwardCompatibility (f : SearchFilters) (arg : string) (i : nat) :
  parsed_ok f -> parsed_ok (handleBackwardCompatibility f arg i).
Proof.
  intros (Hk & Hl & Hn). unfold handleBackwardCompatibility.
  destruct (i =? 0)%nat; cbn [andb]; [| split; [| split]; assumption].
  destruct (JS.startsWith "-" arg) eqn:Hd; cbn [negb]; [split; [| split]; assumption |].
  unfold parsed_ok; simpl. split; [| split]; try assumption. intros ? [= <-]. exact Hd.
Qed.

Lemma parse_from_parsed_ok (n : nat) :
  forall (args : list string) (i : nat) (f g : SearchFilters),
    length args <= n -> parsed_ok f -> parse_from i args f = Parsed g -> parsed_ok g.
Proof.
  induction n as [|n IH]; intros args i f g Hlen Hf.
  - destruct args; [| simpl in Hlen; lia]. simpl. now intros [= <-].
  - destruct args as [|arg rest]; [simpl; now intros [= <-] |].
    simpl in Hlen.
    destruct (parse_from_cases i arg rest f)
      as [(field & value & rest' & Ho & -> & Hv & ->)
         |[(field & Ho & Hn & ->)
         |[(Hh & ->)
         |(Ho & Hh & ->)]]].
    + simpl in Hlen. apply IH; [lia | now apply parsed_ok_assign].
    + apply IH; [lia | exact Hf].
    + discriminate.
    + apply IH; [lia | now apply parsed_ok_handleBackwardCompatibility].
Qed.

Lemma parsed_ok_no_filters : parsed_ok no_filters.
Proof. unfold parsed_ok, no_filters; simpl. repeat split; discriminate. Qed.

(** Appending an option with its value to a command line. *)
Lemma parse_from_snoc (n : nat) :
  forall (args : list string) (i : nat) (f : SearchFilters)
         (flag value : string) (field : Field),
    length args <= n ->
    option_field flag = Some field -> accepted value ->
    parse_from i (args ++ [flag; value]) f =
      match parse_from i args f with
      | Parsed g => Parsed (assign field value g)
      | HelpExit => HelpExit
      end.
Proof.
  induction n as [|n IH]; intros args i f flag value field Hlen Hflag Hvalue.
  - destruct args; [| simpl in Hlen; lia].
    rewrite app_nil_l, (parse_from_option _ _ _ _ field) by assumption. reflexivity.
  - destruct args as [|arg rest].
    + rewrite app_nil_l, (parse_from_option _ _ _ _ field) by assumption. reflexivity.
    + simpl in Hlen. rewrite <- app_comm_cons.
      destruct (parse_from_cases i arg rest f)
        as [(fd & v & rest' & Ho & -> & Hv & ->)
           |[(fd & Ho & Hn & ->)
           |[(Hh & ->)
           |(Ho & Hh & ->)]]].
      * simpl in Hlen. rewrite <- app_comm_cons.
        rewrite (parse_from_option _ _ _ _ fd) by assumption.
        apply IH; [lia | assumption | assumption].
      * rewrite (parse_from_option_alone _ _ _ fd); [apply IH; [lia | assumption..] | exact Ho |].
        destruct rest as [|r rest']; [| exact Hn].
        cbn [app head]. apply option_field_dash in Hflag as [Hd _].
        destruct (isValidNextArg (Some flag)) eqn:Hvalid; [| reflexivity].
        apply isValidNextArg_accepted in Hvalid as [_ Hvalid]. congruence.
      * now rewrite parse_from_help.
      * rewrite parse_from_other by assumption. apply IH; [lia | assumption..].
Qed.

(** X1. The parser ends the process for the help text exactly when
    [--help] or [-h] occurs somewhere on the command line: no option
    consumes it as its value, and nothing that comes before it matters. *)
Theorem help_anywhere_exits (args : list string) :
  parseArguments args = HelpExit <-> In "--help" args \/ In "-h" args.
Proof.
  unfold parseArguments. rewrite (parse_from_HelpExit (length args)) by lia.
  split.
  - intros (arg & Hin & Hh). apply is_help_In in Hh as [-> | ->]; auto.
  - intros [Hin | Hin]; [exists "--help" | exists "-h"]; split; auto.
Qed.

(** X2. Whatever the command line, a parsed location or network is a
    non-empty text that does not start with a dash, and parsed keywords do
    not start with a dash: the text after an option is taken as its value
    only then, and otherwise read as an argument of its own. *)
Theorem parsed_values_are_not_options (args : list string) (f : SearchFilters) :
  parseArguments args = Parsed f ->
  (forall k, keywords f = Some k -> JS.startsWith "-" k = false) /\
  (forall l, location f = Some l -> accepted l) /\
  (forall n, network f = Some n -> accepted n).
Proof.
  intros Hp.
  exact (parse_from_parsed_ok (length args) args 0 no_filters f
           (le_n _) parsed_ok_no_filters Hp).
Qed.

Lemma parsed_values_are_not_options_witness :
  (forall k, Some "a" = Some k -> JS.startsWith "-" k = false) /\
  (forall l, @None string = Some l -> accepted l) /\
  (forall n, Some "F" = Some n -> accepted n).
Proof.
  exact (parsed_values_are_not_options
           ["-k"; "a"; "--location"; "-n"; "F"; "x"]
           {| keywords := Some "a"; location := None; network := Some "F" |} eq_refl).
Defined.

(** X3. An option with an accepted value at the end of a command line sets
    its field and leaves the other fields as the command line before it
    gives them; so the last of several values for an option is the one
    kept. *)
Theorem trailing_option_sets_its_field
  (args : list string) (flag value : string) (field : Field) :
  option_field flag = Some field ->
  accepted value ->
  parseArguments (args ++ [flag; value]) =
    match parseArguments args with
    | Parsed g => Parsed (assign field value g)
    | HelpExit => HelpExit
    end.
Proof.
  intros Hflag Hvalue. unfold parseArguments.
  now apply (parse_from_snoc (length args)).
Qed.

Lemma trailing_option_sets_its_field_witness :
  parseArguments (["-l"; "Paris"; "-k"] ++ ["-l"; "Berlin"]) =
    match parseArguments ["-l"; "Paris"; "-k"] with
    | Parsed g => Parsed (assign Location "Berlin" g)
    | HelpExit => HelpExit
    end.
Proof.
  apply trailing_option_sets_its_field.
  - reflexivity.
  - split; [discriminate | reflexivity].
Defined.

(** X4. Spelling filters out with the long options and parsing them gives
    the filters back, when every value present is non-empty and does not
    start with a dash. *)
Theorem parse_render_round_trip (f : SearchFilters) :
  field_ok (keywords f) -> field_ok (location f) -> field_ok (network f) ->
  parseArguments (render f) = Parsed f.
Proof.
  destruct f as [k l n]. unfold render, parseArguments.
  cbn [keywords location network field_ok]. intros Hk Hl Hn.
  destruct k as [k|], l as [l|], n as [n|]; cbn [app];
    repeat (rewrite (parse_from_option _ "--keywords" _ _ Keywords) by (assumption || reflexivity));
    repeat (rewrite (parse_from_option _ "--location" _ _ Location) by (assumption || reflexivity));
    repeat (rewrite (parse_from_option _ "--network" _ _ Network) by (assumption || reflexivity));
    reflexivity.
Qed.

Lemma parse_render_round_trip_witness :
  parseArguments
    (render {| keywords := Some "data engineer"; location := None; network := Some "F" |})
  = Parsed {| keywords := Some "data engineer"; location := None; network := Some "F" |}.
Proof.
  apply parse_render_round_trip; simpl; try exact I; split; (discriminate || reflexivity).
Defined.

End CliFacts.

(** ** Thrown and returned values of composed computations *)

Section OutcomeFacts.

Context {W : Type} `{Browser W}.

Lemma try_catch_thrown {A : Type} (m : M W A) (h : exn -> M W A) (s : State W) (e : exn) :
  outcome (try_catch m h s) = Throw e ->
  exists cause, outcome (m s) = Throw cause /\ outcome (h cause (final (m s))) = Throw e.
Proof.
  unfold try_catch, outcome, final.
  destruct (m s) as [[[a|cause] s1] t1]; simpl; [discriminate |].
  intros He. exists cause. split; [reflexivity |].
  now destruct (h cause s1) as [[r s2] t2].
Qed.

Lemma bind_thrown {A B : Type} (m : M W A) (k : A -> M W B) (s : State W) (e : exn) :
  outcome (bind m k s) = Throw e ->
  outcome (m s) = Throw e \/
  exists a, outcome (m s) = Ok a /\ outcome (k a (final (m s))) = Throw e.
Proof.
  unfold bind, outcome, final.
  destruct (m s) as [[[a|cause] s1] t1]; simpl.
  - intros He. right. exists a. split; [reflexivity |].
    now destruct (k a s1) as [[r s2] t2].
  - intros [= <-]. now left.
Qed.

Lemma bind_console_outcome {A : Type} (line : string) (k : unit -> M W A) (s : State W) :
  outcome (bind (console line) k s) = outcome (k tt s) /\
  final (bind (console line) k s) = final (k tt s) /\
  events (bind (console line) k s) = Console line :: events (k tt s).
Proof.
  unfold bind, console, outcome, final, events. simpl.
  now destruct (k tt s) as [[r s2] t2].
Qed.

(** A [try] whose body cannot throw is its body. *)
Lemma try_catch_total {A : Type} (m : M W A) (h : exn -> M W A) (s : State W) :
  Trace.total m -> try_catch m h s = m s.
Proof.
  intros Hm. destruct (Hm s) as [a Ha]. unfold try_catch, outcome in *.
  destruct (m s) as [[r s1] t1]; simpl in Ha; subst r. reflexivity.
Qed.

End OutcomeFacts.

(** ** What the row loop keeps *)

Section RecordFacts.

Import Encoder Extract Scraper Trace Rows Records.
Context {W : Type} `{Browser W}.

Lemma extractProfileName_from_nonempty (sels : list string) (row : Element) (index : nat)
  (n : string) :
  extractProfileName_from sels row index = Ok n -> n <> EmptyString.
Proof.
  induction sels as [|sel rest IH]; simpl.
  - intros [= <-]. discriminate.
  - unfold result_bind. destruct (query row sel) as [[h|]|e]; try discriminate; [| exact IH].
    destruct (text_or_empty h) as [t|e]; try discriminate.
    destruct (JS.is_empty (JS.trim t)) eqn:Hblank; [exact IH |].
    intros [= <-]. intros Heq. now rewrite Heq in Hblank.
Qed.

Lemma extractSingleProfile_well_formed (row : Element) (index : nat)
  (p : LinkedInProfileLink) :
  (extractSingleProfile row index).1 = Some p -> well_formed p.
Proof.
  intros Hp. apply extractSingleProfile_kept in Hp as (Hu & Hn & Hh & _).
  split; [| split].
  - exact (extractProfileName_from_nonempty _ _ _ _ Hn).
  - apply extractProfileUrl_from_found in Hu as (sel & h & _ & _ & _ & ->).
    apply cleanProfileUrl_nonempty.
  - destruct (headline p) as [v|]; [| discriminate].
    apply extractProfileHeadline_found in Hh. intros [= ->]. now apply Hh.
Qed.

Lemma kept_records_well_formed (rows : list Element) (i : nat) :
  Forall well_formed (kept_records rows i).
Proof.
  revert i. induction rows as [|row rest IH]; intros i; simpl; [constructor |].
  destruct (extractSingleProfile row i).1 as [p|] eqn:Hp; [| apply IH].
  constructor; [now apply (extractSingleProfile_well_formed row i) | apply IH].
Qed.

Lemma kept_records_length (rows : list Element) (i : nat) :
  length (kept_records rows i) <= length rows.
Proof.
  revert i. induction rows as [|row rest IH]; intros i; simpl; [lia |].
  specialize (IH (S i)). destruct (extractSingleProfile row i).1; simpl; lia.
Qed.

(** What the extraction step returns is what the row loop keeps of some
    rows. *)
Lemma extractProfileLinks_kept :
  returns (extractProfileLinks : M W _) (fun ps => exists rows, ps = kept_records rows 0).
Proof.
  unfold extractProfileLinks.
  apply returns_bind. intros [|]; [apply returns_ret; now exists [] |].
  apply returns_try_catch.
  - apply returns_bind. intros _. apply returns_bind. intros found.
    apply returns_bind. intros _. apply returns_bind. intros rows.
    destruct (length rows =? 0)%nat.
    + apply returns_bind. intros _. apply returns_ret. now exists [].
    + apply returns_bind. intros _. intros s ps Hps.
      destruct (processProfiles_run rows 0 (length rows) [] s) as [Hrun _].
      rewrite Hrun in Hps. injection Hps as <-. now exists rows.
  - intros e. apply returns_bind. intros _. apply returns_ret. now exists [].
Qed.

Lemma searchPeople_kept (f : SearchFilters) :
  returns (searchPeople f : M W _) (fun ps => exists rows, ps = kept_records rows 0).
Proof.
  unfold searchPeople. apply returns_bind. intros [|]; [apply returns_throw |].
  apply returns_try_catch.
  - apply returns_bind. intros _.
    apply (returns_bind_post _ _ _ _ extractProfileLinks_kept).
    intros ps Hps. now apply returns_ret.
  - intros e. apply returns_bind. intros _. apply returns_throw.
Qed.

End RecordFacts.

(** ** The tool handler *)

Section ToolFacts.

Import Encoder Extract Scraper Trace Rows Session.
Context {W : Type} `{Browser W}.

Lemma search_tool_thrown (args : gmap string string) (s : State W) (e : exn) :
  outcome (search_tool args s) = Throw e ->
  exists cause,
    e = McpError InternalError ("LinkedIn search failed: " +:+ exn_message cause).
Proof.
  unfold search_tool.
  rewrite (proj1 (bind_console_outcome _ _ _)), (proj1 (bind_console_outcome _ _ _)).
  intros He. apply try_catch_thrown in He as (cause & _ & He).
  rewrite (proj1 (bind_console_outcome _ _ _)) in He. injection He as <-.
  now exists cause.
Qed.

(** X5.  Every error the tool handler raises is a protocol error of one
    of two kinds.  A tool name other than "search-linkedin-people" is
    refused with MethodNotFound before anything is printed or done.  A
    failed search is an InternalError whose message is
    "LinkedIn search failed: " followed by the message of its cause; the
    outer "Tool execution failed" wrapper is never produced. *)
Theorem tool_errors_are_protocol_errors
  (tool : string) (args : gmap string string) (s : State W) (e : exn) :
  outcome (callTool tool args s) = Throw e ->
  (tool <> "search-linkedin-people" /\
   callTool tool args s = (Throw (McpError MethodNotFound ("Unknown tool: " +:+ tool)), s, []) /\
   e = McpError MethodNotFound ("Unknown tool: " +:+ tool)) \/
  (tool = "search-linkedin-people" /\
   exists cause,
     e = McpError InternalError ("LinkedIn search failed: " +:+ exn_message cause)).
Proof.
  unfold callTool. destruct (String.eqb tool "search-linkedin-people") eqn:Htool.
  - apply String.eqb_eq in Htool. intros He. right. split; [exact Htool |].
    apply try_catch_thrown in He as (cause & Hcause & He).
    apply search_tool_thrown in Hcause as (c & ->). injection He as <-. now exists c.
  - apply String.eqb_neq in Htool. intros He. left. split; [exact Htool |].
    split; [reflexivity |]. now injection He as <-.
Qed.

(** X6.  A tool call that returns was a search, and its response is
    consistent: success is true, the count is the number of profiles
    listed, the filters are those read from the arguments, and every
    profile listed has a name and a URL that are not empty and a headline
    that is absent or not empty. *)
Theorem tool_response_shape
  (tool : string) (args : gmap string string) (s : State W) (r : SearchResponse) :
  outcome (callTool tool args s) = Ok r ->
  tool = "search-linkedin-people" /\
  success r = true /\
  count r = length (profiles r) /\
  filters r = filters_of_args args /\
  Forall Records.well_formed (profiles r).
Proof.
  revert s r.
  change (returns (callTool tool args : M W _)
            (fun r => tool = "search-linkedin-people" /\ success r = true /\
                      count r = length (profiles r) /\
                      filters r = filters_of_args args /\
                      Forall Records.well_formed (profiles r))).
  unfold callTool. apply returns_try_catch.
  - destruct (String.eqb tool "search-linkedin-people") eqn:Htool; [| apply returns_throw].
    apply String.eqb_eq in Htool. unfold search_tool.
    apply returns_bind. intros _. apply returns_bind. intros _.
    apply returns_try_catch.
    + apply returns_bind. intros _.
      apply (returns_bind_post _ _ _ _ (searchPeople_kept (filters_of_args args))).
      intros ps [rows ->]. apply returns_ret. simpl.
      repeat split; try assumption. apply kept_records_well_formed.
    + intros e. apply returns_bind. intros _. apply returns_throw.
  - intros [m|c m]; apply returns_throw.
Qed.

(** A search on a scraper that exists without a page. *)
Lemma callTool_without_page (args : gmap string string) (s : State W) :
  created s = true -> ready s = false ->
  callTool "search-linkedin-people" args s =
    (Throw (McpError InternalError
              "LinkedIn search failed: Browser not initialized. Call init() first."),
     s, refused_search).
Proof.
  intros Hc Hr.
  unfold callTool, search_tool, initializeScraper, searchPeople, is_created, page_is_null,
    try_catch, bind, console, throw, ret. simpl.
  rewrite Hc, Hr. simpl. reflexivity.
Qed.

(** X7.  A failed browser launch is never retried.  The first search on a
    machine where the configuration loads and the launch throws fails with
    the launch error and leaves the scraper created without a page; every
    later search then fails with "Browser not initialized. Call init()
    first." having printed three console lines and made no call to the
    browser. *)
Theorem failed_launch_is_sticky
  (args args' : gmap string string) (s : State W) (e : exn) (w : W) :
  created s = false -> ready s = false ->
  loadConfig (world s) = Ok tt ->
  launch (world s) = (Throw e, w) ->
  outcome (callTool "search-linkedin-people" args s)
    = Throw (McpError InternalError ("LinkedIn search failed: " +:+ exn_message e)) /\
  final (callTool "search-linkedin-people" args s) = mkState true false w /\
  callTool "search-linkedin-people" args' (mkState true false w) =
    (Throw (McpError InternalError
              "LinkedIn search failed: Browser not initialized. Call init() first."),
     mkState true false w, refused_search).
Proof.
  intros Hc Hr Hconfig Hlaunch.
  split; [| split]; [| | now apply callTool_without_page].
  - unfold callTool, search_tool, initializeScraper, construct, set_created, init,
      is_created, try_catch, bind, console, call, throw, ret, outcome. simpl.
    rewrite Hc, Hconfig. simpl. rewrite Hlaunch. simpl. reflexivity.
  - unfold callTool, search_tool, initializeScraper, construct, set_created, init,
      is_created, try_catch, bind, console, call, throw, ret, final. simpl.
    rewrite Hc, Hconfig. simpl. rewrite Hlaunch. simpl. now rewrite Hr.
Qed.

(** X8.  A configuration that cannot be loaded is tried again by the next
    call: the search fails with the configuration error, no scraper is
    kept and the state is as before, the browser untouched. *)
Theorem failed_configuration_is_retried
  (args : gmap string string) (s : State W) (e : exn) :
  created s = false ->
  loadConfig (world s) = Throw e ->
  callTool "search-linkedin-people" args s =
    (Throw (McpError InternalError ("LinkedIn search failed: " +:+ exn_message e)),
     s, refused_search).
Proof.
  intros Hc Hconfig.
  unfold callTool, search_tool, initializeScraper, construct, is_created,
    try_catch, bind, console, throw, ret. simpl.
  rewrite Hc. simpl. rewrite Hconfig. simpl. reflexivity.
Qed.

End ToolFacts.

(** ** Where a search navigates *)

Section NavigationFacts.

Import Encoder Extract Scraper Trace Rows Session.
Context {W : Type} `{Browser W}.

Lemma gotos_cons (ev : Event) (tr : list Event) :
  gotos (ev :: tr) = match goto_target ev with Some u => u :: gotos tr | None => gotos tr end.
Proof. reflexivity. Qed.

Lemma navigate_gotos (f : SearchFilters) (s : State W) :
  ready s = true ->
  In (gotos (events (navigate f s)))
     [ [buildSearchUrl f];
       [buildSearchUrl f; loginUrl];
       [buildSearchUrl f; loginUrl; buildSearchUrl f] ].
Proof.
  intros Hr.
  assert (Hlogin : forall w,
            gotos (events (loginToLinkedIn (mkState (created s) (ready s) w))) = [loginUrl])
    by (intros w; now apply loginToLinkedIn_gotos).
  unfold navigate. generalize dependent (loginToLinkedIn (W := W)). intros login Hlogin.
  unfold bind, console, console_lines, call, read, throw, ret, events in *. simpl.
  assert (Hnil : gotos (List.map Console (diagnostics f)) = []) by apply gotos_consoles.
  destruct (goto (buildSearchUrl f) (world s)) as [[[]|e] w1]; simpl;
    [| rewrite ?gotos_app, ?Hnil; simpl; auto].
  destruct (waitForTimeout 5000%N w1) as [[[]|e] w2]; simpl;
    [| rewrite ?gotos_app, ?Hnil; simpl; auto].
  destruct (isVisible session_key w2) as [[|]|e]; simpl;
    [| rewrite ?gotos_app, ?Hnil; simpl; auto..].
  specialize (Hlogin w2).
  destruct (login (mkState (created s) (ready s) w2)) as [[[[|]|e] s3] t3]; simpl in *.
  - destruct (goto (buildSearchUrl f) (world s3)) as [[[]|e] w3]; simpl;
      [destruct (waitForTimeout 5000%N w3) as [r4 w4]; simpl |];
      rewrite ?gotos_app, ?Hnil; simpl; rewrite ?gotos_app, ?Hlogin; simpl; auto.
  - rewrite ?gotos_app, ?Hnil; simpl; rewrite ?gotos_app, ?Hlogin; simpl; auto.
  - rewrite ?gotos_app, ?Hnil; simpl; rewrite ?gotos_app, ?Hlogin; simpl; auto.
Qed.

Lemma extractProfileLinks_flags : keeps_flags (extractProfileLinks : M W _).
Proof.
  unfold extractProfileLinks, getProfileElements. flags;
    first [apply waitForResults_flags | apply getProfileElements_from_flags
          | apply processProfiles_flags].
Qed.

Lemma waitForResults_step (sel : string) (rest : list string) (s : State W) :
  waitForResults (sel :: rest) s =
    match waitForSelector sel (world s) with
    | (Ok _, w1) =>
        (Ok true, mkState (created s) (ready s) w1,
         [ WaitForSelector sel 15000%N;
           Console ("✅ Found search results using selector: " +:+ sel) ])
    | (Throw e, w1) =>
        match waitForResults rest (mkState (created s) (ready s) w1) with
        | (r, s2, t2) =>
            (r, s2,
             [ WaitForSelector sel 15000%N;
               Console ("⏳ Selector " +:+ JS.dq +:+ sel +:+ JS.dq +:+
                        " not found, trying next...");
               Console (exn_message e) ] ++ t2)
        end
    end.
Proof.
  cbn [waitForResults]. unfold bind, try_catch, call, console, ret.
  destruct (waitForSelector sel (world s)) as [[[]|e] w1]; cbn [fst snd]; [reflexivity |].
  now destruct (waitForResults rest (mkState (created s) (ready s) w1)) as [[r s2] t2].
Qed.

(** The wait never throws, and waits for a prefix of the candidates. *)
Lemma waitForResults_prefix (sels : list string) (s : State W) :
  exists (found : bool) (tried rest : list string),
    outcome (waitForResults sels s) = Ok found /\
    sels = tried ++ rest /\
    waits (events (waitForResults sels s)) = tried /\
    (found = false -> rest = []) /\
    (found = true ->
     exists before sel,
       tried = before ++ [sel] /\
       In (Console ("✅ Found search results using selector: " +:+ sel))
          (events (waitForResults sels s))).
Proof.
  revert s. induction sels as [|sel sels IH]; intros s.
  - exists false, [], []. simpl. repeat split; auto. discriminate.
  - rewrite waitForResults_step.
    destruct (waitForSelector sel (world s)) as [[[]|e] w1].
    + exists true, [sel], sels.
      split; [reflexivity | split; [reflexivity | split; [reflexivity | split]]];
        [discriminate |].
      intros _. exists [], sel. split; [reflexivity |]. right. now left.
    + destruct (IH (mkState (created s) (ready s) w1))
        as (found & tried & rest & Hout & -> & Hw & Hfalse & Htrue).
      unfold outcome, events in *.
      destruct (waitForResults (tried ++ rest) (mkState (created s) (ready s) w1))
        as [[r s2] t2]. cbn [fst snd] in *. subst r.
      exists found, (sel :: tried), rest.
      split; [reflexivity | split; [reflexivity | split; [| split; [exact Hfalse |]]]].
      * unfold waits in *. cbn. now rewrite Hw.
      * intros Hf. destruct (Htrue Hf) as (before & x & -> & Hin).
        exists (sel :: before), x. split; [reflexivity |]. do 3 right. exact Hin.
Qed.

Lemma waitForResults_time_out (sels : list string) :
  forall (s : State W) (w1 : W),
    time_out sels (world s) w1 ->
    outcome (waitForResults sels s) = Ok false /\
    final (waitForResults sels s) = mkState (created s) (ready s) w1 /\
    waits (events (waitForResults sels s)) = sels.
Proof.
  induction sels as [|sel rest IH]; intros s w1 Hout.
  - inversion Hout; subst. destruct s as [c r w]. simpl. auto.
  - inversion Hout as [| sel' rest' e w w2 w3 Hwait Hrest]; subst.
    rewrite waitForResults_step, Hwait.
    destruct (IH (mkState (created s) (ready s) w2) w1 Hrest) as (Ho & Hf & Hw).
    unfold outcome, final, events in *.
    destruct (waitForResults rest (mkState (created s) (ready s) w2)) as [[r s2] t2].
    cbn [fst snd created ready world] in *. subst r s2.
    split; [reflexivity | split; [reflexivity |]].
    unfold waits in *. cbn. now rewrite Hw.
Qed.

Lemma waitForResults_found (before after : list string) (sel : string) :
  forall (s : State W) (w1 w2 : W),
    time_out before (world s) w1 ->
    waitForSelector sel w1 = (Ok tt, w2) ->
    outcome (waitForResults (before ++ sel :: after) s) = Ok true /\
    final (waitForResults (before ++ sel :: after) s) = mkState (created s) (ready s) w2 /\
    waits (events (waitForResults (before ++ sel :: after) s)) = before ++ [sel] /\
    In (Console ("✅ Found search results using selector: " +:+ sel))
       (events (waitForResults (before ++ sel :: after) s)).
Proof.
  induction before as [|b before IH]; intros s w1 w2 Hout Hsel.
  - inversion Hout; subst. simpl app. rewrite waitForResults_step, Hsel.
    unfold outcome, final, events. cbn [fst snd].
    split; [reflexivity | split; [reflexivity | split; [reflexivity |]]].
    right. now left.
  - inversion Hout as [| sel' rest' e w w3 w4 Hwait Hrest]; subst.
    simpl app. rewrite waitForResults_step, Hwait.
    destruct (IH (mkState (created s) (ready s) w3) w1 w2 Hrest Hsel)
      as (Ho & Hf & Hw & Hin).
    unfold outcome, final, events in *.
    destruct (waitForResults (before ++ sel :: after) (mkState (created s) (ready s) w3))
      as [[r s2] t2].
    cbn [fst snd created ready world] in *. subst r s2.
    split; [reflexivity | split; [reflexivity | split]].
    + unfold waits in *. cbn. now rewrite Hw.
    + do 3 right. exact Hin.
Qed.

(** X9.  The wait for a results container cannot fail and tries the
    candidates in order, each on the browser the wait before it left.  It
    stops at the first candidate that appears: when the candidates before
    [sel] are each waited for in vain and the wait for [sel] returns, the
    answer is true, the selectors waited for are those up to [sel] and no
    other, the "Found" line of [sel] is printed and the browser is as
    that wait left it.  It answers false when every candidate of the list
    was waited for in vain, having waited for each.  In every case the
    selectors waited for are a prefix of the list. *)
Theorem results_wait_stops_at_first_container (sels : list string) (s : State W) :
  (forall (before after : list string) (sel : string) (w1 w2 : W),
     sels = before ++ sel :: after ->
     time_out before (world s) w1 ->
     waitForSelector sel w1 = (Ok tt, w2) ->
     outcome (waitForResults sels s) = Ok true /\
     final (waitForResults sels s) = mkState (created s) (ready s) w2 /\
     waits (events (waitForResults sels s)) = before ++ [sel] /\
     In (Console ("✅ Found search results using selector: " +:+ sel))
        (events (waitForResults sels s))) /\
  (forall w1 : W,
     time_out sels (world s) w1 ->
     outcome (waitForResults sels s) = Ok false /\
     final (waitForResults sels s) = mkState (created s) (ready s) w1 /\
     waits (events (waitForResults sels s)) = sels) /\
  (exists (found : bool) (tried rest : list string),
     outcome (waitForResults sels s) = Ok found /\
     sels = tried ++ rest /\
     waits (events (waitForResults sels s)) = tried /\
     (found = false -> rest = [])).
Proof.
  split; [| split].
  - intros before after sel w1 w2 -> Hout Hsel. now apply (waitForResults_found _ _ _ s w1 w2).
  - intros w1. apply waitForResults_time_out.
  - destruct (waitForResults_prefix sels s)
      as (found & tried & rest & Ho & Hs & Hw & Hfalse & _).
    exists found, tried, rest. auto.
Qed.

(** X10.  A search on an initialised scraper navigates to the search URL
    first and, whatever the browser answers, to nothing but the search URL
    and the login page: its navigations are the search URL alone, the
    search URL and the login page, or the search URL, the login page and
    the search URL again. *)
Theorem search_visits_only_search_and_login (f : SearchFilters) (s : State W) :
  ready s = true ->
  In (gotos (events (searchPeople f s)))
     [ [buildSearchUrl f];
       [buildSearchUrl f; loginUrl];
       [buildSearchUrl f; loginUrl; buildSearchUrl f] ].
Proof.
  intros Hr. pose proof (navigate_gotos f s Hr) as Hnav.
  rewrite (searchPeople_run f s Hr). unfold events in *.
  destruct (navigate f s) as [[[[]|e] s1] t1]; simpl in Hnav |- *.
  - pose proof (extractProfileLinks_quiet s1) as Hq. unfold events in Hq.
    destruct (extractProfileLinks s1) as [[[ps|e] s2] t2]; cbn [snd] in *;
      rewrite ?gotos_app, (gotos_quiet _ Hq), ?app_nil_r; exact Hnav.
  - cbn [snd]. now rewrite gotos_app, app_nil_r.
Qed.

(** X11.  The extraction step cannot fail and does not navigate: from
    any state it returns the records the row loop keeps of some list of
    rows, it makes no navigation, and it leaves the scraper as it is. *)
Theorem extraction_never_fails (s : State W) :
  exists rows,
    outcome (extractProfileLinks s) = Ok (kept_records rows 0) /\
    gotos (events (extractProfileLinks s)) = [] /\
    created (final (extractProfileLinks s)) = created s /\
    ready (final (extractProfileLinks s)) = ready s.
Proof.
  destruct (extractProfileLinks_total s) as [ps Hps].
  destruct (extractProfileLinks_kept s ps Hps) as [rows ->].
  exists rows. split; [exact Hps |]. split.
  - apply gotos_quiet, extractProfileLinks_quiet.
  - apply extractProfileLinks_flags.
Qed.

(** The tool handler around [searchPeople], once the scraper exists. *)
Lemma callTool_search_run (args : gmap string string) (s : State W) :
  created s = true ->
  callTool "search-linkedin-people" args s =
    match searchPeople (filters_of_args args) s with
    | (Ok ps, s1, t) =>
        (Ok {| success := true; count := length ps; profiles := ps;
               filters := filters_of_args args |}, s1,
         Console "🚀 Starting LinkedIn People Search..." ::
         Console "📝 Search Filters:" :: t)
    | (Throw e, s1, t) =>
        (Throw (McpError InternalError ("LinkedIn search failed: " +:+ exn_message e)), s1,
         Console "🚀 Starting LinkedIn People Search..." ::
         Console "📝 Search Filters:" :: t ++ [Console "❌ LinkedIn search error:"])
    end.
Proof.
  intros Hc.
  unfold callTool, search_tool, initializeScraper, is_created, try_catch, bind, console,
    throw, ret.
  cbn -[searchPeople]. rewrite Hc. cbn -[searchPeople].
  destruct (searchPeople (filters_of_args args) s) as [[[ps|e] s1] t]; cbn.
  - now rewrite ?app_nil_r.
  - now rewrite ?app_nil_r.
Qed.

Lemma navigate_goto_throws (f : SearchFilters) (s : State W) (e : exn) (w1 : W) :
  goto (buildSearchUrl f) (world s) = (Throw e, w1) ->
  navigate f s =
    (Throw e, mkState (created s) (ready s) w1,
     Console "🔍 Searching for people with filters:" ::
     List.map Console (diagnostics f) ++
     [ Console ("🌐 Navigating to: " +:+ buildSearchUrl f); Goto (buildSearchUrl f) ]).
Proof.
  intros Hgoto. unfold navigate, bind, console, console_lines, call. simpl.
  rewrite Hgoto. reflexivity.
Qed.

(** X12.  When the navigation to the search URL throws, the search tool
    fails with that error's message after "LinkedIn search failed: ":
    the search URL is the only address visited, no login is attempted and
    no extraction call is made. *)
Theorem navigation_failure_is_reported
  (args : gmap string string) (s : State W) (e : exn) (w1 : W) :
  created s = true -> ready s = true ->
  goto (buildSearchUrl (filters_of_args args)) (world s) = (Throw e, w1) ->
  outcome (callTool "search-linkedin-people" args s)
    = Throw (McpError InternalError ("LinkedIn search failed: " +:+ exn_message e)) /\
  gotos (events (callTool "search-linkedin-people" args s))
    = [buildSearchUrl (filters_of_args args)] /\
  forallb (fun ev => negb (is_extraction ev))
    (events (callTool "search-linkedin-people" args s)) = true /\
  final (callTool "search-linkedin-people" args s) = mkState true true w1.
Proof.
  intros Hc Hr Hgoto.
  rewrite (callTool_search_run args s Hc), (searchPeople_run _ s Hr),
    (navigate_goto_throws _ s e w1 Hgoto).
  unfold outcome, events, final. cbn [fst snd]. rewrite Hc, Hr.
  split; [reflexivity | split; [| split; [| reflexivity]]].
  - rewrite !gotos_cons. cbn [goto_target].
    rewrite !gotos_app, gotos_cons. cbn [goto_target].
    rewrite gotos_app, gotos_consoles. reflexivity.
  - cbn [forallb is_extraction negb andb].
    rewrite !forallb_app. cbn [forallb is_extraction negb andb].
    rewrite forallb_app, no_extraction_consoles. reflexivity.
Qed.

End NavigationFacts.

(** ** The login step *)

Section LoginFacts.

Import Encoder Extract Scraper Trace Rows Session.
Context {W : Type} `{Browser W}.

(** X13.  Once the login form has been filled in and submitted without
    an exception, the verdict of the login depends on the address shown
    after the wait alone: it is true exactly when the address does not
    contain "/challenge/" and contains "/feed/" or "/in/".  The
    security-challenge error the step raises is caught by the step itself
    and becomes the verdict false.  The save of the session cookies is
    attempted exactly when the verdict is true; it is reported as done
    exactly when, in addition, the save does not throw, and a save that
    throws is reported as an error and leaves the verdict true. *)
Theorem login_verdict_after_submission (s : State W) (w : W) :
  ready s = true ->
  submitted (world s) w ->
  outcome (loginToLinkedIn s)
    = Ok (negb (JS.includes "/challenge/" (url w)) && signed_in (url w)) /\
  (In PersistCookies (events (loginToLinkedIn s))
   <-> negb (JS.includes "/challenge/" (url w)) && signed_in (url w) = true) /\
  (In (Console "💾 Session cookies saved") (events (loginToLinkedIn s))
   <-> negb (JS.includes "/challenge/" (url w)) && signed_in (url w) = true /\
       exists w', persistCookies w = (Ok tt, w')) /\
  (In (Console "❌ Error saving cookies:") (events (loginToLinkedIn s))
   <-> negb (JS.includes "/challenge/" (url w)) && signed_in (url w) = true /\
       exists e w', persistCookies w = (Throw e, w')).
Proof.
  intros Hr (w1 & w2 & w3 & w4 & w5 & w6 & w7 & H1 & H2 & Hout & H3 & H4 & H5 & H6 & H7 & H8).
  unfold loginToLinkedIn, saveCookies, try_catch, bind, page_is_null, page_url, console,
    call, throw, ret, outcome, events.
  cbn [fst snd created ready world]. rewrite Hr. cbn [negb].
  rewrite H1. cbn [fst snd created ready world]. rewrite H2.
  cbn [fst snd created ready world]. rewrite Hout.
  cbn [fst snd created ready world]. rewrite H3.
  cbn [fst snd created ready world]. rewrite H4.
  cbn [fst snd created ready world]. rewrite H5.
  cbn [fst snd created ready world]. rewrite H6.
  cbn [fst snd created ready world]. rewrite H7.
  cbn [fst snd created ready world]. rewrite H8.
  cbn [fst snd created ready world].
  destruct (JS.includes "/challenge/" (url w)); cbn [negb andb fst snd].
  - split; [reflexivity |]. split; [| split].
    + split; [| discriminate]. simpl.
      intros Hin. repeat (destruct Hin as [Hin | Hin]; [discriminate Hin |]). destruct Hin.
    + split; [intros Hin; simpl in Hin;
               repeat (destruct Hin as [Hin | Hin]; [discriminate Hin |]); destruct Hin
              | intros [Hf _]; discriminate Hf].
    + split; [intros Hin; simpl in Hin;
               repeat (destruct Hin as [Hin | Hin]; [discriminate Hin |]); destruct Hin
              | intros [Hf _]; discriminate Hf].
  - destruct (signed_in (url w)); cbn [fst snd created ready world].
    + rewrite Hr. simpl.
      destruct (persistCookies w) as [[[]|e] w'] eqn:Hsave; simpl;
        (split; [reflexivity |]); (split; [split; [reflexivity | intros _; tauto] |]).
      * split.
        -- split; [intros _; split; [reflexivity | now exists w'] | intros _; tauto].
        -- split.
           ++ intros Hin. repeat (destruct Hin as [Hin | Hin]; [discriminate Hin |]).
              destruct Hin.
           ++ intros [_ (e & w'' & Hx)]. discriminate Hx.
      * split.
        -- split.
           ++ intros Hin. repeat (destruct Hin as [Hin | Hin]; [discriminate Hin |]).
              destruct Hin.
           ++ intros [_ (w'' & Hx)]. discriminate Hx.
        -- split; [intros _; split; [reflexivity | now exists e, w'] | intros _; tauto].
    + split; [reflexivity |]. split; [| split].
      * split; [| discriminate]. simpl.
        intros Hin. repeat (destruct Hin as [Hin | Hin]; [discriminate Hin |]). destruct Hin.
      * split; [intros Hin; simpl in Hin;
               repeat (destruct Hin as [Hin | Hin]; [discriminate Hin |]); destruct Hin
              | intros [Hf _]; discriminate Hf].
      * split; [intros Hin; simpl in Hin;
               repeat (destruct Hin as [Hin | Hin]; [discriminate Hin |]); destruct Hin
              | intros [Hf _]; discriminate Hf].
Qed.

(** X14.  Whatever the browser does, the login step writes the session
    cookies only in a run in which it clicked the submit button and whose
    verdict is true: a login found already signed in, a failed login and
    a login interrupted by an exception leave the cookie file alone. *)
Theorem cookies_are_saved_only_after_a_successful_login (s : State W) :
  In PersistCookies (events (loginToLinkedIn s)) ->
  outcome (loginToLinkedIn s) = Ok true /\
  In (Click submit_button) (events (loginToLinkedIn s)).
Proof.
  unfold loginToLinkedIn, saveCookies, try_catch, bind, page_is_null, page_url, console,
    call, throw, ret, outcome, events.
  destruct (ready s) eqn:Hr; simpl; [| intros []].
  repeat (match goal with
          | |- context [goto ?u ?w] => destruct (goto u w) as [[[]|?] ?]
          | |- context [waitForTimeout ?n ?w] => destruct (waitForTimeout n w) as [[[]|?] ?]
          | |- context [waitFor ?c ?w] => destruct (waitFor c w) as [[[]|?] ?]
          | |- context [fill ?c ?w] => destruct (fill c w) as [[[]|?] ?]
          | |- context [click ?c ?w] => destruct (click c w) as [[[]|?] ?]
          | |- context [persistCookies ?w] => destruct (persistCookies w) as [[[]|?] ?]
          | |- context [signed_in ?u] => destruct (signed_in u)
          | |- context [JS.includes ?p ?u] => destruct (JS.includes p u)
          end; simpl; rewrite ?Hr; simpl);
    intuition congruence.
Qed.

End LoginFacts.

(** ** Full-profile extraction *)

Section ProfileFacts.

Import Encoder Extract Scraper Trace Rows Pages Profile Sections.
Context {W : Type} `{Browser W}.

Lemma nonblank_nonempty (t : option string) (v : string) :
  nonblank t = Some v -> v <> EmptyString.
Proof.
  unfold nonblank. destruct (JS.truthy t) as [x|]; [| discriminate].
  destruct (JS.is_empty (JS.trim x)) eqn:Hb; [discriminate |].
  intros [= <-] Heq. now rewrite Heq in Hb.
Qed.

Lemma total_lift_throw_free {A : Type} (a : A) : total (lift_result (Ok a) : M W A).
Proof. intros s. now exists a. Qed.

Lemma pageText_total (what : string) (sels : list string) :
  total (pageText what sels : M W _).
Proof.
  induction sels as [|sel rest IH]; simpl; [apply total_ret |].
  apply total_bind.
  - apply total_try_catch. intros e.
    apply total_bind; [apply total_console | intros _; apply total_ret].
  - intros [v|]; [apply total_ret | exact IH].
Qed.

Lemma pageText_nonempty (what : string) (sels : list string) :
  returns (pageText what sels : M W _)
    (fun found => forall v, found = Some v -> v <> EmptyString).
Proof.
  induction sels as [|sel rest IH]; simpl.
  - apply returns_ret. discriminate.
  - apply (returns_bind_post _ _
             (fun found => forall v, found = Some v -> v <> EmptyString)).
    + apply returns_try_catch.
      * apply returns_bind. intros el. apply returns_bind. intros t.
        apply returns_ret. intros v. apply nonblank_nonempty.
      * intros e. apply returns_bind. intros _. apply returns_ret. discriminate.
    + intros [v|] Hv; [apply returns_ret; exact Hv | exact IH].
Qed.

Lemma extractProfileNameFromPage_total : total (extractProfileNameFromPage : M W _).
Proof.
  unfold extractProfileNameFromPage. apply total_bind; [apply total_page_is_null |].
  intros [|]; [apply total_ret |].
  apply total_bind; [apply pageText_total | intros ?; apply total_ret].
Qed.

Lemma extractProfileNameFromPage_nonempty :
  returns (extractProfileNameFromPage : M W _) (fun n => n <> EmptyString).
Proof.
  unfold extractProfileNameFromPage. apply returns_bind. intros [|].
  - apply returns_ret. discriminate.
  - apply (returns_bind_post _ _ _ _ (pageText_nonempty "name" nameSelectorsOnPage)).
    intros [v|] Hv; apply returns_ret; simpl; [now apply Hv | discriminate].
Qed.

Lemma extractProfileHeadlineFromPage_total : total (extractProfileHeadlineFromPage : M W _).
Proof.
  unfold extractProfileHeadlineFromPage. apply total_bind; [apply total_page_is_null |].
  intros [|]; [apply total_ret | apply pageText_total].
Qed.

Lemma extractProfileLocation_total : total (extractProfileLocation : M W _).
Proof.
  unfold extractProfileLocation. apply total_bind; [apply total_page_is_null |].
  intros [|]; [apply total_ret | apply pageText_total].
Qed.

Lemma guarded_section_total {A : Type} (body : M W A) (line : string) (a : A) :
  total (null <- page_is_null ;;
         if null then ret a
         else try_catch body (fun _ => console line ;; ret a))%scraper.
Proof.
  apply total_bind; [apply total_page_is_null |].
  intros [|]; [apply total_ret |].
  apply total_try_catch. intros e.
  apply total_bind; [apply total_console | intros _; apply total_ret].
Qed.

(** X15.  On an initialised scraper the data extraction of a profile
    always returns the full record: the URL it was given, a name that is
    not empty, and the experience, education and skills lists all present
    (possibly empty).  Every step it calls catches its own exceptions, so
    the reduced record of its [catch] (the name "Unknown" and the URL, the
    lists absent) is never returned. *)
Theorem profile_extraction_never_falls_back (u : string) (s : State W) :
  ready s = true ->
  exists p,
    outcome (extractProfileData u s) = Ok p /\
    fullProfileUrl p = u /\
    fullName p <> EmptyString /\
    experience p <> None /\ education p <> None /\ skills p <> None.
Proof.
  intros Hr. unfold extractProfileData.
  match goal with
  | |- context [try_catch ?b ?h] => set (body := b); set (handler := h)
  end.
  assert (Htotal : total body).
  { subst body.
    apply total_bind; [apply extractProfileNameFromPage_total | intros ?].
    apply total_bind; [apply extractProfileHeadlineFromPage_total | intros ?].
    apply total_bind; [apply extractProfileLocation_total | intros ?].
    apply total_bind; [apply guarded_section_total | intros ?].
    apply total_bind; [apply guarded_section_total | intros ?].
    apply total_bind; [apply guarded_section_total | intros ?].
    apply total_bind; [apply guarded_section_total | intros ?].
    apply total_ret. }
  assert (Hshape : returns body
            (fun p => fullProfileUrl p = u /\ fullName p <> EmptyString /\
                      experience p <> None /\ education p <> None /\
                      skills p <> None)).
  { subst body.
    apply (returns_bind_post _ _ _ _ extractProfileNameFromPage_nonempty).
    intros n Hn. do 6 (apply returns_bind; intros ?). apply returns_ret. simpl.
    repeat split; try assumption; discriminate. }
  clearbody body handler.
  destruct (Htotal s) as [p Hp]. exists p.
  split; [| exact (Hshape s p Hp)].
  unfold bind, page_is_null, outcome. rewrite Hr. cbn [negb fst snd].
  rewrite (try_catch_total body handler s Htotal).
  unfold outcome in Hp. destruct (body s) as [[r s1] t1]. cbn in *. exact Hp.
Qed.

Lemma collectRows_run {A : Type} (what : string) (item : Element -> result (option A))
  (rows : list Element) (acc : list A) (s : State W) :
  collectRows what item rows acc s =
    (Ok (acc ++ kept_items item rows), s,
     List.map (fun _ => row_error what) (failed_rows item rows)).
Proof.
  revert acc. induction rows as [|row rest IH]; intros acc; simpl.
  - unfold ret. now rewrite app_nil_r.
  - unfold kept_items, failed_rows in *. simpl.
    destruct (item row) as [[a|]|e]; simpl.
    + rewrite IH. now rewrite <- app_assoc.
    + apply IH.
    + unfold bind, console. simpl. rewrite IH. reflexivity.
Qed.

(** X16.  In the loop over the rows of a profile section (experience,
    education, skills) a row whose extraction throws costs only itself:
    the loop returns, in order, the items of the rows that yield one,
    whatever the other rows do, prints one error line for each row that
    throws, and leaves the browser as it is. *)
Theorem section_row_failures_are_local {A : Type} (what : string)
  (item : Element -> result (option A)) (rows : list Element) (s : State W) :
  outcome (collectRows what item rows [] s) = Ok (kept_items item rows) /\
  final (collectRows what item rows [] s) = s /\
  events (collectRows what item rows [] s)
    = List.map (fun _ => row_error what) (failed_rows item rows) /\
  forall before after : list Element,
    kept_items item (before ++ after) = kept_items item before ++ kept_items item after.
Proof.
  rewrite collectRows_run. repeat split.
  intros before after. unfold kept_items. apply omap_app.
Qed.

Lemma pageText_quiet (what : string) (sels : list string) :
  emits_only (fun ev => negb (is_goto ev)) (pageText what sels : M W _).
Proof. induction sels as [|sel rest IH]; simpl; emits. Qed.

Lemma aboutText_quiet (sels : list string) :
  emits_only (fun ev => negb (is_goto ev)) (aboutText sels : M W _).
Proof. induction sels as [|sel rest IH]; simpl; emits. Qed.

Lemma collectRows_quiet {A : Type} (what : string) (item : Element -> result (option A))
  (rows : list Element) (acc : list A) :
  emits_only (fun ev => negb (is_goto ev)) (collectRows what item rows acc : M W _).
Proof.
  intros s. rewrite collectRows_run. unfold events. cbn [snd].
  induction (failed_rows item rows) as [|row rest IH]; [reflexivity | exact IH].
Qed.

Lemma sectionRows_quiet {A : Type} (what : string) (item : Element -> result (option A))
  (sels : list string) :
  emits_only (fun ev => negb (is_goto ev)) (sectionRows what item sels : M W _).
Proof.
  induction sels as [|sel rest IH]; simpl; emits. apply collectRows_quiet.
Qed.

Lemma getSkillElements_from_quiet (sels : list string) :
  emits_only (fun ev => negb (is_goto ev)) (getSkillElements_from sels : M W _).
Proof. induction sels as [|sel rest IH]; simpl; emits. Qed.

Lemma extractProfileData_quiet (u : string) :
  emits_only (fun ev => negb (is_goto ev)) (extractProfileData u : M W _).
Proof.
  unfold extractProfileData, extractProfileNameFromPage, extractProfileHeadlineFromPage,
    extractProfileLocation, extractProfileAbout, extractProfileExperience,
    extractProfileEducation, extractProfileSkills, expandSkillsSection, getSkillElements,
    extractSkillNamesFromElements, expand.
  emits;
    first [apply pageText_quiet | apply aboutText_quiet | apply sectionRows_quiet
          | apply collectRows_quiet | apply getSkillElements_from_quiet].
Qed.

(** X17.  Scraping a profile on an initialised scraper navigates to the
    address it was given first, taken as it is, and, whatever the browser
    answers, to nothing but that address and the login page: the
    navigations are the address alone, the address and the login page, or
    the address, the login page and the address again. *)
Theorem profile_scrape_visits_only_profile_and_login (u : string) (s : State W) :
  ready s = true ->
  In (gotos (events (scrapeProfile u s))) [ [u]; [u; loginUrl]; [u; loginUrl; u] ].
Proof.
  intros Hr.
  assert (Hlogin : forall w,
            gotos (events (loginToLinkedIn (mkState (created s) (ready s) w))) = [loginUrl])
    by (intros w; now apply loginToLinkedIn_gotos).
  assert (Hdata : forall s', gotos (events (extractProfileData u s')) = [])
    by (intros s'; apply gotos_quiet, extractProfileData_quiet).
  unfold scrapeProfile.
  generalize dependent (loginToLinkedIn (W := W)). intros login Hlogin.
  generalize dependent (extractProfileData (W := W) u). intros data Hdata.
  unfold try_catch, bind, page_is_null, console, call, read, throw, ret, events in *.
  rewrite Hr. simpl.
  destruct (goto u (world s)) as [[[]|e] w1]; simpl; [| auto].
  destruct (waitForTimeout 5000%N w1) as [[[]|e] w2]; simpl; [| auto].
  destruct (isVisible session_key w2) as [[|]|e]; simpl; [| | auto].
  - specialize (Hlogin w2).
    destruct (login (mkState (created s) (ready s) w2)) as [[[[|]|e] s3] t3]; simpl in *.
    + destruct (goto u (world s3)) as [[[]|e] w3]; simpl.
      * destruct (waitForTimeout 5000%N w3) as [[[]|e] w4]; simpl.
        -- specialize (Hdata (mkState (created s3) (ready s3) w4)).
           destruct (data (mkState (created s3) (ready s3) w4)) as [[[p|e] s5] t5];
             simpl in *; rewrite ?gotos_app, ?Hlogin; simpl;
             rewrite ?gotos_app, ?Hdata; simpl; auto.
        -- rewrite ?gotos_app, ?Hlogin; simpl; auto.
      * rewrite ?gotos_app, ?Hlogin; simpl; auto.
    + rewrite ?gotos_app, ?Hlogin; simpl; auto.
    + rewrite ?gotos_app, ?Hlogin; simpl; auto.
  - specialize (Hdata (mkState (created s) (ready s) w2)).
    destruct (data (mkState (created s) (ready s) w2)) as [[[p|e] s5] t5];
      simpl in *; rewrite ?gotos_app, ?Hdata; simpl; auto.
Qed.

End ProfileFacts.

(** ** The tool handler with two tools *)

Section ServerFacts.

Import Encoder Extract Scraper Trace Rows Pages Profile.
Context {W : Type} `{Browser W} `{Host W}.

(** X18.  The profile tool refuses a call whose [profileUrl] argument is
    missing or is the empty string: it raises InvalidParams before anything
    is printed, before the scraper is created and without a call to the
    browser, whatever the state. *)
Theorem profile_url_is_required (args : gmap string string) (s : State W) :
  args !! "profileUrl" = None \/ args !! "profileUrl" = Some EmptyString ->
  Server.callTool "scrape-linkedin-profile" args s
  = (Throw (McpError InvalidParams "profileUrl is required for scrape-linkedin-profile tool"),
     s, []).
Proof.
  intros Harg. unfold Server.callTool, Server.profile_tool. cbn [String.eqb Ascii.eqb].
  assert (Ht : JS.truthy (args !! "profileUrl") = None)
    by (destruct Harg as [-> | ->]; reflexivity).
  simpl. rewrite Ht. reflexivity.
Qed.

Lemma scrapeProfile_url (u : string) :
  returns (scrapeProfile u : M W _) (fun p => fullProfileUrl p = u).
Proof.
  unfold scrapeProfile. apply returns_bind. intros [|]; [apply returns_throw |].
  apply returns_try_catch.
  - do 5 (apply returns_bind; intros ?).
    intros s p Hp. now apply (extractProfileData_url u s p Hp).
  - intros e. apply returns_bind. intros _. apply returns_throw.
Qed.

(** X19.  A call of the profile tool that returns carries success true
    and a profile whose URL is the [profileUrl] argument, which is not
    empty.  A call that fails raises InvalidParams for the missing
    argument or an InternalError whose message is
    "LinkedIn profile scraping failed: " followed by the message of the
    cause. *)
Theorem profile_tool_outcomes (args : gmap string string) (s : State W) :
  (forall response,
     outcome (Server.callTool "scrape-linkedin-profile" args s) = Ok response ->
     exists p,
       response = ProfileResult true p /\
       args !! "profileUrl" = Some (fullProfileUrl p) /\
       fullProfileUrl p <> EmptyString) /\
  (forall e,
     outcome (Server.callTool "scrape-linkedin-profile" args s) = Throw e ->
     e = Server.profileUrl_required \/
     exists cause,
       e = McpError InternalError
             ("LinkedIn profile scraping failed: " +:+ exn_message cause)).
Proof.
  unfold Server.callTool, Server.profile_tool. cbn [String.eqb Ascii.eqb]. simpl.
  destruct (JS.truthy (args !! "profileUrl")) as [u|] eqn:Hu.
  - apply truthy_Some in Hu as [Harg Hne]. split.
    + revert s.
      change (returns
                (try_catch
                   (console "🚀 Starting LinkedIn Profile Scrape..." ;;
                    console "📝 Profile URL:" ;;
                    try_catch
                      (Server.initializeScraper ;;
                       profile <- scrapeProfile u ;;
                       ret (ProfileResult true profile))
                      (fun error =>
                         console "❌ LinkedIn profile scrape error:" ;;
                         throw (McpError InternalError
                                  ("LinkedIn profile scraping failed: " +:+
                                   exn_message error))))%scraper
                   (fun error =>
                      match error with
                      | McpError _ _ => throw error
                      | JsError m =>
                          throw (McpError InternalError
                                   ("Tool execution failed: Error: " +:+ m))
                      end) : M W _)
                (fun response =>
                   exists p, response = ProfileResult true p /\
                             args !! "profileUrl" = Some (fullProfileUrl p) /\
                             fullProfileUrl p <> EmptyString)).
      apply returns_try_catch.
      * apply returns_bind. intros _. apply returns_bind. intros _.
        apply returns_try_catch.
        -- apply returns_bind. intros _.
           apply (returns_bind_post _ _ _ _ (scrapeProfile_url u)).
           intros p Hp. apply returns_ret. exists p. rewrite Hp. auto.
        -- intros e. apply returns_bind. intros _. apply returns_throw.
      * intros [m|c m]; apply returns_throw.
    + intros e He. right.
      apply try_catch_thrown in He as (cause & Hcause & He).
      rewrite (proj1 (bind_console_outcome _ _ _)),
        (proj1 (bind_console_outcome _ _ _)) in Hcause.
      apply try_catch_thrown in Hcause as (c & _ & Hc).
      rewrite (proj1 (bind_console_outcome _ _ _)) in Hc. injection Hc as <-.
      injection He as <-. now exists c.
  - split.
    + intros response Hr. discriminate Hr.
    + intros e He. left. now injection He as <-.
Qed.

Lemma server_initializeScraper_agrees (s : State W) :
  created s = true \/
  (loadConfig (world s) = Ok tt /\ Server.loadConfig (world s) = Ok tt) ->
  Server.initializeScraper s = initializeScraper s.
Proof.
  intros Hcase.
  unfold Server.initializeScraper, initializeScraper, Server.construct, construct,
    is_created, bind. cbv beta iota.
  destruct (created s) eqn:Hc; [reflexivity |].
  destruct Hcase as [Hx | [Hindex Hvariant]]; [discriminate Hx |].
  now rewrite Hindex, Hvariant.
Qed.

(** X20.  The two-tool handler differs from the handler of
    [src/index.ts], on the search tool, in the loading of the
    configuration alone.  Once the scraper exists, or when the
    configuration is not taken from the environment and both variants
    load the file, a search through the two-tool handler returns the
    response of the handler of [src/index.ts] or raises the same error,
    with the same final state and the same events.  The
    configuration of the variant loads without reading the file when
    LINKEDIN_EMAIL and LINKEDIN_PASSWORD are both set and not empty; an
    empty value counts as unset; and every failure of it is the error
    "Error loading configuration: ..." that names the two variables, also
    for a file that still holds the template address. *)
Theorem search_tool_differs_only_in_configuration
  (args : gmap string string) (s : State W) :
  (created s = true \/
   ((JS.truthy (getenv "LINKEDIN_EMAIL" (world s)) = None \/
     JS.truthy (getenv "LINKEDIN_PASSWORD" (world s)) = None) /\
    loadConfig (world s) = Ok tt /\ Server.loadConfig (world s) = Ok tt) ->
   Server.callTool "search-linkedin-people" args s =
     match Scraper.callTool "search-linkedin-people" args s with
     | (Ok response, s1, t) => (Ok (SearchResult response), s1, t)
     | (Throw e, s1, t) => (Throw e, s1, t)
     end) /\
  (forall email password : string,
     getenv "LINKEDIN_EMAIL" (world s) = Some email -> email <> EmptyString ->
     getenv "LINKEDIN_PASSWORD" (world s) = Some password -> password <> EmptyString ->
     Server.loadConfig (world s) = Ok tt) /\
  (JS.truthy (getenv "LINKEDIN_EMAIL" (world s)) = None \/
   JS.truthy (getenv "LINKEDIN_PASSWORD" (world s)) = None ->
   Server.loadConfig (world s) =
     match readConfigEmail (world s) with
     | inl email =>
         if String.eqb email "your-email@example.com"
         then Throw (Server.configuration_error
                       "Error: Please update config.json with your LinkedIn credentials")
         else Ok tt
     | inr text => Throw (Server.configuration_error text)
     end) /\
  (forall e, Server.loadConfig (world s) = Throw e ->
             exists text, e = Server.configuration_error text).
Proof.
  split; [| split; [| split]].
  - intros Hcase.
    assert (Hloads : created s = true \/
                     (loadConfig (world s) = Ok tt /\ Server.loadConfig (world s) = Ok tt))
      by (destruct Hcase as [Hc | (_ & Hl)]; [now left | now right]).
    pose proof (server_initializeScraper_agrees s Hloads) as Hinit.
    unfold Server.callTool, Scraper.callTool. cbn [String.eqb Ascii.eqb]. simpl.
    assert (Hsearch : Server.search_tool args s = search_tool args s).
    { unfold Server.search_tool, search_tool, try_catch, bind, console. cbn [fst snd].
      unfold bind in Hinit. now rewrite Hinit. }
    unfold try_catch, bind, ret. rewrite Hsearch.
    destruct (search_tool args s) as [[[response|e] s1] t]; simpl.
    + now rewrite app_nil_r.
    + destruct e as [m|c m]; reflexivity.
  - intros email password He Hne Hp Hnp. unfold Server.loadConfig.
    rewrite He, Hp.
    rewrite (proj2 (truthy_Some (Some email) email) (conj eq_refl Hne)).
    now rewrite (proj2 (truthy_Some (Some password) password) (conj eq_refl Hnp)).
  - intros Hunset. unfold Server.loadConfig.
    destruct (JS.truthy (getenv "LINKEDIN_EMAIL" (world s))) as [x|];
      destruct (JS.truthy (getenv "LINKEDIN_PASSWORD" (world s))) as [y|];
      try reflexivity.
    destruct Hunset as [Hx | Hx]; discriminate Hx.
  - intros e. unfold Server.loadConfig.
    destruct (JS.truthy (getenv "LINKEDIN_EMAIL" (world s))) as [x|];
      destruct (JS.truthy (getenv "LINKEDIN_PASSWORD" (world s))) as [y|];
      try discriminate;
      (destruct (readConfigEmail (world s)) as [email|text];
       [destruct (String.eqb email Server.template_email); [| discriminate] |]);
      intros [= <-]; eexists; reflexivity.
Qed.

End ServerFacts.

(** ** Exceptions in the row extractor, and the variant that guards each
    candidate *)

Section GuardFacts.

Import Extract Rows.

Lemma extractProfileUrl_from_throws (before after : list string) (sel : string)
  (row : Element) (e : exn) :
  (forall c, In c before ->
     exists h, link_href row c = Ok h /\
               forall v, h = Some v -> JS.includes "/in/" v = false) ->
  link_href row sel = Throw e ->
  extractProfileUrl_from (before ++ sel :: after) row = Throw e.
Proof.
  intros Hbefore Hsel. induction before as [|c before IH]; simpl.
  - unfold link_href, result_bind in Hsel. unfold result_bind.
    destruct (query row sel) as [link|x]; [| exact Hsel].
    destruct (opt_getAttribute link "href") as [h|x]; [discriminate Hsel | exact Hsel].
  - destruct (Hbefore c (or_introl eq_refl)) as (h & Hc & Hno).
    unfold link_href, result_bind in Hc. unfold result_bind.
    destruct (query row c) as [link|x]; [| discriminate Hc].
    destruct (opt_getAttribute link "href") as [h'|x]; [| discriminate Hc].
    injection Hc as ->.
    assert (IH' := IH (fun c' Hc' => Hbefore c' (or_intror Hc'))).
    destruct h as [v|]; [| exact IH'].
    now rewrite (Hno v eq_refl).
Qed.

(** X21.  In [src/index.ts] an exception in any query of a row drops the
    row with one error line.  A link candidate that throws ends the link
    chain, whatever the candidates after it would find; and a row whose
    profile link was found is dropped all the same when its name chain or
    its headline chain throws. *)
Theorem throwing_query_drops_the_row (row : Element) (index : nat) (e : exn) :
  (forall (before after : list string) (sel : string),
     linkSelectors = before ++ sel :: after ->
     (forall c, In c before ->
        exists h, link_href row c = Ok h /\
                  forall v, h = Some v -> JS.includes "/in/" v = false) ->
     link_href row sel = Throw e ->
     extractSingleProfile row index = (None, [error_message index])) /\
  (forall u,
     extractProfileUrl row = Ok (Some u) ->
     extractProfileName row index = Throw e ->
     extractSingleProfile row index = (None, [error_message index])) /\
  (forall u n,
     extractProfileUrl row = Ok (Some u) ->
     extractProfileName row index = Ok n ->
     extractProfileHeadline row = Throw e ->
     extractSingleProfile row index = (None, [error_message index])).
Proof.
  assert (Htruthy : forall u, extractProfileUrl row = Ok (Some u) ->
                              JS.truthy (Some u) = Some u).
  { intros u Hu. apply extractProfileUrl_from_found in Hu as (sel & x & _ & _ & _ & ->).
    apply truthy_Some. split; [reflexivity | apply cleanProfileUrl_nonempty]. }
  split; [| split].
  - intros before after sel Hsels Hbefore Hsel.
    unfold extractSingleProfile, extractSingleProfile_body, extractProfileUrl, result_bind.
    now rewrite Hsels, (extractProfileUrl_from_throws before after sel row e Hbefore Hsel).
  - intros u Hu Hn.
    unfold extractSingleProfile, extractSingleProfile_body, result_bind.
    now rewrite Hu, (Htruthy u Hu), Hn.
  - intros u n Hu Hn Hh.
    unfold extractSingleProfile, extractSingleProfile_body, result_bind.
    now rewrite Hu, (Htruthy u Hu), Hn, Hh.
Qed.

(** X22.  In the variant that guards each candidate, the link chain
    cannot fail: a candidate that throws is logged and skipped.  When the
    candidates before [sel] find no profile link, by an empty answer or by
    an exception, and [sel] finds one, the chain returns that link,
    whatever comes after, and the lines written are one per candidate that
    threw, in order. *)
Theorem guarded_link_chain_skips_failures
  (before after : list string) (sel u : string) (row : Element) :
  (forall c v, In c before -> Hardened.link_candidate row c <> Ok (Some v)) ->
  Hardened.link_candidate row sel = Ok (Some u) ->
  Hardened.extractProfileUrl_from (before ++ sel :: after) row
  = (Some u, List.map Hardened.selector_error (List.filter (Hardened.link_failed row) before)).
Proof.
  intros Hbefore Hsel. induction before as [|c before IH]; simpl.
  - now rewrite Hsel.
  - assert (IH' := IH (fun c' v Hc' => Hbefore c' v (or_intror Hc'))).
    unfold Hardened.link_failed at 1.
    destruct (Hardened.link_candidate row c) as [[v|]|x] eqn:Hc; simpl.
    + now contradiction (Hbefore c v (or_introl eq_refl)).
    + exact IH'.
    + now rewrite IH'.
Qed.

Lemma hardened_link_prefix (sels more : list string) (row : Element) (u : string) :
  extractProfileUrl_from sels row = Ok (Some u) ->
  Hardened.extractProfileUrl_from (sels ++ more) row = (Some u, []).
Proof.
  induction sels as [|sel rest IH]; simpl; [discriminate |].
  unfold Hardened.link_candidate, result_bind.
  destruct (query row sel) as [link|x]; [| discriminate].
  destruct (opt_getAttribute link "href") as [[h|]|x]; [| exact IH | discriminate].
  destruct (JS.includes "/in/" h); [| exact IH].
  now intros [= <-].
Qed.

Lemma hardened_name_prefix (sels more : list string) (row : Element) (index : nat)
  (n : string) :
  extractProfileName_from sels row index = Ok n ->
  Hardened.extractProfileName_from (sels ++ more) row index = (n, []) \/
  n = placeholder_name index.
Proof.
  induction sels as [|sel rest IH]; simpl.
  - intros [= <-]. now right.
  - unfold Hardened.name_candidate, result_bind.
    destruct (query row sel) as [[h|]|x]; [| exact IH | discriminate].
    destruct (text_or_empty h) as [t|x]; [| discriminate].
    destruct (JS.is_empty (JS.trim t)); [exact IH |].
    intros [= <-]. now left.
Qed.

(** X23.  The variant with guarded candidates keeps every row that
    [src/index.ts] keeps, with the same profile URL and the same
    headline, and with the same name unless the name of [src/index.ts]
    is the positional "Profile N" (the variant then tries five more
    name candidates). *)
Theorem guarded_variant_keeps_what_the_original_keeps
  (row : Element) (index : nat) (p : LinkedInProfileLink) :
  (extractSingleProfile row index).1 = Some p ->
  exists q,
    (Hardened.extractSingleProfile row index).1 = Some q /\
    profileUrl q = profileUrl p /\
    headline q = headline p /\
    (name q = name p \/ name p = placeholder_name index).
Proof.
  intros Hp. apply extractSingleProfile_kept in Hp as (Hu & Hn & Hh & _).
  assert (Ht : JS.truthy (Some (profileUrl p)) = Some (profileUrl p)).
  { pose proof Hu as Hu'.
    apply extractProfileUrl_from_found in Hu' as (sel & x & _ & _ & _ & ->).
    apply truthy_Some. split; [reflexivity | apply cleanProfileUrl_nonempty]. }
  assert (Hth : JS.truthy (headline p) = headline p).
  { destruct (headline p) as [v|] eqn:Hv; [| reflexivity].
    apply extractProfileHeadline_found in Hh. simpl. now destruct v. }
  unfold Hardened.extractSingleProfile, Hardened.extractProfileUrl, Hardened.extractProfileName.
  change Hardened.linkSelectors
    with (linkSelectors ++
          [ ".entity-result__title-text a";
            "a" +:+ attr "data-control-name" "search_srp_result";
            ".entity-result__title-text .app-aware-link";
            "span" +:+ attr "dir" "ltr" +:+ " a" +:+ attr_has "href" "/in/" ]).
  rewrite (hardened_link_prefix _ _ _ _ Hu), Ht.
  destruct (Hardened.extractProfileName_from Hardened.nameSelectors row index)
    as [n lines] eqn:Hname.
  rewrite Hh, Hth. eexists. split; [reflexivity |]. simpl.
  split; [reflexivity | split; [reflexivity |]].
  change Hardened.nameSelectors
    with (nameSelectors ++
          [ ".entity-result__title-text .app-aware-link span" +:+ attr "aria-hidden" "true";
            ".entity-result__title-text span" +:+ attr "dir" "ltr" +:+ " span" +:+
              attr "aria-hidden" "true";
            "span" +:+ attr "dir" "ltr" +:+ " > span" +:+ attr "aria-hidden" "true";
            ".entity-result__title-text a";
            ".entity-result__title-text" ]) in Hname.
  match type of Hname with
  | Hardened.extractProfileName_from (_ ++ ?more) _ _ = _ =>
      destruct (hardened_name_prefix nameSelectors more row index (name p) Hn)
        as [Hsame | Hplace]
  end.
  - rewrite Hsame in Hname. injection Hname as <- _. now left.
  - now right.
Qed.

End GuardFacts.

(** ** The search URL and the tool arguments *)

Section ArgumentFacts.

Import URLSearchParams Encoder Extract Scraper Params.

(** X24.  The parameters read back from the search URL are named
    keywords, origin, geoUrn or network and nothing else, whatever
    characters the filter values contain; there is always at least one;
    and when the effective location is numeric (the default included) the
    keywords travel unchanged: one keywords parameter holding them, or
    none when the keywords are absent or empty. *)
Theorem search_url_parameters (f : SearchFilters) :
  (forall k v, has k v (of_filters f) -> In k ["keywords"; "origin"; "geoUrn"; "network"]) /\
  of_filters f <> [] /\
  (JS.digits_only (effective_location f) = true ->
   getAll "keywords" (of_filters f)
   = match JS.truthy (keywords f) with Some k => [k] | None => [] end).
Proof.
  rewrite of_filters_shape. split; [| split].
  - intros k v Hin. unfold has in Hin. apply in_app_or in Hin as [Hin | Hin].
    + unfold location_part, keywords_part in Hin.
      destruct (JS.digits_only (effective_location f)).
      * destruct (JS.truthy (keywords f)); simpl in Hin;
          repeat (destruct Hin as [[= <- <-] | Hin]; [simpl; tauto |]); destruct Hin.
      * destruct Hin as [[= <- <-] | []]. simpl; tauto.
    + unfold network_part in Hin.
      destruct (JS.truthy (network f)) as [given|]; [| destruct Hin].
      destruct (networkValue (JS.toUpperCase given)); simpl in Hin;
        repeat (destruct Hin as [[= <- <-] | Hin]; [simpl; tauto |]); destruct Hin.
  - unfold location_part, keywords_part.
    destruct (JS.digits_only (effective_location f)); [| discriminate].
    destruct (JS.truthy (keywords f)); discriminate.
  - intros Hd. now rewrite getAll_app, location_part_keywords, network_part_keywords, Hd,
      app_nil_r.
Qed.

(** X25.  Cleaning a profile URL twice is cleaning it once: what
    [cleanProfileUrl] returns has no query string left and already
    starts with "http". *)
Theorem cleanProfileUrl_is_idempotent (u : string) :
  cleanProfileUrl (cleanProfileUrl u) = cleanProfileUrl u.
Proof.
  unfold cleanProfileUrl at 1.
  rewrite (split_head_absent "?" _ (cleanProfileUrl_no_query u)).
  now rewrite cleanProfileUrl_http.
Qed.

(** X26.  The search tool reads the arguments keywords, location and
    network and no other: an argument of any other name changes nothing,
    neither the outcome nor the state nor the events.  It is ignored
    without a diagnostic. *)
Theorem other_arguments_are_ignored {W : Type} `{Browser W}
  (tool k v : string) (args : gmap string string) (s : State W) :
  k <> "keywords" -> k <> "location" -> k <> "network" ->
  callTool tool (<[k := v]> args) s = callTool tool args s.
Proof.
  intros Hk Hl Hn.
  assert (Hf : filters_of_args (<[k := v]> args) = filters_of_args args).
  { unfold filters_of_args. now rewrite !lookup_insert_ne by congruence. }
  unfold callTool, search_tool. now rewrite Hf.
Qed.

End ArgumentFacts.

(** ** Runs *)

Section FurtherRuns.

Import Encoder Extract Scraper Trace Rows Pages Profile Params Session Sections Demo Outage.

Lemma tool_errors_are_protocol_errors_witness :
  exists cause,
    McpError InternalError "LinkedIn search failed: page.goto: net::ERR_INTERNET_DISCONNECTED"
    = McpError InternalError ("LinkedIn search failed: " +:+ exn_message cause).
Proof.
  assert (Hrun : outcome (callTool "search-linkedin-people" ∅ offline)
                 = Throw (McpError InternalError
                            "LinkedIn search failed: page.goto: net::ERR_INTERNET_DISCONNECTED"))
    by (vm_compute; reflexivity).
  pose proof (tool_errors_are_protocol_errors "search-linkedin-people" ∅ offline _ Hrun)
    as Hkind.
  destruct Hkind as [[Hne _] | [_ Hcause]].
  - now contradiction Hne.
  - exact Hcause.
Defined.

Lemma tool_response_shape_witness :
  "search-linkedin-people" = "search-linkedin-people" /\
  true = true /\
  1 = length [ {| name := "Jane Doe"; profileUrl := "https://www.linkedin.com/in/jane-doe";
                  headline := None |} ] /\
  filters_of_args ∅ = filters_of_args ∅ /\
  Forall Records.well_formed
    [ {| name := "Jane Doe"; profileUrl := "https://www.linkedin.com/in/jane-doe";
         headline := None |} ].
Proof.
  assert (Hrun : outcome (callTool "search-linkedin-people" ∅ (live [jane; advert]))
                 = Ok {| success := true; count := 1;
                         profiles := [ {| name := "Jane Doe";
                                          profileUrl := "https://www.linkedin.com/in/jane-doe";
                                          headline := None |} ];
                         filters := filters_of_args ∅ |})
    by (vm_compute; reflexivity).
  exact (tool_response_shape "search-linkedin-people" ∅ (live [jane; advert]) _ Hrun).
Defined.

Lemma failed_launch_is_sticky_witness :
  outcome (callTool "search-linkedin-people" ∅ broken)
    = Throw (McpError InternalError
               "LinkedIn search failed: browserType.launch: Executable not found") /\
  final (callTool "search-linkedin-people" ∅ broken) = mkState true false (world broken) /\
  callTool "search-linkedin-people" {[ "keywords" := "nurse" ]}
      (mkState true false (world broken)) =
    (Throw (McpError InternalError
              "LinkedIn search failed: Browser not initialized. Call init() first."),
     mkState true false (world broken), refused_search).
Proof.
  exact (failed_launch_is_sticky ∅ {[ "keywords" := "nurse" ]} broken no_browser
           (world broken) eq_refl eq_refl eq_refl eq_refl).
Defined.

Lemma failed_configuration_is_retried_witness :
  callTool "search-linkedin-people" ∅ unconfigured =
    (Throw (McpError InternalError ("LinkedIn search failed: " +:+ exn_message no_config)),
     unconfigured, refused_search).
Proof. exact (failed_configuration_is_retried ∅ unconfigured no_config eq_refl eq_refl). Defined.

Lemma search_visits_only_search_and_login_witness :
  In (gotos (events (searchPeople text_location_filters (walled true [jane]))))
     [ [buildSearchUrl text_location_filters];
       [buildSearchUrl text_location_filters; loginUrl];
       [buildSearchUrl text_location_filters; loginUrl;
        buildSearchUrl text_location_filters] ].
Proof.
  exact (search_visits_only_search_and_login text_location_filters (walled true [jane])
           eq_refl).
Defined.

Lemma navigation_failure_is_reported_witness :
  outcome (callTool "search-linkedin-people" ∅ offline)
    = Throw (McpError InternalError
               ("LinkedIn search failed: " +:+ exn_message no_network)) /\
  gotos (events (callTool "search-linkedin-people" ∅ offline))
    = [buildSearchUrl (filters_of_args ∅)] /\
  forallb (fun ev => negb (is_extraction ev))
    (events (callTool "search-linkedin-people" ∅ offline)) = true /\
  final (callTool "search-linkedin-people" ∅ offline) = mkState true true (world offline).
Proof.
  exact (navigation_failure_is_reported ∅ offline no_network (world offline)
           eq_refl eq_refl eq_refl).
Defined.

Lemma login_verdict_after_submission_witness :
  outcome (loginToLinkedIn (landing feedUrl)) = Ok true /\
  In (Console "💾 Session cookies saved") (events (loginToLinkedIn (landing feedUrl))).
Proof.
  assert (Hform : submitted (world (landing feedUrl))
                    (moved feedUrl (world (landing feedUrl)))).
  { unfold submitted. do 7 eexists. repeat split; reflexivity. }
  destruct (login_verdict_after_submission (landing feedUrl)
              (moved feedUrl (world (landing feedUrl))) eq_refl Hform)
    as (Hverdict & _ & Hsaved & _).
  split; [exact Hverdict |].
  apply Hsaved. split; [reflexivity | eexists; reflexivity].
Defined.

Lemma results_wait_stops_at_first_container_witness :
  outcome (waitForResults [".search-results__list"; ".search-results-container"] (live []))
    = Ok true /\
  waits (events (waitForResults [".search-results__list"; ".search-results-container"]
                   (live [])))
    = [".search-results__list"] ++ [".search-results-container"].
Proof.
  assert (Hfirst : time_out [".search-results__list"] (world (live [])) (world (live []))).
  { apply (time_out_cons _ _ Demo.timeout _ (world (live []))); [| apply time_out_nil].
    vm_compute. reflexivity. }
  assert (Hsecond : waitForSelector ".search-results-container" (world (live []))
                    = (Ok tt, world (live [])))
    by (vm_compute; reflexivity).
  destruct (proj1 (results_wait_stops_at_first_container
                     [".search-results__list"; ".search-results-container"] (live []))
              [".search-results__list"] [] ".search-results-container"
              (world (live [])) (world (live [])) eq_refl Hfirst Hsecond)
    as (Hfound & _ & Hwaits & _).
  exact (conj Hfound Hwaits).
Defined.

Lemma search_tool_differs_only_in_configuration_witness :
  Server.loadConfig (world container) = Ok tt /\
  is_ok (outcome (Server.callTool "search-linkedin-people" ∅ container)) = true /\
  is_ok (loadConfig (world container)) = false /\
  is_ok (outcome (Scraper.callTool "search-linkedin-people" ∅ container)) = false.
Proof.
  split; [| split; [| split]; vm_compute; reflexivity].
  apply (proj1 (proj2 (search_tool_differs_only_in_configuration ∅ container))
           "ann@example.org" "secret"); (reflexivity || discriminate).
Defined.

Lemma cookies_are_saved_only_after_a_successful_login_witness :
  outcome (loginToLinkedIn (landing feedUrl)) = Ok true /\
  In (Click submit_button) (events (loginToLinkedIn (landing feedUrl))).
Proof.
  apply cookies_are_saved_only_after_a_successful_login.
  vm_compute. do 13 right. left. reflexivity.
Defined.

Lemma profile_extraction_never_falls_back_witness :
  exists p,
    outcome (extractProfileData "https://www.linkedin.com/in/jane-doe/" (live [])) = Ok p /\
    fullProfileUrl p = "https://www.linkedin.com/in/jane-doe/" /\
    fullName p <> EmptyString /\
    experience p <> None /\ education p <> None /\ skills p <> None.
Proof.
  exact (profile_extraction_never_falls_back "https://www.linkedin.com/in/jane-doe/"
           (live []) eq_refl).
Defined.

Lemma profile_scrape_visits_only_profile_and_login_witness :
  In (gotos (events (scrapeProfile "https://www.linkedin.com/in/jane-doe/" (landing feedUrl))))
     [ ["https://www.linkedin.com/in/jane-doe/"];
       ["https://www.linkedin.com/in/jane-doe/"; loginUrl];
       ["https://www.linkedin.com/in/jane-doe/"; loginUrl;
        "https://www.linkedin.com/in/jane-doe/"] ].
Proof.
  exact (profile_scrape_visits_only_profile_and_login
           "https://www.linkedin.com/in/jane-doe/" (landing feedUrl) eq_refl).
Defined.

Lemma profile_url_is_required_witness :
  Server.callTool "scrape-linkedin-profile" {[ "profileUrl" := EmptyString ]} broken
  = (Throw (McpError InvalidParams "profileUrl is required for scrape-linkedin-profile tool"),
     broken, []).
Proof.
  apply profile_url_is_required. right. reflexivity.
Defined.

Lemma profile_tool_outcomes_witness :
  exists p,
    ProfileResult true
      {| fullName := "Unknown"; fullHeadline := None; fullLocation := None; about := None;
         experience := Some []; education := Some []; skills := Some [];
         fullProfileUrl := "https://www.linkedin.com/in/jane-doe/" |}
    = ProfileResult true p /\
    ({[ "profileUrl" := "https://www.linkedin.com/in/jane-doe/" ]} : gmap string string)
      !! "profileUrl" = Some (fullProfileUrl p) /\
    fullProfileUrl p <> EmptyString.
Proof.
  apply (proj1 (profile_tool_outcomes
                  {[ "profileUrl" := "https://www.linkedin.com/in/jane-doe/" ]}
                  (landing feedUrl))).
  vm_compute. reflexivity.
Defined.

Lemma throwing_query_drops_the_row_witness :
  extractSingleProfile torn 0 = (None, [error_message 0]).
Proof.
  apply (proj1 (proj2 (throwing_query_drops_the_row torn 0 detached))
           "https://www.linkedin.com/in/bob"); vm_compute; reflexivity.
Defined.

Lemma guarded_link_chain_skips_failures_witness :
  Hardened.extractProfileUrl_from
    ([ "a" +:+ attr_has "href" "/in/" ] ++
     (".app-aware-link" +:+ attr_has "href" "/in/") ::
     [ ".search-result__result-link"; attr "data-control-name" "search_srp_result" ]) flaky
  = (Some "https://www.linkedin.com/in/ann-lee",
     List.map Hardened.selector_error
       (List.filter (Hardened.link_failed flaky) [ "a" +:+ attr_has "href" "/in/" ])).
Proof.
  apply guarded_link_chain_skips_failures.
  - intros c v [<- | []]. vm_compute. discriminate.
  - vm_compute. reflexivity.
Defined.

Lemma guarded_variant_keeps_what_the_original_keeps_witness :
  exists q,
    (Hardened.extractSingleProfile jane 0).1 = Some q /\
    profileUrl q = "https://www.linkedin.com/in/jane-doe" /\
    headline q = None /\
    (name q = "Jane Doe" \/ "Jane Doe" = placeholder_name 0).
Proof.
  apply (guarded_variant_keeps_what_the_original_keeps jane 0
           {| name := "Jane Doe"; profileUrl := "https://www.linkedin.com/in/jane-doe";
              headline := None |}).
  vm_compute. reflexivity.
Defined.

Lemma search_url_parameters_witness :
  URLSearchParams.getAll "keywords" (of_filters faceted_filters) = ["engineer"].
Proof.
  apply (proj2 (proj2 (search_url_parameters faceted_filters))). vm_compute. reflexivity.
Defined.

Lemma other_arguments_are_ignored_witness :
  callTool "search-linkedin-people" (<["networkDegree" := "first"]> ∅) (live [jane])
  = callTool "search-linkedin-people" ∅ (live [jane]).
Proof.
  apply other_arguments_are_ignored; discriminate.
Defined.

End FurtherRuns.
